(** * GameOfLife: a shallow embedding of the WebGPU Game of Life

    The development follows the three source files of the repository:
    - [simulate.wgsl]: the compute shader that applies the update rule;
    - [cell.wgsl]: the vertex and fragment shaders that draw the grid;
    - [main.ts]: the HSL conversion, the clock and the per-frame commands.

    Conventions of the embedding.
    - A WGSL [u32] is a [Z] in [0, 2^32); its arithmetic wraps (module [U32]).
    - A WGSL [f32] and a JavaScript [number] are modelled as exact rationals
      ([Q]): rounding of floating-point arithmetic is not part of the model.
      The one conversion that loses whole digits on ordinary inputs, from
      the [u32] instance index to [f32], is modelled ([f32_of_u32]), and
      the clock of [main.ts] is also given with its rounding written out
      ([Main.tickRounded]), for the results that are stated for every
      rounding.
    - A storage buffer is a [list Z], read with stdpp's lookup and written
      with stdpp's insert.  A read outside the buffer has no defined value
      in WGSL and is [None] here; a write outside the buffer is dropped.
    - Device memory holds the two cell-state buffers side by side, and a
      bind group names the buffer behind each binding, so that a read
      binding and a write binding on the same buffer are expressible.
    - A compute pass runs its invocations one after the other in a
      schedule; the lemmas on the pass hold for every schedule. *)

From Stdlib Require Import ZArith QArith Qround Lia Lqa List Permutation.
From stdpp Require Import base option list.

Close Scope Q_scope.
Open Scope Z_scope.

(** ** Unsigned 32-bit arithmetic of WGSL *)

Module U32.

Definition modulus : Z := 2 ^ 32.

Definition wrap (z : Z) : Z := z mod modulus.

Definition add (a b : Z) : Z := wrap (a + b).
Definition sub (a b : Z) : Z := wrap (a - b).
Definition mul (a b : Z) : Z := wrap (a * b).

(** [a % b] on [u32]; WGSL gives [a] when [b] is zero, and so does [Z.modulo]. *)
Definition rem (a b : Z) : Z := a mod b.

Definition in_range (z : Z) : Prop := 0 <= z < modulus.

End U32.

(** ** Rational helpers shared by the shaders and by main.ts *)

(** Rounding toward zero: [trunc] of WGSL and of the JavaScript remainder. *)
Definition Qtrunc (q : Q) : Z :=
  if Qle_bool 0 q then Qfloor q else Qceiling q.

(** The floating-point remainder [x % y] of WGSL and JavaScript:
    [x - y * trunc (x / y)], with the sign of [x]. *)
Definition Qrem (x y : Q) : Q := (x - y * inject_Z (Qtrunc (x / y)))%Q.

(** [u32(e)] for [e : f32]: round toward zero, clamp to the range of [u32]. *)
Definition u32_of_f32 (q : Q) : Z :=
  Z.max 0 (Z.min (U32.modulus - 1) (Qtrunc q)).

(** [f32(e)] for [e : u32]. Every integer below [2^24] is an [f32]; a larger
    one is brought to a 24-bit significand. WGSL leaves open which of the
    two neighbouring values is taken; the nearest, ties to even, is taken
    here, and every statement on the placement of instances is made below
    [2^24], where the choice does not arise. *)
Definition f32_of_u32 (i : Z) : Q :=
  if i <? 2 ^ 24 then inject_Z i
  else
    let e := Z.log2 i - 23 in
    let m := i / 2 ^ e in
    let r := i mod 2 ^ e in
    let half := 2 ^ (e - 1) in
    let m' :=
      if r <? half then m
      else if half <? r then m + 1
      else if Z.even m then m else m + 1 in
    inject_Z (m' * 2 ^ e).

Record vec2f := Vec2f { vx : Q; vy : Q }.

Record vec4f := Vec4f { c_r : Q; c_g : Q; c_b : Q; c_a : Q }.

(** The grid uniform written by [setup]: [Float32Array([grid_size, grid_size])],
    and more generally a [width] by [height] grid. *)
Definition gridUniform (width height : Z) : vec2f :=
  Vec2f (inject_Z width) (inject_Z height).

(** ** simulate.wgsl *)

Module Simulate.

Section Shader.

(** [@group(0) @binding(0) var<uniform> grid: vec2f] *)
Variable grid : vec2f.
(** [@group(0) @binding(2) var<storage> cellStateIn: array<u32>] *)
Variable cellStateIn : list Z.

Definition cellIndex (cx cy : Z) : Z :=
  U32.add (U32.mul (U32.rem cy (u32_of_f32 (vy grid))) (u32_of_f32 (vx grid)))
          (U32.rem cx (u32_of_f32 (vx grid))).

Definition cellState (x y : Z) : option Z :=
  cellStateIn !! Z.to_nat (cellIndex x y).

(** The [let aliveNeighbors = ...] of [simulate]: eight reads, added as [u32],
    in the order of the source. *)
Definition aliveNeighbors (cx cy : Z) : option Z :=
  n1 ← cellState (U32.add cx 1) cy;
  n2 ← cellState (U32.sub cx 1) cy;
  n3 ← cellState cx (U32.add cy 1);
  n4 ← cellState cx (U32.sub cy 1);
  n5 ← cellState (U32.add cx 1) (U32.add cy 1);
  n6 ← cellState (U32.sub cx 1) (U32.sub cy 1);
  n7 ← cellState (U32.add cx 1) (U32.sub cy 1);
  n8 ← cellState (U32.sub cx 1) (U32.add cy 1);
  Some (U32.add (U32.add (U32.add (U32.add (U32.add (U32.add (U32.add
          n1 n2) n3) n4) n5) n6) n7) n8).

(** One invocation of the entry point at [global_invocation_id = cell].
    The result is the single store it performs on [cellStateOut]:
    the index written and the value written. *)
Definition simulate (cell : Z * Z * Z) : option (nat * Z) :=
  let '(cx, cy, _) := cell in
  n ← aliveNeighbors cx cy;
  let target := Z.to_nat (cellIndex cx cy) in
  if n =? 2 then
    cur ← cellStateIn !! target; Some (target, cur)
  else if n =? 3 then
    Some (target, 1)
  else
    Some (target, 0).

End Shader.

End Simulate.

(** ** cell.wgsl *)

Module Cell.

(** [array<vec4f, 4>], only ever indexed by the constants 0 to 3. *)
Record Colors := MkColors
  { color0 : vec4f; color1 : vec4f; color2 : vec4f; color3 : vec4f }.

Definition vscale (v : vec4f) (k : Q) : vec4f :=
  Vec4f (c_r v * k) (c_g v * k) (c_b v * k) (c_a v * k).

Definition vadd (u v : vec4f) : vec4f :=
  Vec4f (c_r u + c_r v) (c_g u + c_g v) (c_b u + c_b v) (c_a u + c_a v).

(** Channel-wise equality of colours, up to equality of rationals. *)
Definition veq (u v : vec4f) : Prop :=
  (c_r u == c_r v /\ c_g u == c_g v /\ c_b u == c_b v /\ c_a u == c_a v)%Q.

Record VertexOutput := MkVertexOutput { position : vec4f; cell : vec2f }.

Section Shader.

Variable grid : vec2f.
Variable colors : Colors.
Variable states : list Z.

Definition vertexMain (pos : vec2f) (instanceIndex : Z) : option VertexOutput :=
  let i := f32_of_u32 instanceIndex in
  let cell := Vec2f (Qrem i (vx grid)) (inject_Z (Qfloor (i / vx grid))) in
  let cellOffset :=
    Vec2f (vx cell / vx grid * 2) (vy cell / vy grid * 2) in
  st ← states !! Z.to_nat instanceIndex;
  let state := inject_Z st in
  let gridPos :=
    Vec2f ((vx pos * state + 1) / vx grid - 1 + vx cellOffset)
          ((vy pos * state + 1) / vy grid - 1 + vy cellOffset) in
  Some (MkVertexOutput (Vec4f (vx gridPos) (vy gridPos) 0 1) cell).

Definition fragmentMain (cell : vec2f) : vec4f :=
  let factor := Vec2f (vx cell / vx grid) (vy cell / vy grid) in
  let left :=
    vadd (vscale (color0 colors) (1 - vx factor)) (vscale (color1 colors) (vx factor)) in
  let right :=
    vadd (vscale (color2 colors) (1 - vx factor)) (vscale (color3 colors) (vx factor)) in
  vadd (vscale left (1 - vy factor)) (vscale right (vy factor)).

(** One instance of a draw call: the vertex shader runs once per vertex of
    the vertex buffer, every time with the same [instance_index]. *)
Definition drawInstance (vertices : list vec2f) (instanceIndex : Z)
  : list (option VertexOutput) :=
  map (fun v => vertexMain v instanceIndex) vertices.

(** [pass.draw(vertexCount, instanceCount)]: instances [0 .. instanceCount-1]. *)
Definition draw (vertices : list vec2f) (vertexCount instanceCount : Z)
  : list (list (option VertexOutput)) :=
  map (fun i => drawInstance (take (Z.to_nat vertexCount) vertices) (Z.of_nat i))
      (seq 0 (Z.to_nat instanceCount)).

End Shader.

End Cell.

(** ** The GPU resources that main.ts creates *)

(** The buffers created by [setup], named by their role. [CellState i] is
    [cellStateStorage[i]]: "Cell State 1" is [CellState 0] (buffer A) and
    "Cell State 2" is [CellState 1] (buffer B). *)
Inductive Buffer :=
| CellVertices
| GridUniforms
| ColorUniforms
| CellState (i : nat).

#[global] Instance Buffer_eq_dec : EqDecision Buffer.
Proof. solve_decision. Defined.

Inductive Pipeline := CellPipeline | SimulationPipeline.

(** A bind group for the one layout of the program: four entries. *)
Record BindGroup := MkBindGroup
  { binding0 : Buffer; binding1 : Buffer; binding2 : Buffer; binding3 : Buffer }.

(** Contents of device memory. *)
Record Device := MkDevice
  { vertexData : list vec2f;
    uniformData : vec2f;
    colorData : Cell.Colors;
    cellData : list (list Z) }.

Definition readStorage (dev : Device) (b : Buffer) : option (list Z) :=
  match b with
  | CellState i => cellData dev !! i
  | _ => None
  end.

(** A [u32] store into a storage buffer; outside the buffer it is dropped. *)
Definition writeStorage (dev : Device) (b : Buffer) (i : nat) (v : Z)
  : option Device :=
  match b with
  | CellState k =>
      buf ← cellData dev !! k;
      Some (MkDevice (vertexData dev) (uniformData dev) (colorData dev)
                     (<[k := <[i := v]> buf]> (cellData dev)))
  | _ => None
  end.

(** The global invocation ids of [dispatchWorkgroups(gx, gy, gz)] for the
    workgroup size [(8, 8, 1)] of [simulate]: workgroup id times the
    workgroup size plus the local id. *)
Definition workgroup_size : Z * Z * Z := (8, 8, 1).

Definition invocations (gx gy gz : Z) : list (Z * Z * Z) :=
  let '(sx, sy, sz) := workgroup_size in
  z ← seqZ 0 (gz * sz);
  y ← seqZ 0 (gy * sy);
  x ← seqZ 0 (gx * sx);
  [(x, y, z)].

(** One invocation of [simulate] under a bind group: the shader reads the
    buffer at binding 2 and stores into the buffer at binding 3. *)
Definition invoke (bg : BindGroup) (dev : Device) (cell : Z * Z * Z)
  : option (Device * (Buffer * nat)) :=
  cin ← readStorage dev (binding2 bg);
  w ← Simulate.simulate (uniformData dev) cin cell;
  dev' ← writeStorage dev (binding3 bg) w.1 w.2;
  Some (dev', (binding3 bg, w.1)).

(** A compute pass runs the invocations in some order [sched]. Next to the
    resulting memory it returns the stores issued, in order (the buffer
    and the index of each), so that what a pass writes can be stated. *)
Fixpoint computePass (bg : BindGroup) (sched : list (Z * Z * Z)) (dev : Device)
  : option (Device * list (Buffer * nat)) :=
  match sched with
  | [] => Some (dev, [])
  | cell :: rest =>
      r ← invoke bg dev cell;
      r' ← computePass bg rest r.1;
      Some (r'.1, r.2 :: r'.2)
  end.

(** Conversion of a JavaScript number to [GPUSize32]
    ([EnforceRange] unsigned long): the integer part, or a [TypeError]. *)
Definition enforceRange (q : Q) : option Z :=
  let z := Qtrunc q in
  if (0 <=? z) && (z <? U32.modulus) then Some z else None.

(** ** main.ts *)

Module Main.

Definition hueToRgb (p q t : Q) : Q :=
  let t := if Qlt_le_dec t 0 then (t + 1)%Q else t in
  let t := if Qlt_le_dec 1 t then (t - 1)%Q else t in
  if Qlt_le_dec t (1 # 6) then (p + (q - p) * 6 * t)%Q
  else if Qlt_le_dec t (1 # 2) then q
  else if Qlt_le_dec t (2 # 3) then (p + (q - p) * ((2 # 3) - t) * 6)%Q
  else p.

Definition hslToRgb (h s l : Q) : Q * Q * Q :=
  if Qeq_bool s 0 then (l, l, l)
  else
    let q := if Qlt_le_dec l (1 # 2) then (l * (1 + s))%Q else (l + s - l * s)%Q in
    let p := (2 * l - q)%Q in
    (hueToRgb p q (h + (1 # 3)), hueToRgb p q h, hueToRgb p q (h - (1 # 3))).

(** The GPU objects that [setup] stores in the fields of the class. *)
Record Resources := MkResources
  { vertexBuffer : Buffer;
    uniformBuffer : Buffer;
    colorBuffer : Buffer;
    cellPipeline : Pipeline;
    simulatePipeline : Pipeline;
    bindGroups : list BindGroup;
    cell_storage_buffer : list Buffer }.

Record GameOfLife := MkGameOfLife
  { gpu : option Resources;
    grid_size : Z;
    time : Q;
    step : Q;
    disco_speed : Q;
    sim_speed : Q }.

Definition constructor (grid_size : Z) (disco_speed sim_speed : Q) : GameOfLife :=
  MkGameOfLife None grid_size 0 0 disco_speed sim_speed.

(** The six vertices of the quad: two triangles. *)
Definition vertices : list vec2f :=
  [ Vec2f (-(4 # 5)) (-(4 # 5)); Vec2f (4 # 5) (-(4 # 5)); Vec2f (4 # 5) (4 # 5);
    Vec2f (-(4 # 5)) (-(4 # 5)); Vec2f (4 # 5) (4 # 5); Vec2f (-(4 # 5)) (4 # 5) ].

(** [cellStateArray[i] = Math.random() > 0.6 ? 1 : 0], for the stream
    [random] of the values that [Math.random] returns. *)
Definition cellStateArray (grid_size : Z) (random : nat -> Q) : list Z :=
  map (fun i => if Qlt_le_dec (3 # 5) (random i) then 1 else 0)
      (seq 0 (Z.to_nat (grid_size * grid_size))).

Definition setupBindGroups : list BindGroup :=
  [ MkBindGroup GridUniforms ColorUniforms (CellState 0) (CellState 1);
    MkBindGroup GridUniforms ColorUniforms (CellState 1) (CellState 0) ].

Definition zeroColors : Cell.Colors :=
  Cell.MkColors (Vec4f 0 0 0 0) (Vec4f 0 0 0 0) (Vec4f 0 0 0 0) (Vec4f 0 0 0 0).

(** [setup]: the resources and the initial contents of device memory. *)
Definition setup (g : GameOfLife) (random : nat -> Q) : GameOfLife * Device :=
  let cells := cellStateArray (grid_size g) random in
  (MkGameOfLife
     (Some (MkResources CellVertices GridUniforms ColorUniforms
              CellPipeline SimulationPipeline setupBindGroups
              [CellState 0; CellState 1]))
     (grid_size g) (time g) (step g) (disco_speed g) (sim_speed g),
   MkDevice vertices (gridUniform (grid_size g) (grid_size g)) zeroColors
            [cells; cells]).

Definition tick (g : GameOfLife) : GameOfLife :=
  let delta := (1 # 60)%Q in
  MkGameOfLife (gpu g) (grid_size g)
    (time g + delta) (step g + delta * sim_speed g)
    (disco_speed g) (sim_speed g).

(** What one call of [render] hands to the GPU. *)
Record Frame := MkFrame
  { frameBindGroup : BindGroup;
    frameDraw : list (list (option Cell.VertexOutput));
    frameDispatch : Z * Z * Z;
    frameStores : list (Buffer * nat) }.

Definition offsetOf (g : GameOfLife) : Q :=
  (Qrem (time g) (1 / disco_speed g) * disco_speed g)%Q.

Definition cornerColors (g : GameOfLife) : Cell.Colors :=
  let offset := offsetOf g in
  let color1 := hslToRgb (offset + (1 # 5)) (1 # 2) (1 # 2) in
  let color2 := hslToRgb (offset + (2 # 5)) (1 # 2) (1 # 2) in
  let color3 := hslToRgb (offset + (3 # 5)) (1 # 2) (1 # 2) in
  let color4 := hslToRgb (offset + (4 # 5)) (1 # 2) (1 # 2) in
  Cell.MkColors
    (Vec4f color1.1.1 color1.1.2 color1.2 1)
    (Vec4f color2.1.1 color2.1.2 color2.2 1)
    (Vec4f color3.1.1 color3.1.2 color3.2 1)
    (Vec4f color4.1.1 color4.1.2 color4.2 1).

(** [Math.floor(this.step % 2)], the index into [this.bindGroups]. *)
Definition bindGroupIndex (g : GameOfLife) : Z := Qfloor (Qrem (step g) 2).

(** Indexing a JavaScript array: [undefined] below zero and past the end. *)
Definition jsIndex {A} (l : list A) (i : Z) : option A :=
  if i <? 0 then None else l !! Z.to_nat i.

(** The instance count passed to [pass.draw]. *)
Definition drawInstanceCount (g : GameOfLife) : Z := grid_size g * grid_size g * 2.

(** The arguments of [dispatchWorkgroups], as JavaScript numbers. *)
Definition dispatchArgs (g : GameOfLife) : Q * Q * Q :=
  (inject_Z (grid_size g) / 8, inject_Z (grid_size g) / 8, 1)%Q.

(** A call of [render] whose frame is encoded and submitted. The result is
    [None] when it is not: no device, no bind group at the index, or an
    argument that [dispatchWorkgroups] refuses; what such a call leaves
    behind is [renderDropped]. The instance count of [draw] is taken as
    passed: as a [GPUSize32] it is refused only from a grid side of 46341
    on, whose buffers of 8 GiB cannot be created. *)
Definition render (g : GameOfLife) (dev : Device)
  : option (GameOfLife * Device * Frame) :=
  res ← gpu g;
  let dev1 :=
    MkDevice (vertexData dev) (uniformData dev) (cornerColors g) (cellData dev) in
  bindGroup ← jsIndex (bindGroups res) (bindGroupIndex g);
  states ← readStorage dev1 (binding2 bindGroup);
  let drawn :=
    Cell.draw (uniformData dev1) states (vertexData dev1) 6 (drawInstanceCount g) in
  gx ← enforceRange (dispatchArgs g).1.1;
  gy ← enforceRange (dispatchArgs g).1.2;
  gz ← enforceRange (dispatchArgs g).2;
  r ← computePass bindGroup (invocations gx gy gz) dev1;
  Some (g, r.1, MkFrame bindGroup drawn (gx, gy, gz) r.2).

(** What a call of [render] leaves in device memory when its frame is not
    submitted. With a device, [writeBuffer] has already uploaded the corner
    colours when the bind group is looked up; nothing is drawn and nothing
    is computed. Without a device the call fails at its first use of
    [this.device], before any write. The fields of the game are not
    assigned in either case. *)
Definition renderDropped (g : GameOfLife) (dev : Device) : Device :=
  match gpu g with
  | Some _ =>
      MkDevice (vertexData dev) (uniformData dev) (cornerColors g) (cellData dev)
  | None => dev
  end.

(** The external caller: any interleaving of [tick] and [render]. A call
    of [render] that drops its frame does not stop the caller: the timer
    of [main] runs every callback on its own, and the calls after it go
    on from [renderDropped]. The result is therefore always [Some]. *)
Inductive Call := CallTick | CallRender.

Fixpoint run (calls : list Call) (g : GameOfLife) (dev : Device)
  : option (GameOfLife * Device) :=
  match calls with
  | [] => Some (g, dev)
  | CallTick :: rest => run rest (tick g) dev
  | CallRender :: rest =>
      match render g dev with
      | Some r => run rest r.1.1 r.1.2
      | None => run rest g (renderDropped g dev)
      end
  end.

(** The number of calls of [tick] in an interleaving. *)
Fixpoint countTicks (calls : list Call) : nat :=
  match calls with
  | [] => 0%nat
  | CallTick :: rest => S (countTicks rest)
  | CallRender :: rest => countTicks rest
  end.

(** The loop of [main], [k] times round: a tick, then a frame. *)
Fixpoint frames (k : nat) : list Call :=
  match k with
  | O => []
  | S k' => CallTick :: CallRender :: frames k'
  end.

(** The number of calls of [render] in an interleaving that drop their
    frame. *)
Fixpoint droppedFrames (calls : list Call) (g : GameOfLife) (dev : Device) : nat :=
  match calls with
  | [] => 0%nat
  | CallTick :: rest => droppedFrames rest (tick g) dev
  | CallRender :: rest =>
      match render g dev with
      | Some r => droppedFrames rest r.1.1 r.1.2
      | None => S (droppedFrames rest g (renderDropped g dev))
      end
  end.

(** [tick] with the rounding of the number arithmetic written out: [fl]
    rounds the quotient [1 / 60], the product and each of the two sums.
    [tick] is [tickRounded] for the identity, and [run] is [runRounded]. *)
Definition tickRounded (fl : Q -> Q) (g : GameOfLife) : GameOfLife :=
  let delta := fl (1 # 60)%Q in
  MkGameOfLife (gpu g) (grid_size g)
    (fl (time g + delta)%Q) (fl (step g + fl (delta * sim_speed g))%Q)
    (disco_speed g) (sim_speed g).

Fixpoint runRounded (fl : Q -> Q) (calls : list Call) (g : GameOfLife) (dev : Device)
  : option (GameOfLife * Device) :=
  match calls with
  | [] => Some (g, dev)
  | CallTick :: rest => runRounded fl rest (tickRounded fl g) dev
  | CallRender :: rest =>
      match render g dev with
      | Some r => runRounded fl rest r.1.1 r.1.2
      | None => runRounded fl rest g (renderDropped g dev)
      end
  end.

End Main.

(** ** Definitions of the specification, for comparison with the code *)

(** A cell-state buffer holds only 0 (dead) and 1 (alive). *)
Definition binary (buf : list Z) : Prop := Forall (fun v => v = 0 \/ v = 1) buf.

(** The transition table of the Game of Life: a dead cell with exactly
    three live neighbours becomes alive, a live cell with two or three
    live neighbours stays alive, every other cell is dead. *)
Definition lifeRule (alive : bool) (liveNeighbors : Z) : bool :=
  if alive then (liveNeighbors =? 2) || (liveNeighbors =? 3)
  else (liveNeighbors =? 3).

(** The eight Moore neighbours of [(x, y)] on a [w] by [h] torus, in the
    order in which [simulate] reads them. *)
Definition mooreOffsets : list (Z * Z) :=
  [ (1, 0); (-1, 0); (0, 1); (0, -1); (1, 1); (-1, -1); (1, -1); (-1, 1) ].

Definition torusNeighbors (w h x y : Z) : list (Z * Z) :=
  map (fun d => ((x + d.1) mod w, (y + d.2) mod h)) mooreOffsets.

(** Row-major index of a cell, and the number of live cells among a list
    of cells of a buffer. *)
Definition rowMajor (w : Z) (c : Z * Z) : nat := Z.to_nat (c.2 * w + c.1).

Definition liveAmong (w : Z) (buf : list Z) (cells : list (Z * Z)) : Z :=
  fold_right (fun c acc => default 0 (buf !! rowMajor w c) + acc) 0 cells.

(** The neighbour cells that the code reads: the cell that each of the
    eight calls of [cellState] selects, column first. *)
Definition codeNeighbors (w h x y : Z) : list (Z * Z) :=
  map (fun c => (U32.rem c.1 w, U32.rem c.2 h))
    [ (U32.add x 1, y); (U32.sub x 1, y); (x, U32.add y 1); (x, U32.sub y 1);
      (U32.add x 1, U32.add y 1); (U32.sub x 1, U32.sub y 1);
      (U32.add x 1, U32.sub y 1); (U32.sub x 1, U32.add y 1) ].

(** Linear and bilinear interpolation, as the specification words them. *)
Definition lerp (a b t : Q) : Q := (a + (b - a) * t)%Q.

Definition vlerp (u v : vec4f) (t : Q) : vec4f :=
  Vec4f (lerp (c_r u) (c_r v) t) (lerp (c_g u) (c_g v) t)
        (lerp (c_b u) (c_b v) t) (lerp (c_a u) (c_a v) t).

Definition bilinear (c0 c1 c2 c3 : vec4f) (fx fy : Q) : vec4f :=
  vlerp (vlerp c0 c1 fx) (vlerp c2 c3 fx) fy.

(** A colour channel within [0, 1]. *)
Definition unitChannel (q : Q) : Prop := (0 <= q /\ q <= 1)%Q.

Definition unitColor (c : vec4f) : Prop :=
  unitChannel (c_r c) /\ unitChannel (c_g c) /\ unitChannel (c_b c) /\ c_a c = 1%Q.

(** [h mod 1]: the fractional part of a hue. *)
Definition hueMod1 (h : Q) : Q := (h - inject_Z (Qfloor h))%Q.

(** Number of workgroups of side 8 needed to cover [n] cells. *)
Definition ceilDiv8 (n : Z) : Z := (n + 7) / 8.

(** A game as [setup] leaves it, and device memory shaped for its grid. *)
Definition ready (g : Main.GameOfLife) : Prop :=
  exists res, Main.gpu g = Some res /\ Main.bindGroups res = Main.setupBindGroups.

Definition deviceFor (n : Z) (dev : Device) : Prop :=
  uniformData dev = gridUniform n n /\
  exists a b, cellData dev = [a; b] /\
    length a = Z.to_nat (n * n) /\ length b = Z.to_nat (n * n).

(** The fields that neither [tick] nor [render] assigns. *)
Definition sameConfiguration (g g' : Main.GameOfLife) : Prop :=
  Main.gpu g' = Main.gpu g /\ Main.grid_size g' = Main.grid_size g /\
  Main.disco_speed g' = Main.disco_speed g /\ Main.sim_speed g' = Main.sim_speed g.

(** The store that the invocation [c] performs on a [w] by [h] grid when
    binding 3 is the cell-state buffer [o]: the buffer and the index. *)
Definition storeOf (w h : Z) (o : nat) (c : Z * Z * Z) : Buffer * nat :=
  (CellState o, Z.to_nat (Simulate.cellIndex (gridUniform w h) c.1.1 c.1.2)).

(** What a compute pass over the schedule [sched] leaves in the written
    buffer: index [k] holds [v] when every invocation of the schedule that
    stores at [k] stores [v], and either one does or [k] held [v] before. *)
Definition writtenBy (w h : Z) (cin : list Z) (sched : list (Z * Z * Z))
    (cout cout' : list Z) : Prop :=
  forall (k : nat) (v : Z),
    (forall c, c ∈ sched ->
       Z.to_nat (Simulate.cellIndex (gridUniform w h) c.1.1 c.1.2) = k ->
       Simulate.simulate (gridUniform w h) cin c = Some (k, v)) ->
    (exists c, c ∈ sched /\
       Z.to_nat (Simulate.cellIndex (gridUniform w h) c.1.1 c.1.2) = k) \/
    cout !! k = Some v ->
    cout' !! k = Some v.

(** ** Concrete grids used as examples *)

(** A buffer of [n] cells, alive exactly at the indices in [live]. *)
Definition cellsWith (n : nat) (live : list nat) : list Z :=
  map (fun i => if bool_decide (i ∈ live) then 1 else 0) (seq 0 n).

(** A 24 by 24 grid whose only live cells are (23, 23), (23, 0) and (23, 1):
    the three western neighbours of cell (0, 0) on the torus. *)
Definition westOfOrigin24 : list Z := cellsWith 576 [23%nat; 47%nat; 575%nat].

(** A 4 by 4 grid with a horizontal row of three live cells at [y = 1]. *)
Definition row4 : list Z := cellsWith 16 [4%nat; 5%nat; 6%nat].

(** The game of [main], on an 8 by 8 grid whose cells all start alive,
    after [setup]. *)
Definition game8 : Main.GameOfLife :=
  (Main.setup (Main.constructor 8 (1 # 2) 60) (fun _ => 1%Q)).1.

Definition dev8 : Device :=
  (Main.setup (Main.constructor 8 (1 # 2) 60) (fun _ => 1%Q)).2.

(** A game whose simulation speed is negative. *)
Definition rewindGame : Main.GameOfLife := Main.constructor 8 (1 # 2) (-60).

(** A game whose clock reads a negative time, and one late in the hue cycle
    (offset 0.9), both with the hue rate 0.5 of [main]. *)
Definition pastGame : Main.GameOfLife :=
  Main.MkGameOfLife None 8 (-(99 # 50)) 0 (1 # 2) 60.

Definition lateGame : Main.GameOfLife :=
  Main.MkGameOfLife None 8 (9 # 5) (9 # 5) (1 # 2) 60.

(** The game of [main] on a 12 by 12 grid, after [setup]. *)
Definition game12 : Main.GameOfLife :=
  (Main.setup (Main.constructor 12 (1 # 2) 60) (fun _ => 1%Q)).1.

Definition dev12 : Device :=
  (Main.setup (Main.constructor 12 (1 # 2) 60) (fun _ => 1%Q)).2.

(** The 8 by 8 grid with a horizontal row of three live cells at [y = 4],
    [x] from 3 to 5, in both buffers, and the same three cells as a column. *)
Definition blinkerRow8 : list Z := cellsWith 64 [35%nat; 36%nat; 37%nat].

Definition blinkerColumn8 : list Z := cellsWith 64 [28%nat; 36%nat; 44%nat].

Definition blinkerDev : Device :=
  MkDevice Main.vertices (gridUniform 8 8) Main.zeroColors [blinkerRow8; blinkerRow8].

(** The 8 by 8 grid with a single live cell at (4, 4), in both buffers. *)
Definition loneCell8 : list Z := cellsWith 64 [36%nat].

Definition loneCellDev : Device :=
  MkDevice Main.vertices (gridUniform 8 8) Main.zeroColors [loneCell8; loneCell8].

(** A bind group that [setup] does not create: buffer A behind both the
    read and the write binding. *)
Definition aliasedGroup : BindGroup :=
  MkBindGroup GridUniforms ColorUniforms (CellState 0) (CellState 0).

(** ** Definitions for the further properties *)

(** A buffer whose cells are all dead. *)
Definition allDead (buf : list Z) : Prop := Forall (fun v => v = 0) buf.

(** Device memory for an [n] by [n] grid whose two cell buffers hold only
    zeros and ones. *)
Definition wellFormed (n : Z) (dev : Device) : Prop :=
  deviceFor n dev /\ Forall binary (cellData dev).

(** [k] calls of [tick] in a row. *)
Definition ticks (k : nat) (g : Main.GameOfLife) : Main.GameOfLife :=
  Nat.iter k Main.tick g.

(** A game with its [time] field replaced. *)
Definition withTime (g : Main.GameOfLife) (t : Q) : Main.GameOfLife :=
  Main.MkGameOfLife (Main.gpu g) (Main.grid_size g) t (Main.step g)
    (Main.disco_speed g) (Main.sim_speed g).

(** The side of the square of cells that [dispatchWorkgroups(n / 8, n / 8, 1)]
    reaches: the multiple of 8 at or below [n]. *)
Definition dispatchedSide (n : Z) : Z := n / 8 * 8.

(** The cell that instance [i] of the draw call is placed at. *)
Definition cellOfInstance (w i : Z) : Z * Z := (i mod w, i / w).

(** The game of [main] on a 24 by 24 grid, after [setup], with the cells of
    [westOfOrigin24] in both buffers. *)
Definition game24 : Main.GameOfLife :=
  (Main.setup (Main.constructor 24 (1 # 2) 60) (fun _ => 0%Q)).1.

Definition westDev24 : Device :=
  MkDevice Main.vertices (gridUniform 24 24) Main.zeroColors
    [westOfOrigin24; westOfOrigin24].

(** A game with a negative simulation speed, after [setup] on an 8 by 8
    grid. *)
Definition rewind8 : Main.GameOfLife :=
  (Main.setup (Main.constructor 8 (1 # 2) (-60)) (fun _ => 1%Q)).1.

(** A number that the rounding [fl] leaves as it is: the value of a field
    that holds the result of an earlier rounding. *)
Definition representable (fl : Q -> Q) (x : Q) : Prop := (fl x == x)%Q.

(** A rounding to try the clock on: to the nearest multiple of [2^-16],
    halves upwards. It moves [1 / 60] to [1092 / 65536]. *)
Definition fixed16 (x : Q) : Q := Qmake (Qfloor (x * 65536 + (1 # 2))%Q) 65536.

(** * Theorems *)

(** ** Unsigned arithmetic and indexing *)

Lemma Qtrunc_inject_Z (z : Z) : Qtrunc (inject_Z z) = z.
Proof.
  unfold Qtrunc. destruct (Qle_bool 0 (inject_Z z)).
  - apply Qfloor_Z.
  - apply Qceiling_Z.
Qed.

Lemma u32_of_f32_inject_Z (z : Z) :
  0 <= z < U32.modulus -> u32_of_f32 (inject_Z z) = z.
Proof. intros Hz. unfold u32_of_f32. rewrite Qtrunc_inject_Z. lia. Qed.

Lemma wrap_small (z : Z) : 0 <= z < U32.modulus -> U32.wrap z = z.
Proof. intros Hz. unfold U32.wrap. now apply Z.mod_small. Qed.

Section Indexing.

Variables w h : Z.
Hypothesis Hw : 0 < w.
Hypothesis Hh : 0 < h.
Hypothesis Hfit : w * h < U32.modulus.

Let grid := gridUniform w h.

Lemma extent_bounds : 0 < w < U32.modulus /\ 0 < h < U32.modulus.
Proof using Hw Hh Hfit. nia. Qed.

Lemma cellIndex_rowMajor (cx cy : Z) :
  Simulate.cellIndex grid cx cy = (cy mod h) * w + cx mod w.
Proof using Hw Hh Hfit.
  destruct extent_bounds as [Hw' Hh'].
  unfold Simulate.cellIndex, grid, gridUniform; cbn [vx vy].
  rewrite !u32_of_f32_inject_Z by lia.
  unfold U32.add, U32.mul, U32.rem.
  pose proof (Z.mod_pos_bound cy h Hh) as Hy.
  pose proof (Z.mod_pos_bound cx w Hw) as Hx.
  rewrite (wrap_small (cy mod h * w)) by nia.
  apply wrap_small. nia.
Qed.

Lemma cellIndex_in_bounds (cx cy : Z) :
  0 <= Simulate.cellIndex grid cx cy < w * h.
Proof using Hw Hh Hfit.
  rewrite cellIndex_rowMajor.
  pose proof (Z.mod_pos_bound cy h Hh). pose proof (Z.mod_pos_bound cx w Hw).
  nia.
Qed.

Lemma cellIndex_own (x y : Z) :
  0 <= x < w -> 0 <= y < h -> Simulate.cellIndex grid x y = y * w + x.
Proof using Hw Hh Hfit.
  intros Hx Hy. rewrite cellIndex_rowMajor.
  now rewrite (Z.mod_small y h), (Z.mod_small x w).
Qed.

Section Reads.

Variable cin : list Z.
Hypothesis Hlen : length cin = Z.to_nat (w * h).

Lemma cellState_defined (x y : Z) :
  exists v, Simulate.cellState grid cin x y = Some v /\
            cin !! rowMajor w (U32.rem x w, U32.rem y h) = Some v.
Proof using Hw Hh Hfit Hlen.
  unfold Simulate.cellState, rowMajor, U32.rem; cbn [fst snd].
  rewrite <- cellIndex_rowMajor.
  destruct (lookup_lt_is_Some_2 cin (Z.to_nat (Simulate.cellIndex grid x y)))
    as [v Hv].
  - pose proof (cellIndex_in_bounds x y). lia.
  - exists v. now split.
Qed.

Lemma cellState_binary (x y v : Z) :
  binary cin -> Simulate.cellState grid cin x y = Some v -> v = 0 \/ v = 1.
Proof.
  intros Hb Hv. unfold Simulate.cellState in Hv.
  eapply (proj1 (Forall_lookup _ _) Hb); eauto.
Qed.

End Reads.

End Indexing.

(** ** The update rule (simulate.wgsl) *)

Section Rule.

Variables w h : Z.
Hypothesis Hw : 0 < w.
Hypothesis Hh : 0 < h.
Hypothesis Hfit : w * h < U32.modulus.
Variable cin : list Z.
Hypothesis Hlen : length cin = Z.to_nat (w * h).

Let grid := gridUniform w h.

(** The eight reads succeed, whatever the invocation id. *)
Lemma aliveNeighbors_defined (x y : Z) :
  exists n, Simulate.aliveNeighbors grid cin x y = Some n.
Proof using Hw Hh Hfit Hlen.
  unfold Simulate.aliveNeighbors.
  repeat match goal with
  | |- context [Simulate.cellState grid cin ?a ?b] =>
      let v := fresh "v" in let E := fresh "E" in
      destruct (cellState_defined w h Hw Hh Hfit cin Hlen a b) as [v [E _]];
      fold grid in E; rewrite E; cbn [mbind option_bind]
  end.
  eauto.
Qed.

(** On a buffer of zeros and ones the sum is the number of live cells
    among the eight cells read, and it does not wrap. *)
Lemma aliveNeighbors_counts (x y : Z) :
  binary cin ->
  Simulate.aliveNeighbors grid cin x y
    = Some (liveAmong w cin (codeNeighbors w h x y)) /\
  0 <= liveAmong w cin (codeNeighbors w h x y) <= 8.
Proof using Hw Hh Hfit Hlen.
  intros Hb. unfold Simulate.aliveNeighbors, codeNeighbors, liveAmong.
  cbn [map fold_right fst snd].
  repeat match goal with
  | |- context [Simulate.cellState grid cin ?a ?b] =>
      let v := fresh "v" in let E := fresh "E" in let L := fresh "L" in
      let B := fresh "B" in
      destruct (cellState_defined w h Hw Hh Hfit cin Hlen a b) as [v [E L]];
      fold grid in E;
      pose proof (cellState_binary w h cin a b v Hb E) as B;
      rewrite E; cbn [fst snd] in L; rewrite L; clear E L;
      cbn [mbind option_bind default]
  end.
  unfold U32.add.
  repeat match goal with
  | |- context [U32.wrap ?e] =>
      rewrite (wrap_small e) by (unfold U32.modulus; lia)
  end.
  unfold id. split; [f_equal; lia | lia].
Qed.

Lemma lifeRule_cases (cur n : Z) :
  cur = 0 \/ cur = 1 ->
  (if n =? 2 then cur else if n =? 3 then 1 else 0)
    = Z.b2z (lifeRule (cur =? 1) n).
Proof.
  intros [-> | ->]; unfold lifeRule; cbn [Z.eqb Pos.eqb];
    destruct (n =? 2) eqn:E2; destruct (n =? 3) eqn:E3; try reflexivity; lia.
Qed.

(** The invocation at a cell of the grid stores, at the cell's own index,
    what the transition table gives for the cell's state and the number
    of live cells among the eight cells read. *)
Lemma simulate_applies_rule (x y z : Z) :
  binary cin -> 0 <= x < w -> 0 <= y < h ->
  exists cur n,
    cin !! rowMajor w (x, y) = Some cur /\
    Simulate.aliveNeighbors grid cin x y = Some n /\
    n = liveAmong w cin (codeNeighbors w h x y) /\
    0 <= n <= 8 /\
    Simulate.simulate grid cin (x, y, z)
      = Some (rowMajor w (x, y), Z.b2z (lifeRule (cur =? 1) n)) /\
    (forall s c : Z, s = 0 \/ s = 1 ->
       (if c =? 2 then s else if c =? 3 then 1 else 0)
         = Z.b2z (lifeRule (s =? 1) c)).
Proof using Hw Hh Hfit Hlen.
  intros Hb Hx Hy.
  destruct (aliveNeighbors_counts x y Hb) as [Hn Hrange].
  destruct (cellState_defined w h Hw Hh Hfit cin Hlen x y) as [cur [Hc Hl]].
  unfold U32.rem in Hl. rewrite (Z.mod_small x w), (Z.mod_small y h) in Hl by lia.
  pose proof (cellState_binary w h cin x y cur Hb Hc) as Hcur.
  exists cur, (liveAmong w cin (codeNeighbors w h x y)).
  repeat split; try assumption; try lia.
  - unfold Simulate.simulate. fold grid. rewrite Hn. cbn [mbind option_bind].
    assert (Ht : Z.to_nat (Simulate.cellIndex grid x y) = rowMajor w (x, y)).
    { unfold grid. rewrite cellIndex_own by assumption. reflexivity. }
    rewrite Ht, Hl.
    rewrite <- (lifeRule_cases cur _ Hcur).
    destruct (_ =? 2); [reflexivity|]. destruct (_ =? 3); reflexivity.
  - intros s c Hs. now apply lifeRule_cases.
Qed.

End Rule.

(** ** Wraparound of the neighbour reads *)

Section Wraparound.

Variables w h : Z.
Hypothesis Hw : 0 < w.
Hypothesis Hh : 0 < h.
Hypothesis Hfit : w * h < U32.modulus.

(** Adding one never overflows inside the grid, so the eastern and the
    southern neighbour wrap on every grid. *)
Lemma succ_wraps (n c : Z) :
  0 < n < U32.modulus -> 0 <= c < n ->
  U32.rem (U32.add c 1) n = (c + 1) mod n.
Proof.
  intros Hn Hc. unfold U32.rem, U32.add. now rewrite wrap_small by lia.
Qed.

(** Subtracting one is exact away from the edge. *)
Lemma pred_interior (n c : Z) :
  0 < n < U32.modulus -> 0 < c < n ->
  U32.rem (U32.sub c 1) n = (c - 1) mod n.
Proof.
  intros Hn Hc. unfold U32.rem, U32.sub. now rewrite wrap_small by lia.
Qed.

(** At the edge the subtraction underflows to [2^32 - 1]; reducing that
    modulo the extent gives [n - 1] when the extent divides [2^32]. *)
Lemma pred_wraps_divisor (n c : Z) :
  (n | U32.modulus) -> U32.rem (U32.sub c 1) n = (c - 1) mod n.
Proof.
  intros Hd. unfold U32.rem, U32.sub, U32.wrap. now apply Z.mod_mod_divide.
Qed.

Lemma pred_edge (n : Z) :
  U32.rem (U32.sub 0 1) n = (U32.modulus - 1) mod n.
Proof. reflexivity. Qed.

(** On a grid whose extents divide [2^32] all eight reads are the Moore
    neighbours on the torus. *)
Lemma codeNeighbors_torus_divisor (x y : Z) :
  (w | U32.modulus) -> (h | U32.modulus) ->
  0 <= x < w -> 0 <= y < h ->
  codeNeighbors w h x y = torusNeighbors w h x y.
Proof using Hw Hh Hfit.
  intros Dw Dh Hx Hy.
  destruct (extent_bounds w h Hw Hh Hfit) as [Bw Bh].
  unfold codeNeighbors, torusNeighbors, mooreOffsets. cbn [map fst snd].
  rewrite !(pred_wraps_divisor w) by assumption.
  rewrite !(pred_wraps_divisor h) by assumption.
  rewrite !(succ_wraps w) by assumption.
  rewrite !(succ_wraps h) by assumption.
  unfold U32.rem.
  rewrite (Z.add_0_r x), (Z.add_0_r y).
  reflexivity.
Qed.

(** So are they, on any grid, for a cell that is not in column 0 or row 0. *)
Lemma codeNeighbors_torus_interior (x y : Z) :
  0 < x < w -> 0 < y < h ->
  codeNeighbors w h x y = torusNeighbors w h x y.
Proof using Hw Hh Hfit.
  intros Hx Hy.
  destruct (extent_bounds w h Hw Hh Hfit) as [Bw Bh].
  unfold codeNeighbors, torusNeighbors, mooreOffsets. cbn [map fst snd].
  rewrite !(pred_interior w) by lia.
  rewrite !(pred_interior h) by lia.
  rewrite !(succ_wraps w) by lia.
  rewrite !(succ_wraps h) by lia.
  unfold U32.rem.
  rewrite (Z.add_0_r x), (Z.add_0_r y).
  reflexivity.
Qed.

End Wraparound.

(** C2. On a 24 by 24 grid the reads of cell (0, 0) do not wrap to column
    and row 23: [0 - 1] underflows to [2^32 - 1], which is 15 modulo 24.
    With the three western torus neighbours of (0, 0) alive and every other
    cell dead, the code counts no live neighbour and stores "dead", where
    the torus has three live neighbours and the rule gives "alive". *)
Theorem west_reads_miss_on_24 :
  codeNeighbors 24 24 0 0
    = [ (1, 0); (15, 0); (0, 1); (0, 15); (1, 1); (15, 15); (1, 15); (15, 1) ] /\
  torusNeighbors 24 24 0 0
    = [ (1, 0); (23, 0); (0, 1); (0, 23); (1, 1); (23, 23); (1, 23); (23, 1) ] /\
  Simulate.cellIndex (gridUniform 24 24) (U32.sub 0 1) 0 = 15 /\
  liveAmong 24 westOfOrigin24 (torusNeighbors 24 24 0 0) = 3 /\
  Simulate.aliveNeighbors (gridUniform 24 24) westOfOrigin24 0 0 = Some 0 /\
  Simulate.simulate (gridUniform 24 24) westOfOrigin24 (0, 0, 0) = Some (0%nat, 0) /\
  Z.b2z (lifeRule false 3) = 1.
Proof. repeat split; vm_compute; reflexivity. Qed.

(** The rule and the cells it counts, side by side: the invocation of a
    cell stores what the transition table gives for the number of live
    cells among the eight cells read, and those are the Moore neighbours
    on the torus for a cell off column 0 and row 0, and for every cell
    when the extents divide [2^32]. *)
Lemma rule_on_cells_read (w h : Z) (cin : list Z) (x y z : Z) :
  0 < w -> 0 < h -> w * h < U32.modulus ->
  length cin = Z.to_nat (w * h) -> binary cin ->
  0 <= x < w -> 0 <= y < h ->
  (exists cur n,
     cin !! rowMajor w (x, y) = Some cur /\
     Simulate.aliveNeighbors (gridUniform w h) cin x y = Some n /\
     n = liveAmong w cin (codeNeighbors w h x y) /\
     0 <= n <= 8 /\
     Simulate.simulate (gridUniform w h) cin (x, y, z)
       = Some (rowMajor w (x, y), Z.b2z (lifeRule (cur =? 1) n)) /\
     (forall s c : Z, s = 0 \/ s = 1 ->
        (if c =? 2 then s else if c =? 3 then 1 else 0)
          = Z.b2z (lifeRule (s =? 1) c))) /\
  (0 < x /\ 0 < y \/ (w | U32.modulus) /\ (h | U32.modulus) ->
   codeNeighbors w h x y = torusNeighbors w h x y).
Proof.
  intros Hw Hh Hfit Hlen Hb Hx Hy. split.
  - now apply simulate_applies_rule.
  - intros [[Hx0 Hy0] | [Dw Dh]].
    + apply codeNeighbors_torus_interior; lia.
    + now apply codeNeighbors_torus_divisor.
Qed.

Lemma rule_on_cells_read_row4 :
  (exists cur n,
     row4 !! rowMajor 4 (1, 0) = Some cur /\
     Simulate.aliveNeighbors (gridUniform 4 4) row4 1 0 = Some n /\
     n = liveAmong 4 row4 (codeNeighbors 4 4 1 0) /\
     0 <= n <= 8 /\
     Simulate.simulate (gridUniform 4 4) row4 (1, 0, 0)
       = Some (rowMajor 4 (1, 0), Z.b2z (lifeRule (cur =? 1) n)) /\
     (forall s c : Z, s = 0 \/ s = 1 ->
        (if c =? 2 then s else if c =? 3 then 1 else 0)
          = Z.b2z (lifeRule (s =? 1) c))) /\
  (0 < 1 /\ 0 < 0 \/ (4 | U32.modulus) /\ (4 | U32.modulus) ->
   codeNeighbors 4 4 1 0 = torusNeighbors 4 4 1 0).
Proof.
  apply (rule_on_cells_read 4 4); try reflexivity; try lia.
  unfold binary. vm_compute. repeat (constructor; [lia |]). constructor.
Defined.

(** ** Instances of the render pass (cell.wgsl) *)

Lemma Qtrunc_nonneg (q : Q) : (0 <= q)%Q -> Qtrunc q = Qfloor q.
Proof.
  intros Hq. unfold Qtrunc.
  destruct (Qle_bool 0 q) eqn:E; [reflexivity |].
  apply Qle_bool_iff in Hq. congruence.
Qed.

Lemma Qdiv_inject_nonneg (i w : Z) :
  0 <= i -> 0 < w -> (0 <= inject_Z i / inject_Z w)%Q.
Proof.
  intros Hi Hw. apply Qle_shift_div_l.
  - change 0%Q with (inject_Z 0). rewrite <- Zlt_Qlt. exact Hw.
  - rewrite Qmult_0_l. change 0%Q with (inject_Z 0). rewrite <- Zle_Qle. exact Hi.
Qed.

Lemma inject_Z_sub (x y : Z) : inject_Z (x - y) = (inject_Z x - inject_Z y)%Q.
Proof. unfold Z.sub, Qminus. now rewrite inject_Z_plus, inject_Z_opp. Qed.

(** [i % w] on floats that hold integers is the integer remainder. *)
Lemma Qrem_inject_Z (i w : Z) :
  0 <= i -> 0 < w ->
  (Qrem (inject_Z i) (inject_Z w) == inject_Z (i mod w))%Q.
Proof.
  intros Hi Hw. unfold Qrem.
  rewrite Qtrunc_nonneg by now apply Qdiv_inject_nonneg.
  rewrite <- Zdiv_Qdiv.
  rewrite (Z.mod_eq i w) by lia.
  rewrite inject_Z_sub, inject_Z_mult. reflexivity.
Qed.

(** Instance [i] of a draw reads [states[i]] and is placed at the grid
    coordinate [(i mod width, floor (i / width))]. *)
Lemma f32_of_u32_exact (i : Z) : i < 2 ^ 24 -> f32_of_u32 i = inject_Z i.
Proof.
  intros Hi. unfold f32_of_u32.
  destruct (i <? 2 ^ 24) eqn:E; [reflexivity | lia].
Qed.

Lemma instance_cell (w h : Z) (states : list Z) (pos : vec2f) (i st : Z) :
  0 < w -> 0 <= i -> i < 2 ^ 24 -> states !! Z.to_nat i = Some st ->
  exists out,
    Cell.vertexMain (gridUniform w h) states pos i = Some out /\
    (vx (Cell.cell out) == inject_Z (i mod w))%Q /\
    vy (Cell.cell out) = inject_Z (i / w).
Proof.
  intros Hw Hi Hi24 Hst. unfold Cell.vertexMain. rewrite Hst.
  rewrite (f32_of_u32_exact i Hi24).
  cbn [mbind option_bind]. eexists. split; [reflexivity |].
  cbn [Cell.cell vx vy gridUniform]. split.
  - now apply Qrem_inject_Z.
  - now rewrite <- Zdiv_Qdiv.
Qed.

(** Every instance below [width * height] lies inside the grid. *)
Lemma instance_in_grid (w h i : Z) :
  0 < w -> 0 <= i < w * h ->
  0 <= i mod w < w /\ 0 <= i / w < h /\ (i / w) * w + i mod w = i.
Proof.
  intros Hw Hi.
  pose proof (Z.mod_pos_bound i w Hw).
  pose proof (Z.div_mod i w ltac:(lia)).
  assert (0 <= i / w) by (apply Z.div_pos; lia).
  assert (i / w < h) by (apply Z.div_lt_upper_bound; nia).
  lia.
Qed.

Lemma draw_length (grid : vec2f) (states : list Z) (vs : list vec2f) (vc ic : Z) :
  length (Cell.draw grid states vs vc ic) = Z.to_nat ic.
Proof. unfold Cell.draw. now rewrite length_map, length_seq. Qed.

(** C3. The render pass does not draw [width * height] instances: the
    instance count passed to [draw] is [grid_size * grid_size * 2].  On the
    8 by 8 grid, 128 instances of the six-vertex quad are drawn for 64
    cells, and instance 64 reads the cell-state buffer at index 64, past
    its end, for each of its six vertices. *)
Theorem draw_instance_count_is_doubled :
  (forall g, Main.drawInstanceCount g = 2 * (Main.grid_size g * Main.grid_size g)) /\
  Main.drawInstanceCount game8 = 128 /\
  Main.grid_size game8 * Main.grid_size game8 = 64 /\
  (fun r => length (Main.frameDraw r.2)) <$> Main.render game8 dev8 = Some 128%nat /\
  (fun r => Main.frameDraw r.2 !! 64%nat) <$> Main.render game8 dev8
    = Some (Some [None; None; None; None; None; None]) /\
  (fun b => length b) <$> readStorage dev8 (CellState 0) = Some 64%nat.
Proof.
  split; [intros g; unfold Main.drawInstanceCount; lia |].
  repeat split; vm_compute; reflexivity.
Qed.

(** C9. The fragment colour of a cell at grid coordinate [(x, y)] is the
    bilinear interpolation of the four corner colours with the factors
    [x / width] and [y / height]: the blend of colours 0 and 1 and the blend
    of colours 2 and 3 along x, then the blend of the two along y. *)
Theorem fragment_is_bilinear (w h : Z) (c0 c1 c2 c3 : vec4f) (x y : Q) :
  Cell.veq
    (Cell.fragmentMain (gridUniform w h) (Cell.MkColors c0 c1 c2 c3) (Vec2f x y))
    (bilinear c0 c1 c2 c3 (x / inject_Z w) (y / inject_Z h)).
Proof.
  unfold Cell.veq, Cell.fragmentMain, bilinear, vlerp, lerp, Cell.vadd, Cell.vscale.
  cbn [c_r c_g c_b c_a vx vy gridUniform Cell.color0 Cell.color1 Cell.color2 Cell.color3].
  repeat split; ring.
Qed.

(** The colour of the fragments of instance [y * width + x] is the one of
    cell [(x, y)]: every vertex of the instance carries the same [cell]. *)
Lemma instance_fragment_color (w h : Z) (states : list Z) (colors : Cell.Colors)
    (pos : vec2f) (x y st : Z) :
  0 < w -> 0 <= x < w -> 0 <= y -> y * w + x < 2 ^ 24 ->
  states !! Z.to_nat (y * w + x) = Some st ->
  exists out,
    Cell.vertexMain (gridUniform w h) states pos (y * w + x) = Some out /\
    (vx (Cell.cell out) == inject_Z x)%Q /\ vy (Cell.cell out) = inject_Z y.
Proof.
  intros Hw Hx Hy H24 Hst.
  destruct (instance_cell w h states pos (y * w + x) st Hw ltac:(nia) H24 Hst)
    as [out [Ho [Hcx Hcy]]].
  exists out. split; [exact Ho |].
  assert (Hm : (y * w + x) mod w = x).
  { rewrite Z.add_comm, Z.mod_add by lia. now apply Z.mod_small. }
  assert (Hd : (y * w + x) / w = y).
  { rewrite Z.add_comm, Z.div_add by lia. rewrite Z.div_small by lia. lia. }
  now rewrite Hm in Hcx; rewrite Hd in Hcy.
Qed.

(** ** The clock and the choice of the bind group (main.ts) *)

Lemma Qfloor_unique (x : Q) (z : Z) :
  (inject_Z z <= x)%Q -> (x < inject_Z (z + 1))%Q -> Qfloor x = z.
Proof.
  intros Hlo Hhi.
  pose proof (Qfloor_resp_le _ _ Hlo) as H1. rewrite Qfloor_Z in H1.
  pose proof (Qfloor_le x) as H2.
  assert (H3 : (inject_Z (Qfloor x) < inject_Z (z + 1))%Q)
    by (eapply Qle_lt_trans; eassumption).
  rewrite <- Zlt_Qlt in H3. lia.
Qed.

(** [floor (s % 2)] is the parity of [floor s] for a nonnegative [s]. *)
Lemma floor_rem2_parity (s : Q) :
  (0 <= s)%Q -> Qfloor (Qrem s 2) = Qfloor s mod 2.
Proof.
  intros Hs. unfold Qrem.
  assert (Hhalf : (0 <= s / 2)%Q) by (apply Qle_shift_div_l; lra).
  rewrite Qtrunc_nonneg by exact Hhalf.
  set (a := Qfloor s).
  pose proof (Qfloor_le s) as Ha1. pose proof (Qlt_floor s) as Ha2.
  fold a in Ha1, Ha2.
  pose proof (Z.div_mod a 2 ltac:(lia)) as Hdm.
  pose proof (Z.mod_pos_bound a 2 ltac:(lia)) as Hmb.
  assert (Hk : Qfloor (s / 2) = a / 2).
  { apply Qfloor_unique.
    - apply Qle_shift_div_l; [lra |].
      eapply Qle_trans; [| exact Ha1].
      change 2%Q with (inject_Z 2). rewrite <- inject_Z_mult, <- Zle_Qle. lia.
    - apply Qlt_shift_div_r; [lra |].
      eapply Qlt_le_trans; [exact Ha2 |].
      change 2%Q with (inject_Z 2). rewrite <- inject_Z_mult, <- Zle_Qle. lia. }
  rewrite Hk.
  apply Qfloor_unique.
  - assert (E : (inject_Z (a mod 2) == inject_Z a - 2 * inject_Z (a / 2))%Q).
    { change 2%Q with (inject_Z 2).
      rewrite <- inject_Z_mult, <- inject_Z_sub.
      apply inject_Z_injective. lia. }
    rewrite E. lra.
  - assert (E : (inject_Z (a mod 2 + 1) == inject_Z (a + 1) - 2 * inject_Z (a / 2))%Q).
    { change 2%Q with (inject_Z 2).
      rewrite <- inject_Z_mult, <- inject_Z_sub.
      apply inject_Z_injective. lia. }
    rewrite E. lra.
Qed.


(** [render] does not assign any field of the game. *)
Lemma render_keeps_game (g : Main.GameOfLife) (dev : Device)
    (r : Main.GameOfLife * Device * Main.Frame) :
  Main.render g dev = Some r -> r.1.1 = g.
Proof.
  unfold Main.render. intros H.
  repeat match type of H with
  | (mbind _ ?m) = Some _ =>
      let E := fresh "E" in
      destruct m eqn:E; cbn [mbind option_bind] in H; [| discriminate H]
  end.
  injection H as <-. reflexivity.
Qed.

(** C10 as stated fails for a negative simulation speed: one [tick] of a
    game with [sim_speed = -60] takes [step] from 0 down to -1. *)
Lemma step_decreases_when_speed_negative :
  Main.run [Main.CallTick] rewindGame dev8 = Some (Main.tick rewindGame, dev8) /\
  (Main.step (Main.tick rewindGame) == -1)%Q /\
  (Main.step (Main.tick rewindGame) < Main.step rewindGame)%Q.
Proof. repeat split. Qed.

(** ** The colour gradient (main.ts) *)

(** For [t >= -1] the two adjustments leave a nonnegative [t], and every
    branch returns a value between [p] and [q]. *)
Lemma hueToRgb_between (p q t : Q) :
  (p <= q)%Q -> (-1 <= t)%Q ->
  (p <= Main.hueToRgb p q t /\ Main.hueToRgb p q t <= q)%Q.
Proof.
  intros Hpq Ht. unfold Main.hueToRgb.
  destruct (Qlt_le_dec t 0) as [Hneg | Hnn];
    (destruct (Qlt_le_dec 1 _) as [Hbig | Hsmall]);
    (destruct (Qlt_le_dec _ (1 # 6)) as [H6 | H6];
     [| destruct (Qlt_le_dec _ (1 # 2)) as [H2 | H2];
        [| destruct (Qlt_le_dec _ (2 # 3)) as [H3 | H3]]]);
    split; try lra; nra.
Qed.

Lemma hslToRgb_half (h : Q) :
  Main.hslToRgb h (1 # 2) (1 # 2)
  = (Main.hueToRgb (2 * (1 # 2) - ((1 # 2) + (1 # 2) - (1 # 2) * (1 # 2)))
                   ((1 # 2) + (1 # 2) - (1 # 2) * (1 # 2)) (h + (1 # 3)),
     Main.hueToRgb (2 * (1 # 2) - ((1 # 2) + (1 # 2) - (1 # 2) * (1 # 2)))
                   ((1 # 2) + (1 # 2) - (1 # 2) * (1 # 2)) h,
     Main.hueToRgb (2 * (1 # 2) - ((1 # 2) + (1 # 2) - (1 # 2) * (1 # 2)))
                   ((1 # 2) + (1 # 2) - (1 # 2) * (1 # 2)) (h - (1 # 3)))%Q.
Proof. reflexivity. Qed.

Lemma hslToRgb_half_unit (h : Q) :
  (0 <= h)%Q ->
  unitChannel (Main.hslToRgb h (1 # 2) (1 # 2)).1.1 /\
  unitChannel (Main.hslToRgb h (1 # 2) (1 # 2)).1.2 /\
  unitChannel (Main.hslToRgb h (1 # 2) (1 # 2)).2.
Proof.
  intros Hh. rewrite hslToRgb_half. cbn [fst snd]. unfold unitChannel.
  set (q := ((1 # 2) + (1 # 2) - (1 # 2) * (1 # 2))%Q).
  set (p := (2 * (1 # 2) - q)%Q).
  assert (Hp : (0 <= p)%Q) by (subst p q; lra).
  assert (Hq : (q <= 1)%Q) by (subst q; lra).
  assert (Hpq : (p <= q)%Q) by (subst p q; lra).
  pose proof (hueToRgb_between p q (h + (1 # 3)) Hpq ltac:(lra)).
  pose proof (hueToRgb_between p q h Hpq ltac:(lra)).
  pose proof (hueToRgb_between p q (h - (1 # 3)) Hpq ltac:(lra)).
  lra.
Qed.

(** The offset cycles in [0, 1) once the clock is not negative. *)
Lemma offset_unit (g : Main.GameOfLife) :
  (0 <= Main.time g)%Q -> (0 < Main.disco_speed g)%Q ->
  (0 <= Main.offsetOf g /\ Main.offsetOf g < 1)%Q.
Proof.
  intros Ht Hd. unfold Main.offsetOf, Qrem.
  set (t := Main.time g) in *. set (d := Main.disco_speed g) in *.
  assert (Hd0 : ~ (d == 0)%Q) by lra.
  assert (Ey : (t / (1 / d) == t * d)%Q) by (field; lra).
  assert (Hy : (0 <= t / (1 / d))%Q).
  { rewrite Ey. now apply Qmult_le_0_compat; [| apply Qlt_le_weak]. }
  rewrite Qtrunc_nonneg by exact Hy.
  set (y := (t / (1 / d))%Q) in *.
  pose proof (Qfloor_le y) as Hlo. pose proof (Qlt_floor y) as Hhi.
  rewrite inject_Z_plus in Hhi.
  assert (E : ((t - 1 / d * inject_Z (Qfloor y)) * d
               == y - inject_Z (Qfloor y))%Q).
  { generalize (inject_Z (Qfloor y)). intros k. rewrite Ey. field. exact Hd0. }
  rewrite E. change (inject_Z 1) with 1%Q in Hhi. lra.
Qed.

(** C6, as the code has it. For every time that is not negative and every
    positive [disco_speed], each RGB channel of the four corner colours
    lies in [0, 1] and the alpha channel is exactly 1. *)
Theorem cornerColors_unit (g : Main.GameOfLife) :
  (0 <= Main.time g)%Q -> (0 < Main.disco_speed g)%Q ->
  unitColor (Cell.color0 (Main.cornerColors g)) /\
  unitColor (Cell.color1 (Main.cornerColors g)) /\
  unitColor (Cell.color2 (Main.cornerColors g)) /\
  unitColor (Cell.color3 (Main.cornerColors g)).
Proof.
  intros Ht Hd. destruct (offset_unit g Ht Hd) as [Hlo Hhi].
  unfold Main.cornerColors, unitColor.
  cbn [Cell.color0 Cell.color1 Cell.color2 Cell.color3 c_r c_g c_b c_a].
  pose proof (hslToRgb_half_unit (Main.offsetOf g + (1 # 5)) ltac:(lra)) as [? [? ?]].
  pose proof (hslToRgb_half_unit (Main.offsetOf g + (2 # 5)) ltac:(lra)) as [? [? ?]].
  pose proof (hslToRgb_half_unit (Main.offsetOf g + (3 # 5)) ltac:(lra)) as [? [? ?]].
  pose proof (hslToRgb_half_unit (Main.offsetOf g + (4 # 5)) ltac:(lra)) as [? [? ?]].
  unfold unitChannel in *. intuition reflexivity.
Qed.

Lemma cornerColors_unit_witness :
  unitColor (Cell.color0 (Main.cornerColors lateGame)) /\
  unitColor (Cell.color1 (Main.cornerColors lateGame)) /\
  unitColor (Cell.color2 (Main.cornerColors lateGame)) /\
  unitColor (Cell.color3 (Main.cornerColors lateGame)).
Proof.
  apply (cornerColors_unit lateGame); vm_compute; [discriminate | reflexivity].
Defined.

(** C6 as stated fails for a negative time: at [time = -1.98] with
    [disco_speed = 0.5] the offset is -0.99 and the blue channel of the
    first corner colour is negative. *)
Lemma cornerColors_negative_time :
  (Main.offsetOf pastGame == -(99 # 100))%Q /\
  (c_b (Cell.color0 (Main.cornerColors pastGame)) == -(3 # 25))%Q /\
  ~ unitColor (Cell.color0 (Main.cornerColors pastGame)).
Proof.
  split; [vm_compute; reflexivity |].
  split; [vm_compute; reflexivity |].
  intros [_ [_ [[H _] _]]]. vm_compute in H. apply H. reflexivity.
Qed.

(** [hueToRgb] adjusts its argument by one period at most: it is periodic
    for [t] in [-1, 2] only. *)
Lemma hueToRgb_shift_down (p q t t' : Q) :
  (t' == t - 1)%Q -> (0 <= t)%Q -> (t <= 2)%Q ->
  (Main.hueToRgb p q t == Main.hueToRgb p q t')%Q.
Proof.
  intros E Hlo Hhi. unfold Main.hueToRgb.
  destruct (Qlt_le_dec t 0); [lra |].
  destruct (Qlt_le_dec t' 0);
  destruct (Qlt_le_dec 1 t); destruct (Qlt_le_dec 1 _); try lra;
    repeat match goal with
    | |- context [Qlt_le_dec ?a ?b] => destruct (Qlt_le_dec a b)
    end;
    first
      [ lra
      | rewrite E; ring
      | assert (E0 : (t' == 0)%Q) by lra; rewrite E0; ring ].
Qed.

(** On the part of the gradient whose hue stays at or below 5/3 the
    conversion is periodic: every channel of [hslToRgb h] is the one of
    [hslToRgb (h mod 1)]. *)
Lemma hslToRgb_periodic_below (h : Q) :
  (1 <= h)%Q -> (h <= 5 # 3)%Q ->
  let c := Main.hslToRgb h (1 # 2) (1 # 2) in
  let c' := Main.hslToRgb (hueMod1 h) (1 # 2) (1 # 2) in
  (c.1.1 == c'.1.1 /\ c.1.2 == c'.1.2 /\ c.2 == c'.2)%Q.
Proof.
  intros Hlo Hhi.
  assert (Ef : Qfloor h = 1).
  { apply Qfloor_unique; [exact Hlo |]. change (inject_Z (1 + 1)) with 2%Q. lra. }
  assert (Em : (hueMod1 h == h - 1)%Q) by (unfold hueMod1; rewrite Ef; reflexivity).
  cbv zeta. rewrite !hslToRgb_half. cbn [fst snd].
  set (q := ((1 # 2) + (1 # 2) - (1 # 2) * (1 # 2))%Q).
  set (p := (2 * (1 # 2) - q)%Q).
  split; [| split].
  - apply hueToRgb_shift_down; lra.
  - apply hueToRgb_shift_down; lra.
  - apply hueToRgb_shift_down; lra.
Qed.

(** C7. The conversion is not periodic on every hue of the gradient. At
    [time = 1.8] with [disco_speed = 0.5] the offset is 0.9 and the fourth
    hue is 1.7; its red channel is computed from [t = 1.7 + 1/3], which one
    subtraction of 1 leaves above 1, so the code returns [p = 0.25], while
    the hue [1.7 mod 1 = 0.7] has the red channel 0.35. *)
Theorem hue_above_five_thirds_not_periodic :
  (Main.offsetOf lateGame == 9 # 10)%Q /\
  (hueMod1 (Main.offsetOf lateGame + (4 # 5)) == 7 # 10)%Q /\
  (c_r (Cell.color3 (Main.cornerColors lateGame)) == 1 # 4)%Q /\
  ((Main.hslToRgb (Main.offsetOf lateGame + (4 # 5)) (1 # 2) (1 # 2)).1.1 == 1 # 4)%Q /\
  ((Main.hslToRgb (hueMod1 (Main.offsetOf lateGame + (4 # 5))) (1 # 2) (1 # 2)).1.1
     == 7 # 20)%Q.
Proof. repeat split; vm_compute; reflexivity. Qed.

(** ** The compute pass *)

Lemma elem_of_invocations (gx gy gz x y z : Z) :
  (x, y, z) ∈ invocations gx gy gz <->
  0 <= x < gx * 8 /\ 0 <= y < gy * 8 /\ 0 <= z < gz * 1.
Proof.
  unfold invocations, workgroup_size.
  rewrite list_elem_of_bind. setoid_rewrite list_elem_of_bind.
  setoid_rewrite list_elem_of_bind. setoid_rewrite list_elem_of_singleton.
  setoid_rewrite elem_of_seqZ.
  split.
  - intros [z' [[y' [[x' [E Hx]] Hy]] Hz]]. injection E as -> -> ->. lia.
  - intros [Hx [Hy Hz]]. exists z. split; [| lia].
    exists y. split; [| lia]. exists x. split; [reflexivity | lia].
Qed.

Lemma NoDup_invocations (gx gy gz : Z) : NoDup (invocations gx gy gz).
Proof.
  unfold invocations, workgroup_size.
  apply NoDup_bind; [| | apply NoDup_seqZ].
  - intros z1 z2 c _ _ H1 H2.
    apply list_elem_of_bind in H1 as [y1 [H1 _]].
    apply list_elem_of_bind in H1 as [x1 [H1 _]].
    apply list_elem_of_bind in H2 as [y2 [H2 _]].
    apply list_elem_of_bind in H2 as [x2 [H2 _]].
    apply list_elem_of_singleton in H1, H2. congruence.
  - intros z _. apply NoDup_bind; [| | apply NoDup_seqZ].
    + intros y1 y2 c _ _ H1 H2.
      apply list_elem_of_bind in H1 as [x1 [H1 _]].
      apply list_elem_of_bind in H2 as [x2 [H2 _]].
      apply list_elem_of_singleton in H1, H2. congruence.
    + intros y _. apply NoDup_bind; [| | apply NoDup_seqZ].
      * intros x1 x2 c _ _ H1 H2.
        apply list_elem_of_singleton in H1, H2. congruence.
      * intros x _. apply NoDup_singleton.
Qed.

Section Pass.

Variables w h : Z.
Hypothesis Hw : 0 < w.
Hypothesis Hh : 0 < h.
Hypothesis Hfit : w * h < U32.modulus.

(** The bind group reads buffer [i] and writes buffer [o]. *)
Variable bg : BindGroup.
Variables i o : nat.
Hypothesis Hin : binding2 bg = CellState i.
Hypothesis Hout : binding3 bg = CellState o.
Hypothesis Hio : i <> o.

Variable cin : list Z.
Hypothesis Hlen : length cin = Z.to_nat (w * h).

(** An invocation always completes, at any invocation id: its reads are
    reduced into the buffer. *)
Lemma simulate_defined (c : Z * Z * Z) :
  exists v, Simulate.simulate (gridUniform w h) cin c
            = Some (Z.to_nat (Simulate.cellIndex (gridUniform w h) c.1.1 c.1.2), v).
Proof using Hw Hh Hfit Hlen.
  destruct c as [[cx cy] cz]. cbn [fst snd]. unfold Simulate.simulate.
  destruct (aliveNeighbors_defined w h Hw Hh Hfit cin Hlen cx cy) as [n Hn].
  rewrite Hn. cbn [mbind option_bind].
  destruct (cellState_defined w h Hw Hh Hfit cin Hlen cx cy) as [v [Hv _]].
  unfold Simulate.cellState in Hv. rewrite Hv. cbn [mbind option_bind].
  destruct (n =? 2); [eauto |]. destruct (n =? 3); eauto.
Qed.

Lemma computePass_runs (sched : list (Z * Z * Z)) :
  forall dev cout,
    uniformData dev = gridUniform w h ->
    cellData dev !! i = Some cin ->
    cellData dev !! o = Some cout ->
    length cout = Z.to_nat (w * h) ->
    exists dev' cout',
      computePass bg sched dev = Some (dev', storeOf w h o <$> sched) /\
      uniformData dev' = uniformData dev /\
      vertexData dev' = vertexData dev /\
      colorData dev' = colorData dev /\
      cellData dev' !! i = Some cin /\
      cellData dev' !! o = Some cout' /\
      length cout' = length cout /\
      length (cellData dev') = length (cellData dev) /\
      (forall k, k <> o -> cellData dev' !! k = cellData dev !! k) /\
      writtenBy w h cin sched cout cout'.
Proof using Hw Hh Hfit Hlen Hin Hout Hio.
  induction sched as [| c rest IH]; intros dev cout Hu Hi Ho Hlo.
  - exists dev, cout. cbn. repeat split; try assumption.
    intros k v _ [[c [Hc _]] | Hk]; [inversion Hc | exact Hk].
  - destruct (simulate_defined c) as [v Hv].
    assert (Hlt : (o < length (cellData dev))%nat) by (eapply lookup_lt_Some; eauto).
    set (idx := Z.to_nat (Simulate.cellIndex (gridUniform w h) c.1.1 c.1.2)) in *.
    set (dev1 := MkDevice (vertexData dev) (uniformData dev) (colorData dev)
                   (<[o := <[idx := v]> cout]> (cellData dev))).
    assert (Hinv : invoke bg dev c = Some (dev1, storeOf w h o c)).
    { unfold invoke. rewrite Hin, Hout. cbn [readStorage writeStorage].
      rewrite Hi. cbn [mbind option_bind]. rewrite Hu, Hv.
      cbn [mbind option_bind fst snd]. rewrite Ho. cbn [mbind option_bind].
      rewrite <- Hu. reflexivity. }
    assert (Hidx : (idx < length cout)%nat).
    { pose proof (cellIndex_in_bounds w h Hw Hh Hfit c.1.1 c.1.2). subst idx. lia. }
    destruct (IH dev1 (<[idx := v]> cout)) as
      [dev' [cout' [Hrun [Hu' [Hv' [Hc' [Hi' [Ho' [Hl' [Hn' [Hk' Hw']]]]]]]]]]].
    + exact Hu.
    + cbn [cellData dev1]. rewrite list_lookup_insert_ne by lia. exact Hi.
    + cbn [cellData dev1]. now rewrite list_lookup_insert_eq.
    + now rewrite length_insert.
    + exists dev', cout'. cbn [computePass]. rewrite Hinv.
      cbn [mbind option_bind fst snd]. rewrite Hrun.
      cbn [mbind option_bind fst snd fmap list_fmap].
      rewrite length_insert in Hl'.
      cbn [cellData dev1] in Hn', Hk'. rewrite length_insert in Hn'.
      repeat split; try assumption.
      * intros k Hk. rewrite Hk' by exact Hk.
        now rewrite list_lookup_insert_ne by lia.
      * intros k val Hall Hsome. apply Hw'.
        { intros c' Hin'. apply Hall. now right. }
        destruct (decide (idx = k)) as [E | NE].
        { right. rewrite <- E. rewrite list_lookup_insert_eq by exact Hidx.
          specialize (Hall c (list_elem_of_here _ _) E).
          rewrite Hv in Hall. congruence. }
        destruct Hsome as [[c' [Hin' Hk0]] | Hk0].
        { apply elem_of_cons in Hin' as [-> | Hin'].
          - exfalso. apply NE. exact Hk0.
          - left. eauto. }
        right. now rewrite list_lookup_insert_ne.
Qed.

End Pass.

(** ** One call of render *)

Lemma enforceRange_eighth (n : Z) :
  0 <= n < U32.modulus -> enforceRange (inject_Z n / 8) = Some (n / 8).
Proof.
  intros Hn. unfold enforceRange.
  rewrite Qtrunc_nonneg by (apply (Qdiv_inject_nonneg n 8); lia).
  change 8%Q with (inject_Z 8). rewrite <- Zdiv_Qdiv.
  assert (0 <= n / 8 < U32.modulus).
  { split; [apply Z.div_pos; lia |].
    apply Z.div_lt_upper_bound; unfold U32.modulus in *; lia. }
  destruct (0 <=? n / 8) eqn:E1; destruct (n / 8 <? U32.modulus) eqn:E2;
    try reflexivity; lia.
Qed.

Lemma eighth_le (n : Z) : 0 < n -> 0 <= n / 8 * 8 <= n.
Proof. intros Hn. pose proof (Z.div_mod n 8 ltac:(lia)).
  pose proof (Z.mod_pos_bound n 8 ltac:(lia)). lia. Qed.

Lemma eighth_exact (n : Z) : (8 | n) -> n / 8 * 8 = n.
Proof. intros [k ->]. now rewrite Z.div_mul by lia. Qed.

Lemma ceilDiv8_exact (n : Z) : (8 | n) -> ceilDiv8 n = n / 8.
Proof.
  intros [k ->]. unfold ceilDiv8.
  rewrite Z.div_mul by lia.
  rewrite Z.add_comm, Z.div_add by lia. reflexivity.
Qed.

(** A call of [render] on a game that [setup] prepared completes, for every
    grid side, and this is what it hands to the GPU. *)
Lemma render_runs (g : Main.GameOfLife) (dev : Device) (n : Z) :
  ready g -> Main.grid_size g = n -> 0 < n -> n * n < U32.modulus ->
  deviceFor n dev -> (0 <= Main.step g)%Q ->
  exists (p : nat) (cin cout cout' : list Z) (dev' : Device) drawn,
    (p = 0 \/ p = 1)%nat /\
    Z.of_nat p = Qfloor (Main.step g) mod 2 /\
    cellData dev !! p = Some cin /\
    cellData dev !! (1 - p)%nat = Some cout /\
    Main.render g dev
      = Some (g, dev',
              Main.MkFrame
                (MkBindGroup GridUniforms ColorUniforms
                   (CellState p) (CellState (1 - p)))
                drawn (n / 8, n / 8, 1)
                (storeOf n n (1 - p) <$> invocations (n / 8) (n / 8) 1)) /\
    uniformData dev' = gridUniform n n /\
    cellData dev' !! p = Some cin /\
    cellData dev' !! (1 - p)%nat = Some cout' /\
    length cout' = Z.to_nat (n * n) /\
    length (cellData dev') = 2%nat /\
    writtenBy n n cin (invocations (n / 8) (n / 8) 1) cout cout'.
Proof.
  intros [res [Hres Hbg]] Hn Hpos Hfit [Hu [a [b [Hcd [Ha Hb]]]]] Hstep.
  pose proof (floor_rem2_parity _ Hstep) as Hpar.
  pose proof (Z.mod_pos_bound (Qfloor (Main.step g)) 2 ltac:(lia)) as Hmb.
  assert (Hn32 : 0 <= n < U32.modulus) by nia.
  set (p := Z.to_nat (Qfloor (Main.step g) mod 2)).
  assert (Hp : (p = 0 \/ p = 1)%nat) by lia.
  set (bg := MkBindGroup GridUniforms ColorUniforms (CellState p) (CellState (1 - p))).
  assert (Hidx : Main.jsIndex Main.setupBindGroups (Main.bindGroupIndex g) = Some bg).
  { unfold Main.bindGroupIndex. rewrite Hpar. unfold Main.jsIndex.
    destruct (Qfloor (Main.step g) mod 2 <? 0) eqn:E; [lia |].
    fold p. subst bg. destruct Hp as [-> | ->]; reflexivity. }
  set (cin := if decide (p = 0%nat) then a else b).
  set (cout := if decide (p = 0%nat) then b else a).
  assert (Hcin : cellData dev !! p = Some cin).
  { rewrite Hcd. subst cin. destruct Hp as [-> | ->]; reflexivity. }
  assert (Hcout : cellData dev !! (1 - p)%nat = Some cout).
  { rewrite Hcd. subst cout. destruct Hp as [-> | ->]; reflexivity. }
  assert (Hlen : length cin = Z.to_nat (n * n)).
  { subst cin. destruct (decide (p = 0%nat)); assumption. }
  assert (Hlen' : length cout = Z.to_nat (n * n)).
  { subst cout. destruct (decide (p = 0%nat)); assumption. }
  set (dev1 := MkDevice (vertexData dev) (uniformData dev) (Main.cornerColors g)
                 (cellData dev)).
  destruct (computePass_runs n n Hpos Hpos Hfit bg p (1 - p)%nat
              eq_refl eq_refl ltac:(lia) cin Hlen
              (invocations (n / 8) (n / 8) 1) dev1 cout Hu Hcin Hcout Hlen')
    as [dev' [cout' [Hrun [Hu' [_ [_ [Hi' [Ho' [Hl' [Hn' [_ Hw']]]]]]]]]]].
  exists p, cin, cout, cout', dev'. eexists.
  split; [exact Hp |]. split; [lia |].
  split; [exact Hcin |]. split; [exact Hcout |].
  split.
  - unfold Main.render. rewrite Hres. cbn [mbind option_bind].
    rewrite Hbg, Hidx. cbn [mbind option_bind].
    fold dev1. unfold readStorage at 1. cbn [binding2 bg cellData dev1].
    rewrite Hcin. cbn [mbind option_bind].
    unfold Main.dispatchArgs. cbn [fst snd]. rewrite Hn.
    rewrite (enforceRange_eighth n Hn32). cbn [mbind option_bind].
    change (enforceRange 1) with (Some 1). cbn [mbind option_bind].
    rewrite Hrun. cbn [mbind option_bind fst snd]. reflexivity.
  - cbn [uniformData dev1] in Hu'. rewrite Hu', Hu.
    rewrite Hl', Hlen' , Hn'. cbn [cellData dev1]. rewrite Hcd.
    repeat split; try assumption; reflexivity.
Qed.

Lemma setup_ready (n : Z) (d s : Q) (random : nat -> Q) :
  0 <= n ->
  ready (Main.setup (Main.constructor n d s) random).1 /\
  deviceFor n (Main.setup (Main.constructor n d s) random).2.
Proof.
  intros Hn. split.
  - eexists. split; reflexivity.
  - split; [reflexivity |]. do 2 eexists. split; [reflexivity |].
    cbn [Main.grid_size Main.constructor].
    unfold Main.cellStateArray. now rewrite length_map, length_seq.
Qed.

Section Stores.

Variable n : Z.
Hypothesis Hpos : 0 < n.
Hypothesis Hfit : n * n < U32.modulus.
Variable o : nat.

Lemma store_in_buffer (b : Buffer) (k : nat) (sched : list (Z * Z * Z)) :
  (b, k) ∈ storeOf n n o <$> sched ->
  b = CellState o /\ (k < Z.to_nat (n * n))%nat.
Proof using Hpos Hfit.
  intros [c [E _]]%list_elem_of_fmap. injection E as -> ->.
  split; [reflexivity |].
  pose proof (cellIndex_in_bounds n n Hpos Hpos Hfit c.1.1 c.1.2). lia.
Qed.

Lemma invocation_in_grid (x y z : Z) :
  (x, y, z) ∈ invocations (n / 8) (n / 8) 1 ->
  0 <= x < n /\ 0 <= y < n /\ z = 0.
Proof using Hpos.
  rewrite elem_of_invocations. pose proof (eighth_le n Hpos). lia.
Qed.

Lemma stores_NoDup : NoDup (storeOf n n o <$> invocations (n / 8) (n / 8) 1).
Proof using Hpos Hfit.
  apply NoDup_fmap_2_strong; [| apply NoDup_invocations].
  intros [[x1 y1] z1] [[x2 y2] z2] H1 H2 E.
  apply invocation_in_grid in H1 as [Hx1 [Hy1 ->]].
  apply invocation_in_grid in H2 as [Hx2 [Hy2 ->]].
  unfold storeOf in E. cbn [fst snd] in E. injection E as E.
  rewrite !(cellIndex_own n n Hpos Hpos Hfit) in E by assumption.
  assert (E' : y1 * n + x1 = y2 * n + x2) by nia.
  assert (y1 = y2) by nia. assert (x1 = x2) by nia. congruence.
Qed.

Lemma stores_cover (x y : Z) :
  (8 | n) -> 0 <= x < n -> 0 <= y < n ->
  (CellState o, rowMajor n (x, y)) ∈ storeOf n n o <$> invocations (n / 8) (n / 8) 1.
Proof using Hpos Hfit.
  intros H8 Hx Hy. apply list_elem_of_fmap. exists (x, y, 0). split.
  - unfold storeOf, rowMajor. cbn [fst snd].
    now rewrite (cellIndex_own n n Hpos Hpos Hfit) by assumption.
  - apply elem_of_invocations. rewrite (eighth_exact n H8). lia.
Qed.

Lemma stores_full (k : nat) :
  (8 | n) -> (k < Z.to_nat (n * n))%nat ->
  (CellState o, k) ∈ storeOf n n o <$> invocations (n / 8) (n / 8) 1.
Proof using Hpos Hfit.
  intros H8 Hk.
  destruct (instance_in_grid n n (Z.of_nat k) Hpos ltac:(lia)) as [Hx [Hy E]].
  pose proof (stores_cover _ _ H8 Hx Hy) as Hc.
  unfold rowMajor in Hc. cbn [fst snd] in Hc.
  now rewrite E, Nat2Z.id in Hc.
Qed.

End Stores.

Lemma deviceFor_after (n : Z) (dev : Device) (p : nat) (x y : list Z) :
  (p = 0 \/ p = 1)%nat ->
  uniformData dev = gridUniform n n ->
  cellData dev !! p = Some x -> cellData dev !! (1 - p)%nat = Some y ->
  length x = Z.to_nat (n * n) -> length y = Z.to_nat (n * n) ->
  length (cellData dev) = 2%nat ->
  deviceFor n dev.
Proof.
  intros Hp Hu Hx Hy Lx Ly L2. split; [exact Hu |].
  destruct (cellData dev) as [| a [| b [| c rest]]]; try discriminate L2.
  exists a, b. split; [reflexivity |].
  destruct Hp as [-> | ->]; cbn in Hx, Hy; injection Hx as ->; injection Hy as ->;
    now split.
Qed.

(** C8, as the code has it. For a grid side that is a positive multiple of
    8, the compute pass of a call of [render] dispatches exactly
    [ceil (n / 8)] by [ceil (n / 8)] by 1 workgroups of size 8 by 8 by 1;
    its invocations are exactly the cells of the grid, and every cell is
    stored by the update. *)
Theorem dispatch_covers_multiple_of_8 (g : Main.GameOfLife) (dev : Device) (n : Z) :
  ready g -> Main.grid_size g = n -> 0 < n -> n * n < U32.modulus ->
  deviceFor n dev -> (0 <= Main.step g)%Q ->
  (8 | n) ->
  workgroup_size = (8, 8, 1) /\
  exists (dev' : Device) (f : Main.Frame),
    Main.render g dev = Some (g, dev', f) /\
    Main.frameDispatch f = (ceilDiv8 n, ceilDiv8 n, 1) /\
    (forall x y z, (x, y, z) ∈ invocations (ceilDiv8 n) (ceilDiv8 n) 1 <->
       0 <= x < n /\ 0 <= y < n /\ z = 0) /\
    NoDup (invocations (ceilDiv8 n) (ceilDiv8 n) 1) /\
    (forall x y, 0 <= x < n -> 0 <= y < n ->
       (binding3 (Main.frameBindGroup f), rowMajor n (x, y)) ∈ Main.frameStores f).
Proof.
  intros Hr Hn Hpos Hfit Hdev Hstep H8.
  split; [reflexivity |].
  destruct (render_runs g dev n Hr Hn Hpos Hfit Hdev Hstep)
    as [p [cin [cout [cout' [dev' [drawn [_ [_ [_ [_ [Hrender _]]]]]]]]]]].
  eexists dev', _. split; [exact Hrender |].
  cbn [Main.frameDispatch Main.frameBindGroup Main.frameStores binding3].
  rewrite (ceilDiv8_exact n H8).
  split; [reflexivity |].
  split.
  { intros x y z. rewrite elem_of_invocations, (eighth_exact n H8). lia. }
  split; [apply NoDup_invocations |].
  intros x y Hx Hy. now apply (stores_cover n Hpos Hfit).
Qed.

Lemma dispatch_covers_multiple_of_8_witness :
  exists (dev' : Device) (f : Main.Frame),
    Main.render game8 dev8 = Some (game8, dev', f) /\
    Main.frameDispatch f = (ceilDiv8 8, ceilDiv8 8, 1) /\
    (forall x y, 0 <= x < 8 -> 0 <= y < 8 ->
       (binding3 (Main.frameBindGroup f), rowMajor 8 (x, y)) ∈ Main.frameStores f).
Proof.
  destruct (dispatch_covers_multiple_of_8 game8 dev8 8)
    as [_ [dev' [f [H1 [H2 [_ [_ H3]]]]]]].
  - eexists. split; reflexivity.
  - reflexivity.
  - lia.
  - vm_compute. reflexivity.
  - split; [reflexivity |]. eexists _, _. repeat split; reflexivity.
  - vm_compute. discriminate.
  - exists 1. reflexivity.
  - exists dev', f. repeat split; assumption.
Defined.

(** C8 as stated fails for a side that is not a multiple of 8. On the 12 by
    12 grid, [dispatchWorkgroups(1.5, 1.5, 1)] dispatches 1 by 1 by 1
    workgroups where [ceil (12 / 8)] is 2; cell (8, 0) has no invocation
    and its index 8 is not stored, nor is any of 80 of the 144 cells. *)
Lemma dispatch_misses_cells_on_12 :
  (fun r => Main.frameDispatch r.2) <$> Main.render game12 dev12 = Some (1, 1, 1) /\
  ceilDiv8 12 = 2 /\
  ~ ((8, 0, 0) ∈ invocations 1 1 1) /\
  (fun r => bool_decide
     ((binding3 (Main.frameBindGroup r.2), rowMajor 12 (8, 0)) ∈ Main.frameStores r.2))
    <$> Main.render game12 dev12 = Some false /\
  (fun r => length (Main.frameStores r.2)) <$> Main.render game12 dev12
    = Some 64%nat.
Proof.
  split; [vm_compute; reflexivity |].
  split; [reflexivity |].
  split; [rewrite elem_of_invocations; lia |].
  split; vm_compute; reflexivity.
Qed.

(** ** The update as a whole *)

(** On a grid whose side is a multiple of 8, a call of [render] leaves in
    the written buffer, at every cell, the state that the transition table
    gives for the cell's state in the buffer read and the number of live
    cells among the eight cells read. *)
Lemma render_updates_every_cell (g : Main.GameOfLife) (dev : Device) (n : Z) :
  ready g -> Main.grid_size g = n -> 0 < n -> n * n < U32.modulus ->
  deviceFor n dev -> (0 <= Main.step g)%Q -> (8 | n) ->
  exists (p : nat) (cin cout' : list Z) (dev' : Device) (f : Main.Frame),
    Main.render g dev = Some (g, dev', f) /\
    Z.of_nat p = Qfloor (Main.step g) mod 2 /\
    cellData dev !! p = Some cin /\
    cellData dev' !! p = Some cin /\
    cellData dev' !! (1 - p)%nat = Some cout' /\
    (binary cin ->
     forall x y, 0 <= x < n -> 0 <= y < n ->
       exists cur cnt,
         cin !! rowMajor n (x, y) = Some cur /\
         cnt = liveAmong n cin (codeNeighbors n n x y) /\
         cout' !! rowMajor n (x, y) = Some (Z.b2z (lifeRule (cur =? 1) cnt))).
Proof.
  intros Hr Hn Hpos Hfit Hdev Hstep H8.
  destruct (render_runs g dev n Hr Hn Hpos Hfit Hdev Hstep)
    as [p [cin [cout [cout' [dev' [drawn
         [Hp [Hpar [Hcin [_ [Hrender [Hu' [Hi' [Ho' [Hl' [Hn' Hw']]]]]]]]]]]]]]]].
  exists p, cin, cout', dev'. eexists.
  split; [exact Hrender |]. split; [exact Hpar |].
  split; [exact Hcin |]. split; [exact Hi' |]. split; [exact Ho' |].
  intros Hb x y Hx Hy.
  assert (Hlen : length cin = Z.to_nat (n * n)).
  { destruct Hdev as [_ [a [b [Hcd [Ha Hb']]]]]. rewrite Hcd in Hcin.
    destruct Hp as [-> | ->]; cbn in Hcin; injection Hcin as <-; assumption. }
  destruct (simulate_applies_rule n n Hpos Hpos Hfit cin Hlen x y 0 Hb Hx Hy)
    as [cur [cnt [Hcur [_ [Hcnt [_ [Hsim _]]]]]]].
  exists cur, cnt. split; [exact Hcur |]. split; [exact Hcnt |].
  apply Hw'.
  - intros [[x' y'] z'] Hc Hk. cbn [fst snd] in Hk.
    apply (invocation_in_grid n Hpos) in Hc as [Hx' [Hy' ->]].
    rewrite (cellIndex_own n n Hpos Hpos Hfit) in Hk by assumption.
    unfold rowMajor in Hk. cbn [fst snd] in Hk.
    assert (E : y' * n + x' = y * n + x) by nia.
    assert (y' = y) by nia. assert (x' = x) by nia. subst. exact Hsim.
  - left. exists (x, y, 0). split.
    + apply elem_of_invocations. rewrite (eighth_exact n H8). lia.
    + cbn [fst snd]. now rewrite (cellIndex_own n n Hpos Hpos Hfit) by assumption.
Qed.

(** The blinker of the specification: on the 8 by 8 grid the row of three
    becomes the column of three after one update (read from buffer A,
    written to buffer B), and the row again after the next one (read from
    B, written to A), one simulation step per tick. *)
Example blinker_oscillates :
  (fun r => cellData r.2) <$>
    Main.run [Main.CallRender] game8 blinkerDev
    = Some [blinkerRow8; blinkerColumn8] /\
  (fun r => cellData r.2) <$>
    Main.run [Main.CallRender; Main.CallTick; Main.CallRender] game8 blinkerDev
    = Some [blinkerRow8; blinkerColumn8].
Proof. split; vm_compute; reflexivity. Qed.

(** The lone cell of the specification dies: the first update writes an
    empty buffer B, and the next one, reading B, empties buffer A. *)
Example lone_cell_dies :
  (fun r => cellData r.2) <$>
    Main.run [Main.CallRender] game8 loneCellDev
    = Some [loneCell8; cellsWith 64 []] /\
  (fun r => cellData r.2) <$>
    Main.run [Main.CallRender; Main.CallTick; Main.CallRender] game8 loneCellDev
    = Some [cellsWith 64 []; cellsWith 64 []].
Proof. split; vm_compute; reflexivity. Qed.

(** The isolation comes from the bind groups, not from the model of memory:
    under a group that binds buffer A for reading and for writing, the pass
    overwrites the buffer it reads, and later invocations read the cells
    that earlier ones stored. *)
Example aliased_group_overwrites_input :
  (fun r => cellData r.1 !! 0%nat) <$>
    computePass aliasedGroup (invocations 1 1 1) blinkerDev
    = Some (Some (cellsWith 64 [28%nat; 29%nat; 35%nat; 37%nat])) /\
  cellData blinkerDev !! 0%nat = Some blinkerRow8.
Proof. split; vm_compute; reflexivity. Qed.

(** * Further properties of the code *)

(** ** simulate.wgsl: bounds, invariants, still life *)

Section SimulateFacts.

Variables w h : Z.
Hypothesis Hw : 0 < w.
Hypothesis Hh : 0 < h.
Hypothesis Hfit : w * h < U32.modulus.
Variable cin : list Z.
Hypothesis Hlen : length cin = Z.to_nat (w * h).

(** X1. An invocation of [simulate] never leaves the buffer, whatever its
    global invocation id: its eight reads and the read of its own cell are
    all defined, and its single store goes to the index of the cell
    [(x mod w, y mod h)], which is inside the buffer. *)
Theorem simulate_stays_in_bounds (x y z : Z) :
  exists v,
    Simulate.simulate (gridUniform w h) cin (x, y, z)
      = Some (rowMajor w (x mod w, y mod h), v) /\
    Nat.lt (rowMajor w (x mod w, y mod h)) (length cin) /\
    is_Some (Simulate.aliveNeighbors (gridUniform w h) cin x y) /\
    is_Some (Simulate.cellState (gridUniform w h) cin x y).
Proof using Hw Hh Hfit Hlen.
  destruct (simulate_defined w h Hw Hh Hfit cin Hlen (x, y, z)) as [v Hv].
  cbn [fst snd] in Hv.
  pose proof (cellIndex_rowMajor w h Hw Hh Hfit x y) as Hidx.
  pose proof (cellIndex_in_bounds w h Hw Hh Hfit x y) as Hb.
  exists v. rewrite Hv. unfold rowMajor. cbn [fst snd]. rewrite <- Hidx.
  split; [reflexivity |]. split; [unfold Nat.lt; lia |]. split.
  - destruct (aliveNeighbors_defined w h Hw Hh Hfit cin Hlen x y) as [n ->]. eauto.
  - destruct (cellState_defined w h Hw Hh Hfit cin Hlen x y) as [c [-> _]]. eauto.
Qed.

(** X2. On a buffer of zeros and ones an invocation stores a zero or a one,
    whatever its global invocation id: the update keeps the cell states
    binary. *)
Theorem simulate_stores_binary (x y z : Z) :
  binary cin ->
  exists k v,
    Simulate.simulate (gridUniform w h) cin (x, y, z) = Some (k, v) /\
    (v = 0 \/ v = 1).
Proof using Hw Hh Hfit Hlen.
  intros Hb.
  destruct (simulate_defined w h Hw Hh Hfit cin Hlen (x, y, z)) as [v Hv].
  cbn [fst snd] in Hv. eexists _, v. split; [exact Hv |].
  unfold Simulate.simulate in Hv.
  destruct (Simulate.aliveNeighbors (gridUniform w h) cin x y) as [n |];
    cbn [mbind option_bind] in Hv; [| discriminate Hv].
  destruct (n =? 2).
  - destruct (cin !! Z.to_nat (Simulate.cellIndex (gridUniform w h) x y))
      as [cur |] eqn:E; cbn [mbind option_bind] in Hv; [| discriminate Hv].
    injection Hv as <-.
    eapply (proj1 (Forall_lookup _ _) Hb); eauto.
  - destruct (n =? 3); injection Hv as <-; lia.
Qed.

(** X3. Nothing is born on an empty grid: when every cell of the buffer read
    is dead, every invocation counts no live neighbour and stores "dead". *)
Theorem simulate_empty_stays_empty (x y z : Z) :
  allDead cin ->
  Simulate.aliveNeighbors (gridUniform w h) cin x y = Some 0 /\
  Simulate.simulate (gridUniform w h) cin (x, y, z)
    = Some (rowMajor w (x mod w, y mod h), 0).
Proof using Hw Hh Hfit Hlen.
  intros Hd.
  assert (Hread : forall a b, Simulate.cellState (gridUniform w h) cin a b = Some 0).
  { intros a b.
    destruct (cellState_defined w h Hw Hh Hfit cin Hlen a b) as [v [Hv _]].
    rewrite Hv. f_equal. unfold Simulate.cellState in Hv.
    eapply (proj1 (Forall_lookup _ _) Hd); eauto. }
  assert (Hn : Simulate.aliveNeighbors (gridUniform w h) cin x y = Some 0).
  { unfold Simulate.aliveNeighbors. rewrite !Hread. reflexivity. }
  split; [exact Hn |].
  unfold Simulate.simulate. rewrite Hn. cbn [mbind option_bind Z.eqb].
  unfold rowMajor. cbn [fst snd].
  now rewrite (cellIndex_rowMajor w h Hw Hh Hfit).
Qed.

End SimulateFacts.

Lemma simulate_stays_in_bounds_witness :
  exists v,
    Simulate.simulate (gridUniform 4 4) row4 (9, 4294967295, 7)
      = Some (rowMajor 4 (9 mod 4, 4294967295 mod 4), v) /\
    Nat.lt (rowMajor 4 (9 mod 4, 4294967295 mod 4)) (length row4) /\
    is_Some (Simulate.aliveNeighbors (gridUniform 4 4) row4 9 4294967295) /\
    is_Some (Simulate.cellState (gridUniform 4 4) row4 9 4294967295).
Proof.
  apply (simulate_stays_in_bounds 4 4); try reflexivity; lia.
Defined.

Lemma simulate_stores_binary_witness :
  exists k v,
    Simulate.simulate (gridUniform 4 4) row4 (1, 0, 0) = Some (k, v) /\
    (v = 0 \/ v = 1).
Proof.
  apply (simulate_stores_binary 4 4); try reflexivity; try lia.
  unfold binary. vm_compute. repeat (constructor; [lia |]). constructor.
Defined.

Lemma simulate_empty_stays_empty_witness :
  Simulate.aliveNeighbors (gridUniform 4 4) (cellsWith 16 []) 3 3 = Some 0 /\
  Simulate.simulate (gridUniform 4 4) (cellsWith 16 []) (3, 3, 0)
    = Some (rowMajor 4 (3 mod 4, 3 mod 4), 0).
Proof.
  apply (simulate_empty_stays_empty 4 4); try reflexivity; try lia.
  unfold allDead. vm_compute. repeat (constructor; [reflexivity |]). constructor.
Defined.

(** ** The layout shared by the two shaders *)

(** X4. The compute shader and the vertex shader agree on the layout of the
    cell-state buffer, on every grid of at most [2^24] cells, where [f32]
    holds every instance index. The instance that the draw call places at cell
    [(x, y)] is the one whose index is [cellIndex (x, y)], so it shows the
    state that [simulate] stores for that cell; and every index below
    [w * h] is the [cellIndex] of the cell its instance is placed at. *)
Theorem shaders_share_layout (w h : Z) (states : list Z) (pos : vec2f) (x y st : Z) :
  0 < w -> 0 < h -> w * h <= 2 ^ 24 ->
  0 <= x < w -> 0 <= y < h ->
  states !! Z.to_nat (Simulate.cellIndex (gridUniform w h) x y) = Some st ->
  (exists out,
     Cell.vertexMain (gridUniform w h) states pos
       (Simulate.cellIndex (gridUniform w h) x y) = Some out /\
     (vx (Cell.cell out) == inject_Z x)%Q /\
     vy (Cell.cell out) = inject_Z y) /\
  cellOfInstance w (Simulate.cellIndex (gridUniform w h) x y) = (x, y) /\
  (forall i, 0 <= i < w * h ->
     Simulate.cellIndex (gridUniform w h) (cellOfInstance w i).1 (cellOfInstance w i).2 = i).
Proof.
  intros Hw Hh H24 Hx Hy Hst.
  assert (Hfit : w * h < U32.modulus) by (unfold U32.modulus; lia).
  rewrite (cellIndex_own w h Hw Hh Hfit x y Hx Hy) in *.
  split; [| split].
  - apply (instance_fragment_color w h states Main.zeroColors pos x y st);
      [exact Hw | exact Hx | lia | nia | exact Hst].
  - unfold cellOfInstance. f_equal.
    + rewrite Z.add_comm, Z.mod_add by lia. now apply Z.mod_small.
    + rewrite Z.add_comm, Z.div_add by lia. rewrite Z.div_small by lia. lia.
  - intros i Hi. unfold cellOfInstance. cbn [fst snd].
    destruct (instance_in_grid w h i Hw Hi) as [Hc [Hr E]].
    now rewrite (cellIndex_own w h Hw Hh Hfit _ _ Hc Hr).
Qed.

Lemma shaders_share_layout_witness :
  (exists out,
     Cell.vertexMain (gridUniform 4 4) row4 (Vec2f (4 # 5) (4 # 5))
       (Simulate.cellIndex (gridUniform 4 4) 2 1) = Some out /\
     (vx (Cell.cell out) == inject_Z 2)%Q /\
     vy (Cell.cell out) = inject_Z 1) /\
  cellOfInstance 4 (Simulate.cellIndex (gridUniform 4 4) 2 1) = (2, 1) /\
  (forall i, 0 <= i < 4 * 4 ->
     Simulate.cellIndex (gridUniform 4 4) (cellOfInstance 4 i).1 (cellOfInstance 4 i).2 = i).
Proof.
  apply (shaders_share_layout 4 4 row4 (Vec2f (4 # 5) (4 # 5)) 2 1 1);
    try reflexivity; lia.
Defined.

(** ** cell.wgsl: where a quad lands and what colour it gets *)

Lemma vertices_inset (p : vec2f) :
  p ∈ Main.vertices ->
  (-(4 # 5) <= vx p /\ vx p <= 4 # 5 /\ -(4 # 5) <= vy p /\ vy p <= 4 # 5)%Q.
Proof.
  unfold Main.vertices. intros H.
  repeat (apply elem_of_cons in H as [-> | H]; [cbn [vx vy]; lra |]).
  inversion H.
Qed.

(** Placement along one axis: [a] is the vertex coordinate scaled by the
    state, [X] the cell coordinate and [W] the grid extent. *)
Lemma placement_inside (a X W : Q) :
  (0 < W -> -(4 # 5) <= a -> a <= 4 # 5 -> 0 <= X -> X + 1 <= W ->
   2 * X / W - 1 < (a + 1) / W - 1 + X / W * 2 /\
   (a + 1) / W - 1 + X / W * 2 < 2 * (X + 1) / W - 1 /\
   -1 < (a + 1) / W - 1 + X / W * 2 /\
   (a + 1) / W - 1 + X / W * 2 < 1)%Q.
Proof.
  intros HW Ha1 Ha2 HX HXW. unfold Qdiv.
  assert (Hi : (0 < / W)%Q) by now apply Qinv_lt_0_compat.
  assert (Hone : (W * / W == 1)%Q) by (apply Qmult_inv_r; lra).
  set (iw := (/ W)%Q) in *.
  assert (H1 : (0 <= X * iw)%Q) by (apply Qmult_le_0_compat; lra).
  assert (H2 : ((X + 1) * iw <= 1)%Q).
  { rewrite <- Hone. apply Qmult_le_compat_r; lra. }
  assert (H3 : (0 < (a + 1) * iw)%Q) by (apply Qmult_lt_0_compat; lra).
  assert (H4 : (0 < (1 - a) * iw)%Q) by (apply Qmult_lt_0_compat; lra).
  repeat split; lra.
Qed.

Lemma inject_Z_cell_bounds (c n : Z) :
  0 < n -> 0 <= c < n ->
  (0 < inject_Z n /\ 0 <= inject_Z c /\ inject_Z c + 1 <= inject_Z n)%Q.
Proof.
  intros Hn Hc. change 0%Q with (inject_Z 0). change 1%Q with (inject_Z 1).
  rewrite <- inject_Z_plus, <- Zlt_Qlt, <- !Zle_Qle. lia.
Qed.

(** The clip-space position that [vertexMain] computes for the instance
    of cell [(x, y)], up to equality of rationals. *)
Lemma vertexMain_position (w h : Z) (states : list Z) (pos : vec2f) (x y st : Z) :
  0 < w -> 0 <= x < w -> 0 <= y -> y * w + x < 2 ^ 24 ->
  states !! Z.to_nat (y * w + x) = Some st ->
  exists out,
    Cell.vertexMain (gridUniform w h) states pos (y * w + x) = Some out /\
    (c_r (Cell.position out)
       == (vx pos * inject_Z st + 1) / inject_Z w - 1 + inject_Z x / inject_Z w * 2)%Q /\
    (c_g (Cell.position out)
       == (vy pos * inject_Z st + 1) / inject_Z h - 1 + inject_Z y / inject_Z h * 2)%Q /\
    c_b (Cell.position out) = 0%Q /\ c_a (Cell.position out) = 1%Q.
Proof.
  intros Hw Hx Hy H24 Hst. unfold Cell.vertexMain. rewrite Hst.
  rewrite (f32_of_u32_exact _ H24).
  cbn [mbind option_bind]. eexists. split; [reflexivity |].
  cbn [Cell.position c_r c_g c_b c_a vx vy gridUniform].
  assert (Hm : (y * w + x) mod w = x).
  { rewrite Z.add_comm, Z.mod_add by lia. now apply Z.mod_small. }
  assert (Hd : (y * w + x) / w = y).
  { rewrite Z.add_comm, Z.div_add by lia. rewrite Z.div_small by lia. lia. }
  split; [| split; [| split; reflexivity]].
  - rewrite (Qrem_inject_Z (y * w + x) w) by nia. rewrite Hm. reflexivity.
  - rewrite <- Zdiv_Qdiv, Hd. reflexivity.
Qed.

(** X5. On a grid of at most [2^24] cells, where [f32] holds every instance
    index, the quad of a live cell lies strictly inside the square of its
    own grid cell, and so inside the viewport: for every vertex of the vertex
    buffer, the clip-space position of the instance of the live cell
    [(x, y)] has [2x/w - 1 < X < 2(x+1)/w - 1] and
    [2y/h - 1 < Y < 2(y+1)/h - 1], with depth 0 and weight 1. Quads of
    different cells therefore never overlap. *)
Theorem live_quad_inside_its_cell (w h : Z) (states : list Z) (pos : vec2f) (x y : Z) :
  0 < w -> 0 < h -> w * h <= 2 ^ 24 -> 0 <= x < w -> 0 <= y < h ->
  states !! Z.to_nat (y * w + x) = Some 1 ->
  pos ∈ Main.vertices ->
  exists out,
    Cell.vertexMain (gridUniform w h) states pos (y * w + x) = Some out /\
    (2 * inject_Z x / inject_Z w - 1 < c_r (Cell.position out) /\
     c_r (Cell.position out) < 2 * (inject_Z x + 1) / inject_Z w - 1 /\
     2 * inject_Z y / inject_Z h - 1 < c_g (Cell.position out) /\
     c_g (Cell.position out) < 2 * (inject_Z y + 1) / inject_Z h - 1 /\
     -1 < c_r (Cell.position out) /\ c_r (Cell.position out) < 1 /\
     -1 < c_g (Cell.position out) /\ c_g (Cell.position out) < 1)%Q /\
    c_b (Cell.position out) = 0%Q /\ c_a (Cell.position out) = 1%Q.
Proof.
  intros Hw Hh H24 Hx Hy Hst Hpos.
  destruct (vertexMain_position w h states pos x y 1 Hw Hx ltac:(lia) ltac:(nia) Hst)
    as [out [Ho [Ex [Ey [Ez Ea]]]]].
  exists out. split; [exact Ho |]. split; [| now split].
  destruct (vertices_inset pos Hpos) as [Hx1 [Hx2 [Hy1 Hy2]]].
  destruct (inject_Z_cell_bounds x w Hw Hx) as [HW [HX HXW]].
  destruct (inject_Z_cell_bounds y h Hh Hy) as [HH [HY HYH]].
  assert (Ex' : (c_r (Cell.position out)
                 == (vx pos + 1) / inject_Z w - 1 + inject_Z x / inject_Z w * 2)%Q).
  { rewrite Ex. change (inject_Z 1) with 1%Q. now rewrite Qmult_1_r. }
  assert (Ey' : (c_g (Cell.position out)
                 == (vy pos + 1) / inject_Z h - 1 + inject_Z y / inject_Z h * 2)%Q).
  { rewrite Ey. change (inject_Z 1) with 1%Q. now rewrite Qmult_1_r. }
  rewrite Ex', Ey'.
  destruct (placement_inside (vx pos) (inject_Z x) (inject_Z w) HW Hx1 Hx2 HX HXW)
    as [? [? [? ?]]].
  destruct (placement_inside (vy pos) (inject_Z y) (inject_Z h) HH Hy1 Hy2 HY HYH)
    as [? [? [? ?]]].
  repeat split; assumption.
Qed.

Lemma live_quad_inside_its_cell_witness :
  exists out,
    Cell.vertexMain (gridUniform 4 4) row4 (Vec2f (4 # 5) (-(4 # 5))) (1 * 4 + 2)
      = Some out /\
    (2 * inject_Z 2 / inject_Z 4 - 1 < c_r (Cell.position out) /\
     c_r (Cell.position out) < 2 * (inject_Z 2 + 1) / inject_Z 4 - 1 /\
     2 * inject_Z 1 / inject_Z 4 - 1 < c_g (Cell.position out) /\
     c_g (Cell.position out) < 2 * (inject_Z 1 + 1) / inject_Z 4 - 1 /\
     -1 < c_r (Cell.position out) /\ c_r (Cell.position out) < 1 /\
     -1 < c_g (Cell.position out) /\ c_g (Cell.position out) < 1)%Q /\
    c_b (Cell.position out) = 0%Q /\ c_a (Cell.position out) = 1%Q.
Proof.
  apply (live_quad_inside_its_cell 4 4 row4 (Vec2f (4 # 5) (-(4 # 5))) 2 1);
    try reflexivity; try lia.
  unfold Main.vertices. apply elem_of_cons. right. apply elem_of_cons. now left.
Defined.

(** X6. The quad of a dead cell collapses to a point: on a grid of at most
    [2^24] cells, where [f32] holds every instance index, whatever the vertex,
    the instance of a dead cell [(x, y)] is placed at the centre of the
    cell's square, [((2x + 1)/w - 1, (2y + 1)/h - 1)], so its two
    triangles have no area. *)
Theorem dead_quad_collapses (w h : Z) (states : list Z) (pos : vec2f) (x y : Z) :
  0 < w -> 0 < h -> w * h <= 2 ^ 24 -> 0 <= x < w -> 0 <= y < h ->
  states !! Z.to_nat (y * w + x) = Some 0 ->
  exists out,
    Cell.vertexMain (gridUniform w h) states pos (y * w + x) = Some out /\
    (c_r (Cell.position out) == (2 * inject_Z x + 1) / inject_Z w - 1)%Q /\
    (c_g (Cell.position out) == (2 * inject_Z y + 1) / inject_Z h - 1)%Q.
Proof.
  intros Hw Hh H24 Hx Hy Hst.
  destruct (vertexMain_position w h states pos x y 0 Hw Hx ltac:(lia) ltac:(nia) Hst)
    as [out [Ho [Ex [Ey _]]]].
  exists out. split; [exact Ho |].
  rewrite Ex, Ey. change (inject_Z 0) with 0%Q. unfold Qdiv. split; ring.
Qed.

Lemma dead_quad_collapses_witness :
  exists out,
    Cell.vertexMain (gridUniform 4 4) row4 (Vec2f (4 # 5) (-(4 # 5))) (0 * 4 + 3)
      = Some out /\
    (c_r (Cell.position out) == (2 * inject_Z 3 + 1) / inject_Z 4 - 1)%Q /\
    (c_g (Cell.position out) == (2 * inject_Z 0 + 1) / inject_Z 4 - 1)%Q.
Proof.
  apply (dead_quad_collapses 4 4 row4 (Vec2f (4 # 5) (-(4 # 5))) 3 0);
    try reflexivity; lia.
Defined.

Lemma blend_unit (a b t : Q) :
  unitChannel a -> unitChannel b -> (0 <= t)%Q -> (t <= 1)%Q ->
  unitChannel (a * (1 - t) + b * t).
Proof.
  unfold unitChannel. intros [Ha0 Ha1] [Hb0 Hb1] Ht0 Ht1.
  assert (0 <= a * (1 - t))%Q by (apply Qmult_le_0_compat; lra).
  assert (0 <= b * t)%Q by (apply Qmult_le_0_compat; lra).
  assert (0 <= (1 - a) * (1 - t))%Q by (apply Qmult_le_0_compat; lra).
  assert (0 <= (1 - b) * t)%Q by (apply Qmult_le_0_compat; lra).
  split; lra.
Qed.

Lemma factor_unit (c n : Z) :
  0 < n -> 0 <= c < n ->
  (0 <= inject_Z c / inject_Z n /\ inject_Z c / inject_Z n <= 1)%Q.
Proof.
  intros Hn Hc. destruct (inject_Z_cell_bounds c n Hn Hc) as [HN [HC HCN]].
  split.
  - apply Qle_shift_div_l; [exact HN | lra].
  - apply Qle_shift_div_r; [exact HN | lra].
Qed.

(** X7. A fragment never gets a colour outside the range of the corner
    colours: for a cell inside the grid and four corner colours whose
    channels lie in [0, 1] and whose alpha is 1, every RGB channel of the
    fragment colour lies in [0, 1] and its alpha is 1. *)
Theorem fragment_color_unit (w h : Z) (colors : Cell.Colors) (x y : Z) :
  0 < w -> 0 < h -> 0 <= x < w -> 0 <= y < h ->
  unitColor (Cell.color0 colors) -> unitColor (Cell.color1 colors) ->
  unitColor (Cell.color2 colors) -> unitColor (Cell.color3 colors) ->
  let c := Cell.fragmentMain (gridUniform w h) colors
             (Vec2f (inject_Z x) (inject_Z y)) in
  unitChannel (c_r c) /\ unitChannel (c_g c) /\ unitChannel (c_b c) /\
  (c_a c == 1)%Q.
Proof.
  intros Hw Hh Hx Hy [R0 [G0 [B0 A0]]] [R1 [G1 [B1 A1]]]
    [R2 [G2 [B2 A2]]] [R3 [G3 [B3 A3]]].
  destruct (factor_unit x w Hw Hx) as [Fx0 Fx1].
  destruct (factor_unit y h Hh Hy) as [Fy0 Fy1].
  cbv zeta. unfold Cell.fragmentMain, Cell.vadd, Cell.vscale.
  cbn [c_r c_g c_b c_a vx vy gridUniform].
  repeat split;
    try (apply blend_unit; [apply blend_unit | apply blend_unit | |]; assumption).
  rewrite A0, A1, A2, A3. ring.
Qed.

Lemma fragment_color_unit_witness :
  let c := Cell.fragmentMain (gridUniform 4 4) (Main.cornerColors lateGame)
             (Vec2f (inject_Z 3) (inject_Z 2)) in
  unitChannel (c_r c) /\ unitChannel (c_g c) /\ unitChannel (c_b c) /\
  (c_a c == 1)%Q.
Proof.
  apply (fragment_color_unit 4 4 (Main.cornerColors lateGame) 3 2); try lia;
    (split; [| split; [| split]]; [vm_compute; split; discriminate ..| reflexivity]).
Defined.

(** ** main.ts: hueToRgb and hslToRgb *)

(** X8. [hslToRgb] returns channels in [0, 1], not in [0, 255] as its
    comment says: for a saturation and a lightness in [0, 1] and every hue
    from -2/3 upwards, each of the three channels lies in [0, 1]. *)
Theorem hslToRgb_unit (hue s l : Q) :
  (-(2 # 3) <= hue)%Q -> unitChannel s -> unitChannel l ->
  unitChannel (Main.hslToRgb hue s l).1.1 /\
  unitChannel (Main.hslToRgb hue s l).1.2 /\
  unitChannel (Main.hslToRgb hue s l).2.
Proof.
  intros Hh [Hs0 Hs1] [Hl0 Hl1]. unfold Main.hslToRgb.
  destruct (Qeq_bool s 0); [cbn [fst snd]; unfold unitChannel; lra |].
  cbn [fst snd].
  set (q := if Qlt_le_dec l (1 # 2) then (l * (1 + s))%Q else (l + s - l * s)%Q).
  set (p := (2 * l - q)%Q).
  assert (Hsl : (0 <= s * l)%Q) by (apply Qmult_le_0_compat; assumption).
  assert (Hsl' : (0 <= s * (1 - l))%Q) by (apply Qmult_le_0_compat; lra).
  assert (Hsl1 : (0 <= (1 - s) * l)%Q) by (apply Qmult_le_0_compat; lra).
  assert (Hsl2 : (0 <= (1 - s) * (1 - l))%Q) by (apply Qmult_le_0_compat; lra).
  assert (Hpq : (0 <= p /\ p <= q /\ q <= 1)%Q).
  { subst p q. destruct (Qlt_le_dec l (1 # 2)); repeat split; lra. }
  destruct Hpq as [Hp [Hpq Hq]].
  pose proof (hueToRgb_between p q (hue + (1 # 3)) Hpq ltac:(lra)).
  pose proof (hueToRgb_between p q hue Hpq ltac:(lra)).
  pose proof (hueToRgb_between p q (hue - (1 # 3)) Hpq ltac:(lra)).
  unfold unitChannel. lra.
Qed.

Lemma hslToRgb_unit_witness :
  unitChannel (Main.hslToRgb (17 # 10) (1 # 2) (1 # 2)).1.1 /\
  unitChannel (Main.hslToRgb (17 # 10) (1 # 2) (1 # 2)).1.2 /\
  unitChannel (Main.hslToRgb (17 # 10) (1 # 2) (1 # 2)).2.
Proof.
  apply hslToRgb_unit; [| split | split]; vm_compute; discriminate.
Defined.

(** X9. [hueToRgb] brings its argument back by one period only. It is
    periodic across one wrap: [hueToRgb p q (t + 1) = hueToRgb p q t] for
    every [t] from -1 to 1. Further out it is not: from 5/3 upwards it
    returns [p], and below -5/6 it follows the rising ramp
    [p + (q - p) * 6 * (t + 1)] out of the range between [p] and [q]. *)
Theorem hueToRgb_one_wrap (p q t : Q) :
  ((-1 <= t -> t <= 1 -> Main.hueToRgb p q (t + 1) == Main.hueToRgb p q t) /\
   (5 # 3 <= t -> Main.hueToRgb p q t == p) /\
   (t < -(5 # 6) -> Main.hueToRgb p q t == p + (q - p) * 6 * (t + 1)))%Q.
Proof.
  split; [| split].
  - intros Hlo Hhi. apply hueToRgb_shift_down; lra.
  - intros Ht. unfold Main.hueToRgb.
    destruct (Qlt_le_dec t 0); [lra |].
    destruct (Qlt_le_dec 1 _); [| lra].
    destruct (Qlt_le_dec _ (1 # 6)); [lra |].
    destruct (Qlt_le_dec _ (1 # 2)); [lra |].
    destruct (Qlt_le_dec _ (2 # 3)); [lra | reflexivity].
  - intros Ht. unfold Main.hueToRgb.
    destruct (Qlt_le_dec t 0); [| lra].
    destruct (Qlt_le_dec 1 _); [lra |].
    destruct (Qlt_le_dec _ (1 # 6)); [reflexivity | lra].
Qed.

Lemma hueToRgb_one_wrap_witness :
  (Main.hueToRgb (1 # 4) (3 # 4) ((1 # 2) + 1) == Main.hueToRgb (1 # 4) (3 # 4) (1 # 2) /\
   Main.hueToRgb (1 # 4) (3 # 4) 2 == 1 # 4 /\
   Main.hueToRgb (1 # 4) (3 # 4) (-1) == (1 # 4) + ((3 # 4) - (1 # 4)) * 6 * (-1 + 1))%Q.
Proof.
  split; [| split].
  - apply (hueToRgb_one_wrap (1 # 4) (3 # 4) (1 # 2)); vm_compute; discriminate.
  - apply (hueToRgb_one_wrap (1 # 4) (3 # 4) 2). vm_compute. discriminate.
  - apply (hueToRgb_one_wrap (1 # 4) (3 # 4) (-1)). vm_compute. reflexivity.
Defined.

(** ** main.ts: the gradient over time *)

Lemma hueToRgb_compat (p q t t' : Q) :
  (t == t')%Q -> (Main.hueToRgb p q t == Main.hueToRgb p q t')%Q.
Proof.
  intros E. unfold Main.hueToRgb.
  destruct (Qlt_le_dec t 0); destruct (Qlt_le_dec t' 0); try lra;
    destruct (Qlt_le_dec 1 _); destruct (Qlt_le_dec 1 _); try lra;
    repeat match goal with
    | |- context [Qlt_le_dec ?a ?b] => destruct (Qlt_le_dec a b)
    end;
    first [ lra | rewrite E; ring ].
Qed.

Lemma hslToRgb_half_compat (a b : Q) :
  (a == b)%Q ->
  ((Main.hslToRgb a (1 # 2) (1 # 2)).1.1 == (Main.hslToRgb b (1 # 2) (1 # 2)).1.1 /\
   (Main.hslToRgb a (1 # 2) (1 # 2)).1.2 == (Main.hslToRgb b (1 # 2) (1 # 2)).1.2 /\
   (Main.hslToRgb a (1 # 2) (1 # 2)).2 == (Main.hslToRgb b (1 # 2) (1 # 2)).2)%Q.
Proof.
  intros E. rewrite !hslToRgb_half. cbn [fst snd].
  repeat split; apply hueToRgb_compat; rewrite E; reflexivity.
Qed.

Lemma Qfloor_succ (x : Q) : Qfloor (x + 1) = Qfloor x + 1.
Proof.
  apply Qfloor_unique.
  - rewrite inject_Z_plus. pose proof (Qfloor_le x).
    change (inject_Z 1) with 1%Q. lra.
  - rewrite !inject_Z_plus. pose proof (Qlt_floor x) as H.
    rewrite inject_Z_plus in H. change (inject_Z 1) with 1%Q in *. lra.
Qed.

(** The offset after one more period of the hue cycle. *)
Lemma offset_periodic (g : Main.GameOfLife) :
  (0 <= Main.time g)%Q -> (0 < Main.disco_speed g)%Q ->
  (Main.offsetOf (withTime g (Main.time g + 1 / Main.disco_speed g))
     == Main.offsetOf g)%Q.
Proof.
  intros Ht Hd. unfold Main.offsetOf, withTime, Qrem.
  cbn [Main.time Main.disco_speed].
  set (t := Main.time g) in *. set (d := Main.disco_speed g) in *.
  assert (Hd0 : ~ (d == 0)%Q) by lra.
  assert (Ey : (t / (1 / d) == t * d)%Q) by (field; lra).
  assert (Hy : (0 <= t / (1 / d))%Q).
  { rewrite Ey. now apply Qmult_le_0_compat; [| apply Qlt_le_weak]. }
  assert (Ey' : ((t + 1 / d) / (1 / d) == t / (1 / d) + 1)%Q) by (field; lra).
  assert (Hy' : (0 <= (t + 1 / d) / (1 / d))%Q) by (rewrite Ey'; lra).
  rewrite !Qtrunc_nonneg by assumption.
  rewrite (Qfloor_comp _ _ Ey'), Qfloor_succ, inject_Z_plus.
  change (inject_Z 1) with 1%Q.
  generalize (inject_Z (Qfloor (t / (1 / d)))). intros k. field. exact Hd0.
Qed.

(** X10. The gradient is periodic in time with period [1 / disco_speed]:
    for every time that is not negative and every positive [disco_speed],
    the four corner colours at [time + 1 / disco_speed] are, channel by
    channel, the corner colours at [time]. *)
Theorem cornerColors_periodic (g : Main.GameOfLife) :
  (0 <= Main.time g)%Q -> (0 < Main.disco_speed g)%Q ->
  let later := withTime g (Main.time g + 1 / Main.disco_speed g) in
  Cell.veq (Cell.color0 (Main.cornerColors later)) (Cell.color0 (Main.cornerColors g)) /\
  Cell.veq (Cell.color1 (Main.cornerColors later)) (Cell.color1 (Main.cornerColors g)) /\
  Cell.veq (Cell.color2 (Main.cornerColors later)) (Cell.color2 (Main.cornerColors g)) /\
  Cell.veq (Cell.color3 (Main.cornerColors later)) (Cell.color3 (Main.cornerColors g)).
Proof.
  intros Ht Hd later. pose proof (offset_periodic g Ht Hd) as E. fold later in E.
  unfold Main.cornerColors, Cell.veq.
  cbn [Cell.color0 Cell.color1 Cell.color2 Cell.color3 c_r c_g c_b c_a].
  assert (H : forall ph,
    (Main.offsetOf later + ph == Main.offsetOf g + ph)%Q) by (intros; rewrite E; reflexivity).
  pose proof (hslToRgb_half_compat _ _ (H (1 # 5)%Q)) as [? [? ?]].
  pose proof (hslToRgb_half_compat _ _ (H (2 # 5)%Q)) as [? [? ?]].
  pose proof (hslToRgb_half_compat _ _ (H (3 # 5)%Q)) as [? [? ?]].
  pose proof (hslToRgb_half_compat _ _ (H (4 # 5)%Q)) as [? [? ?]].
  repeat split; try assumption; reflexivity.
Qed.

Lemma cornerColors_periodic_witness :
  let later := withTime lateGame (Main.time lateGame + 1 / Main.disco_speed lateGame) in
  Cell.veq (Cell.color0 (Main.cornerColors later)) (Cell.color0 (Main.cornerColors lateGame)) /\
  Cell.veq (Cell.color1 (Main.cornerColors later)) (Cell.color1 (Main.cornerColors lateGame)) /\
  Cell.veq (Cell.color2 (Main.cornerColors later)) (Cell.color2 (Main.cornerColors lateGame)) /\
  Cell.veq (Cell.color3 (Main.cornerColors later)) (Cell.color3 (Main.cornerColors lateGame)).
Proof.
  apply (cornerColors_periodic lateGame); vm_compute; [discriminate | reflexivity].
Defined.

(** ** main.ts: the clock over many ticks *)

Lemma ticks_succ_r (k : nat) (g : Main.GameOfLife) :
  ticks (S k) g = ticks k (Main.tick g).
Proof. unfold ticks. now rewrite Nat.iter_succ_r. Qed.

Lemma ticks_fields (k : nat) (g : Main.GameOfLife) :
  (Main.time (ticks k g) == Main.time g + inject_Z (Z.of_nat k) * (1 # 60))%Q /\
  (Main.step (ticks k g)
     == Main.step g + inject_Z (Z.of_nat k) * ((1 # 60) * Main.sim_speed g))%Q /\
  sameConfiguration g (ticks k g).
Proof.
  induction k as [| k [IHt [IHs [Hg [Hn [Hd Hs]]]]]].
  - cbn. repeat split; ring.
  - unfold ticks in *.
    change (Nat.iter (S k) Main.tick g) with (Main.tick (Nat.iter k Main.tick g)).
    set (g' := Nat.iter k Main.tick g) in *.
    cbn [Main.tick Main.time Main.step Main.gpu Main.grid_size
         Main.disco_speed Main.sim_speed].
    rewrite Nat2Z.inj_succ. unfold Z.succ. rewrite inject_Z_plus.
    change (inject_Z 1) with 1%Q.
    split; [rewrite IHt; ring |].
    split; [rewrite IHs, Hs; ring |].
    repeat split; assumption.
Qed.

(** X13. A negative [step] selects no bind group. When [step] is negative
    and not an even whole number, [Math.floor(step % 2)] is -1 or -2, the
    lookup [this.bindGroups[...]] yields no bind group, and the frame is
    not encoded. *)
Theorem negative_step_selects_no_group (g : Main.GameOfLife) (dev : Device) :
  (Main.step g < 0)%Q -> ~ (Qrem (Main.step g) 2 == 0)%Q ->
  -2 <= Main.bindGroupIndex g < 0 /\
  (forall res, Main.gpu g = Some res ->
     Main.jsIndex (Main.bindGroups res) (Main.bindGroupIndex g) = None) /\
  Main.render g dev = None.
Proof.
  intros Hneg Hrem.
  assert (Hidx : -2 <= Main.bindGroupIndex g < 0).
  { unfold Main.bindGroupIndex. unfold Qrem in *.
    set (s := Main.step g) in *.
    assert (Hhalf : (s / 2 < 0)%Q).
    { apply Qlt_shift_div_r; lra. }
    assert (Ht : Qtrunc (s / 2) = Qceiling (s / 2)).
    { unfold Qtrunc. destruct (Qle_bool 0 (s / 2)) eqn:E; [| reflexivity].
      apply Qle_bool_iff in E. lra. }
    rewrite Ht in *.
    pose proof (Qle_ceiling (s / 2)) as Hc1.
    pose proof (Qceiling_lt (s / 2)) as Hc2.
    rewrite inject_Z_sub in Hc2. change (inject_Z 1) with 1%Q in Hc2.
    set (c := inject_Z (Qceiling (s / 2))) in *.
    assert (Es : (s == 2 * (s / 2))%Q) by field.
    assert (Hr : (-2 < s - 2 * c /\ s - 2 * c < 0)%Q) by (split; lra).
    destruct Hr as [Hr1 Hr2].
    pose proof (Qfloor_le (s - 2 * c)) as Hf1.
    pose proof (Qlt_floor (s - 2 * c)) as Hf2.
    assert (Hlt : (inject_Z (Qfloor (s - 2 * c)) < inject_Z 0)%Q)
      by (change (inject_Z 0) with 0%Q; lra).
    assert (Hgt : (inject_Z (-3) < inject_Z (Qfloor (s - 2 * c)))%Q).
    { rewrite inject_Z_plus in Hf2. change (inject_Z 1) with 1%Q in Hf2.
      change (inject_Z (-3)) with (-3)%Q. lra. }
    rewrite <- Zlt_Qlt in Hlt, Hgt. lia. }
  assert (Hjs : forall A (l : list A), Main.jsIndex l (Main.bindGroupIndex g) = None).
  { intros A l. unfold Main.jsIndex.
    destruct (Main.bindGroupIndex g <? 0) eqn:E; [reflexivity | lia]. }
  split; [exact Hidx |]. split; [intros res _; apply Hjs |].
  unfold Main.render. destruct (Main.gpu g); [| reflexivity].
  cbn [mbind option_bind]. now rewrite Hjs.
Qed.

Lemma negative_step_selects_no_group_witness :
  -2 <= Main.bindGroupIndex (Main.tick rewindGame) < 0 /\
  Main.render (Main.tick rewindGame) dev8 = None.
Proof.
  destruct (negative_step_selects_no_group (Main.tick rewindGame) dev8)
    as [H1 [_ H2]].
  - reflexivity.
  - vm_compute. discriminate.
  - split; assumption.
Defined.

(** ** main.ts: setup, render and the invariant of device memory *)

Lemma cellStateArray_binary (n : Z) (random : nat -> Q) :
  binary (Main.cellStateArray n random).
Proof.
  unfold binary, Main.cellStateArray. apply Forall_forall. intros v Hv.
  apply list_elem_of_In, in_map_iff in Hv as [i [<- _]].
  destruct (Qlt_le_dec (3 # 5) (random i)); lia.
Qed.

Lemma cellStateArray_lookup (n : Z) (random : nat -> Q) (i : nat) :
  (i < Z.to_nat (n * n))%nat ->
  Main.cellStateArray n random !! i
    = Some (if Qlt_le_dec (3 # 5) (random i) then 1 else 0).
Proof.
  intros Hi. unfold Main.cellStateArray.
  change (map ?f ?l) with (f <$> l).
  rewrite list_lookup_fmap, lookup_seq_lt by exact Hi. reflexivity.
Qed.

(** X14. What [setup] leaves behind: the two cell-state buffers start with
    the same contents, [grid_size * grid_size] cells each, every cell 0 or
    1, cell [i] alive exactly when the [i]-th value of [Math.random] is
    above 0.6; the grid uniform holds the side twice, the clock is at
    zero, and the two bind groups are in place. *)
Theorem setup_initial_state (n : Z) (d s : Q) (random : nat -> Q) :
  0 <= n ->
  let g := (Main.setup (Main.constructor n d s) random).1 in
  let dev := (Main.setup (Main.constructor n d s) random).2 in
  ready g /\ wellFormed n dev /\
  Main.time g = 0%Q /\ Main.step g = 0%Q /\ Main.grid_size g = n /\
  (exists cells,
     cellData dev = [cells; cells] /\
     length cells = Z.to_nat (n * n) /\
     forall i, (i < Z.to_nat (n * n))%nat ->
       cells !! i = Some (if Qlt_le_dec (3 # 5) (random i) then 1 else 0)).
Proof.
  intros Hn g dev.
  destruct (setup_ready n d s random Hn) as [Hr Hd].
  split; [exact Hr |]. split.
  - subst dev. cbn [Main.setup snd cellData Main.constructor Main.grid_size].
    split; [exact Hd |].
    apply Forall_cons_2; [apply cellStateArray_binary |].
    apply Forall_cons_2; [apply cellStateArray_binary | apply Forall_nil_2].
  - repeat split.
    exists (Main.cellStateArray n random).
    split; [reflexivity |]. split.
    + unfold Main.cellStateArray. now rewrite length_map, length_seq.
    + intros i Hi. now apply cellStateArray_lookup.
Qed.

Lemma setup_initial_state_witness :
  let g := (Main.setup (Main.constructor 8 (1 # 2) 60) (fun _ => 1%Q)).1 in
  let dev := (Main.setup (Main.constructor 8 (1 # 2) 60) (fun _ => 1%Q)).2 in
  ready g /\ wellFormed 8 dev /\
  Main.time g = 0%Q /\ Main.step g = 0%Q /\ Main.grid_size g = 8 /\
  (exists cells,
     cellData dev = [cells; cells] /\
     length cells = Z.to_nat (8 * 8) /\
     forall i, (i < Z.to_nat (8 * 8))%nat ->
       cells !! i = Some (if Qlt_le_dec (3 # 5) ((fun _ => 1%Q) i) then 1 else 0)).
Proof.
  apply (setup_initial_state 8 (1 # 2) 60 (fun _ => 1%Q)). lia.
Defined.

Lemma simulate_value_binary (grid : vec2f) (cin : list Z) (c : Z * Z * Z)
    (k : nat) (v : Z) :
  binary cin -> Simulate.simulate grid cin c = Some (k, v) -> v = 0 \/ v = 1.
Proof.
  intros Hb Hv. destruct c as [[x y] z]. unfold Simulate.simulate in Hv.
  destruct (Simulate.aliveNeighbors grid cin x y) as [n |];
    cbn [mbind option_bind] in Hv; [| discriminate Hv].
  destruct (n =? 2).
  - destruct (cin !! Z.to_nat (Simulate.cellIndex grid x y)) as [cur |] eqn:E;
      cbn [mbind option_bind] in Hv; [| discriminate Hv].
    injection Hv as _ <-. eapply (proj1 (Forall_lookup _ _) Hb); eauto.
  - destruct (n =? 3); injection Hv as _ <-; lia.
Qed.

Lemma rowMajor_inj (n x y x' y' : Z) :
  0 <= x < n -> 0 <= y -> 0 <= x' < n -> 0 <= y' ->
  rowMajor n (x, y) = rowMajor n (x', y') -> x = x' /\ y = y'.
Proof.
  unfold rowMajor. cbn [fst snd]. intros Hx Hy Hx' Hy' E.
  assert (E' : y * n + x = y' * n + x') by nia.
  assert (y = y') by nia. split; [nia | assumption].
Qed.

(** What a call of [render] leaves in every cell of the buffer it writes,
    for every grid side: the stored value of the cell's invocation inside
    the dispatched square, the old contents outside it. *)
Lemma render_cell_values (g : Main.GameOfLife) (dev : Device) (n : Z) :
  ready g -> Main.grid_size g = n -> 0 < n -> n * n < U32.modulus ->
  deviceFor n dev -> (0 <= Main.step g)%Q ->
  exists (p : nat) (cin cout cout' : list Z) (dev' : Device) (f : Main.Frame),
    Main.render g dev = Some (g, dev', f) /\
    (p = 0 \/ p = 1)%nat /\
    Z.of_nat p = Qfloor (Main.step g) mod 2 /\
    cellData dev !! p = Some cin /\
    cellData dev !! (1 - p)%nat = Some cout /\
    length cin = Z.to_nat (n * n) /\ length cout = Z.to_nat (n * n) /\
    cellData dev' !! p = Some cin /\
    cellData dev' !! (1 - p)%nat = Some cout' /\
    length cout' = Z.to_nat (n * n) /\
    length (cellData dev') = 2%nat /\
    uniformData dev' = gridUniform n n /\
    forall x y, 0 <= x < n -> 0 <= y < n ->
      (x < dispatchedSide n /\ y < dispatchedSide n ->
       exists v,
         Simulate.simulate (gridUniform n n) cin (x, y, 0)
           = Some (rowMajor n (x, y), v) /\
         cout' !! rowMajor n (x, y) = Some v) /\
      (~ (x < dispatchedSide n /\ y < dispatchedSide n) ->
       cout' !! rowMajor n (x, y) = cout !! rowMajor n (x, y)).
Proof.
  intros Hr Hn Hpos Hfit Hdev Hstep.
  destruct (render_runs g dev n Hr Hn Hpos Hfit Hdev Hstep)
    as [p [cin [cout [cout' [dev' [drawn
         [Hp [Hpar [Hcin [Hcout [Hrender [Hu' [Hi' [Ho' [Hl' [Hn' Hw']]]]]]]]]]]]]]]].
  assert (Hlens : length cin = Z.to_nat (n * n) /\ length cout = Z.to_nat (n * n)).
  { destruct Hdev as [_ [a [b [Hcd [Ha Hb]]]]]. rewrite Hcd in Hcin, Hcout.
    destruct Hp as [-> | ->]; cbn in Hcin, Hcout;
      injection Hcin as <-; injection Hcout as <-; split; assumption. }
  destruct Hlens as [Hlen Hlen'].
  exists p, cin, cout, cout', dev'. eexists.
  split; [exact Hrender |].
  do 11 (split; [assumption |]).
  intros x y Hx Hy. split.
  - intros [Hdx Hdy].
    destruct (simulate_defined n n Hpos Hpos Hfit cin Hlen (x, y, 0)) as [v Hv].
    cbn [fst snd] in Hv.
    rewrite (cellIndex_own n n Hpos Hpos Hfit x y Hx Hy) in Hv.
    exists v. split; [exact Hv |].
    apply Hw'.
    + intros [[x' y'] z'] Hc Hk. cbn [fst snd] in Hk.
      apply (invocation_in_grid n Hpos) in Hc as [Hx' [Hy' ->]].
      rewrite (cellIndex_own n n Hpos Hpos Hfit) in Hk by assumption.
      destruct (rowMajor_inj n x' y' x y) as [-> ->]; try lia; [exact Hk |].
      exact Hv.
    + left. exists (x, y, 0). split.
      * apply elem_of_invocations. unfold dispatchedSide in *. lia.
      * cbn [fst snd]. now rewrite (cellIndex_own n n Hpos Hpos Hfit) by assumption.
  - intros Hout.
    destruct (lookup_lt_is_Some_2 cout (rowMajor n (x, y))) as [old Hold].
    { unfold rowMajor. cbn [fst snd]. nia. }
    rewrite Hold. apply Hw'; [| now right].
    intros [[x' y'] z'] Hc Hk. exfalso. cbn [fst snd] in Hk.
    pose proof Hc as Hc'.
    apply (invocation_in_grid n Hpos) in Hc as [Hx' [Hy' ->]].
    apply elem_of_invocations in Hc'.
    rewrite (cellIndex_own n n Hpos Hpos Hfit) in Hk by assumption.
    destruct (rowMajor_inj n x' y' x y) as [-> ->]; try lia; [exact Hk |].
    apply Hout. unfold dispatchedSide. lia.
Qed.

Lemma index_as_cell (n : Z) (k : nat) :
  0 < n -> (k < Z.to_nat (n * n))%nat ->
  0 <= Z.of_nat k mod n < n /\ 0 <= Z.of_nat k / n < n /\
  rowMajor n (Z.of_nat k mod n, Z.of_nat k / n) = k.
Proof.
  intros Hn Hk.
  destruct (instance_in_grid n n (Z.of_nat k) Hn ltac:(lia)) as [Hx [Hy E]].
  split; [exact Hx |]. split; [exact Hy |].
  unfold rowMajor. cbn [fst snd]. rewrite E. apply Nat2Z.id.
Qed.

Lemma render_keeps_wellFormed (g : Main.GameOfLife) (dev : Device) (n : Z) :
  ready g -> Main.grid_size g = n -> 0 < n -> n * n < U32.modulus ->
  wellFormed n dev -> (0 <= Main.step g)%Q ->
  exists (dev' : Device) (f : Main.Frame),
    Main.render g dev = Some (g, dev', f) /\ wellFormed n dev'.
Proof.
  intros Hr Hn Hpos Hfit [Hdev Hbin] Hstep.
  destruct (render_cell_values g dev n Hr Hn Hpos Hfit Hdev Hstep)
    as (p & cin & cout & cout' & dev' & f & Hrender & Hp & _ & Hcin & Hcout &
        Hlen & Hlen' & Hi' & Ho' & Hl' & Hn' & Hu' & Hcells).
  exists dev', f. split; [exact Hrender |].
  assert (Bin : binary cin) by (eapply (proj1 (Forall_lookup _ _) Hbin); eauto).
  assert (Bout : binary cout) by (eapply (proj1 (Forall_lookup _ _) Hbin); eauto).
  assert (Bout' : binary cout').
  { apply Forall_lookup. intros k v Hk.
    assert (Hlt : (k < Z.to_nat (n * n))%nat)
      by (rewrite <- Hl'; eapply lookup_lt_Some; eauto).
    destruct (index_as_cell n k Hpos Hlt) as [Hx [Hy E]].
    destruct (Hcells _ _ Hx Hy) as [Hin Hout]. rewrite E in Hin, Hout.
    destruct (decide (Z.of_nat k mod n < dispatchedSide n /\
                      Z.of_nat k / n < dispatchedSide n)) as [Hd | Hd].
    - destruct (Hin Hd) as [v' [Hsim Hv']].
      rewrite Hv' in Hk. injection Hk as <-.
      exact (simulate_value_binary _ _ _ _ _ Bin Hsim).
    - rewrite (Hout Hd) in Hk. eapply (proj1 (Forall_lookup _ _) Bout); eauto. }
  split.
  - apply (deviceFor_after n dev' p cin cout'); assumption.
  - apply Forall_lookup. intros j buf Hj.
    assert (Hj2 : (j < 2)%nat) by (rewrite <- Hn'; eapply lookup_lt_Some; eauto).
    destruct Hp as [-> | ->]; destruct j as [| [| j]]; try lia;
      cbn [Nat.sub] in *; congruence.
Qed.

(** X15. A frame keeps device memory well formed, for every grid side: a
    call of [render] on two buffers of [n * n] zeros and ones completes and
    leaves two buffers of [n * n] zeros and ones, the grid uniform
    untouched. *)
Theorem render_preserves_invariant (g : Main.GameOfLife) (dev : Device) (n : Z) :
  ready g -> Main.grid_size g = n -> 0 < n -> n * n < U32.modulus ->
  wellFormed n dev -> (0 <= Main.step g)%Q ->
  exists (dev' : Device) (f : Main.Frame),
    Main.render g dev = Some (g, dev', f) /\
    wellFormed n dev' /\
    uniformData dev' = uniformData dev.
Proof.
  intros Hr Hn Hpos Hfit Hwf Hstep.
  destruct (render_keeps_wellFormed g dev n Hr Hn Hpos Hfit Hwf Hstep)
    as [dev' [f [Hrender Hwf']]].
  exists dev', f. split; [exact Hrender |]. split; [exact Hwf' |].
  destruct Hwf as [[Hu _] _]. destruct Hwf' as [[Hu' _] _]. congruence.
Qed.

Lemma setup_wellFormed (n : Z) (d s : Q) (random : nat -> Q) :
  0 <= n -> wellFormed n (Main.setup (Main.constructor n d s) random).2.
Proof.
  intros Hn. split; [apply (setup_ready n d s random Hn) |].
  cbn [Main.setup snd cellData Main.constructor Main.grid_size].
  apply Forall_cons_2; [apply cellStateArray_binary |].
  apply Forall_cons_2; [apply cellStateArray_binary | apply Forall_nil_2].
Qed.

Lemma wellFormed_dev8 : wellFormed 8 dev8.
Proof. apply (setup_wellFormed 8 (1 # 2) 60 (fun _ => 1%Q)). lia. Qed.

Lemma render_preserves_invariant_witness :
  exists (dev' : Device) (f : Main.Frame),
    Main.render game8 dev8 = Some (game8, dev', f) /\
    wellFormed 8 dev' /\
    uniformData dev' = uniformData dev8.
Proof.
  apply (render_preserves_invariant game8 dev8 8).
  - eexists. split; reflexivity.
  - reflexivity.
  - lia.
  - vm_compute. reflexivity.
  - exact wellFormed_dev8.
  - vm_compute. discriminate.
Defined.

(** X16. What the dispatch does not reach stays as it was. For every grid
    side [n], a frame leaves every cell outside the square of side
    [8 * floor (n / 8)] of the written buffer with the value that buffer
    held before the frame: the state of two updates earlier, not a new
    one. On a grid of side below 8 no invocation runs at all and both
    buffers keep their contents for ever. *)
Theorem undispatched_cells_keep_their_value (g : Main.GameOfLife) (dev : Device) (n : Z) :
  ready g -> Main.grid_size g = n -> 0 < n -> n * n < U32.modulus ->
  deviceFor n dev -> (0 <= Main.step g)%Q ->
  exists (p : nat) (cout cout' : list Z) (dev' : Device) (f : Main.Frame),
    Main.render g dev = Some (g, dev', f) /\
    Z.of_nat p = Qfloor (Main.step g) mod 2 /\
    cellData dev !! (1 - p)%nat = Some cout /\
    cellData dev' !! (1 - p)%nat = Some cout' /\
    (forall x y, 0 <= x < n -> 0 <= y < n ->
       dispatchedSide n <= x \/ dispatchedSide n <= y ->
       cout' !! rowMajor n (x, y) = cout !! rowMajor n (x, y)) /\
    (n < 8 -> cellData dev' = cellData dev /\ Main.frameStores f = []).
Proof.
  intros Hr Hn Hpos Hfit Hdev Hstep.
  pose proof (render_runs g dev n Hr Hn Hpos Hfit Hdev Hstep)
    as (p0 & cin0 & cout0 & cout0' & dev0' & drawn & _ & _ & _ & _ & Hrender0 & _).
  destruct (render_cell_values g dev n Hr Hn Hpos Hfit Hdev Hstep)
    as (p & cin & cout & cout' & dev' & f & Hrender & Hp & Hpar & Hcin & Hcout &
        Hlen & Hlen' & Hi' & Ho' & Hl' & Hn' & Hu' & Hcells).
  exists p, cout, cout', dev', f.
  split; [exact Hrender |]. split; [exact Hpar |].
  split; [exact Hcout |]. split; [exact Ho' |]. split.
  - intros x y Hx Hy Hout. apply (Hcells x y Hx Hy). lia.
  - intros Hsmall.
    assert (Hside : dispatchedSide n = 0).
    { unfold dispatchedSide. rewrite Z.div_small by lia. reflexivity. }
    assert (Eout : cout' = cout).
    { apply list_eq. intros k.
      destruct (decide (k < Z.to_nat (n * n))%nat) as [Hk | Hk].
      - destruct (index_as_cell n k Hpos Hk) as [Hx [Hy E]].
        rewrite <- E. apply (Hcells _ _ Hx Hy). lia.
      - rewrite !lookup_ge_None_2 by lia. reflexivity. }
    subst cout'. split.
    + apply list_eq. intros j.
      destruct Hdev as [_ [a [b [Hcd _]]]].
      destruct (decide (j < 2)%nat) as [Hj | Hj].
      * destruct Hp as [-> | ->]; destruct j as [| [| j]]; try lia;
          cbn [Nat.sub] in *; congruence.
      * rewrite !lookup_ge_None_2; [reflexivity | rewrite Hcd; cbn; lia | lia].
    + rewrite Hrender0 in Hrender. injection Hrender as _ <-.
      cbn [Main.frameStores]. rewrite Z.div_small by lia. reflexivity.
Qed.

Lemma undispatched_cells_keep_their_value_witness :
  exists (p : nat) (cout cout' : list Z) (dev' : Device) (f : Main.Frame),
    Main.render game12 dev12 = Some (game12, dev', f) /\
    cellData dev12 !! (1 - p)%nat = Some cout /\
    cellData dev' !! (1 - p)%nat = Some cout' /\
    cout' !! rowMajor 12 (8, 0) = cout !! rowMajor 12 (8, 0).
Proof.
  destruct (undispatched_cells_keep_their_value game12 dev12 12)
    as (p & cout & cout' & dev' & f & H1 & _ & H2 & H3 & H4 & _).
  - eexists. split; reflexivity.
  - reflexivity.
  - lia.
  - vm_compute. reflexivity.
  - split; [reflexivity |]. eexists _, _. repeat split; reflexivity.
  - vm_compute. discriminate.
  - exists p, cout, cout', dev', f. repeat split; try assumption.
    apply H4; [lia | lia |]. left. vm_compute. discriminate.
Defined.

Lemma tick_keeps_ready (g : Main.GameOfLife) :
  ready g -> ready (Main.tick g).
Proof. intros [res [H1 H2]]. exists res. split; assumption. Qed.

(** X17. The frame loop never fails: from a game that [setup] prepared,
    with a [sim_speed] and a [step] that are not negative, every
    interleaving of [tick] and [render] runs to its end, for every grid
    side, and leaves the device with two buffers of [n * n] zeros and
    ones and [step] not negative; no call of [render] in it drops its
    frame. *)
Theorem frame_loop_never_fails (calls : list Main.Call) (n : Z) :
  forall (g : Main.GameOfLife) (dev : Device),
    ready g -> Main.grid_size g = n -> 0 < n -> n * n < U32.modulus ->
    wellFormed n dev -> (0 <= Main.step g)%Q -> (0 <= Main.sim_speed g)%Q ->
    exists g' dev',
      Main.run calls g dev = Some (g', dev') /\
      ready g' /\ wellFormed n dev' /\ (0 <= Main.step g')%Q /\
      Main.droppedFrames calls g dev = 0%nat.
Proof.
  induction calls as [| c rest IH]; intros g dev Hr Hn Hpos Hfit Hwf Hstep Hspeed.
  - exists g, dev. split; [reflexivity |]. split; [exact Hr |].
    split; [exact Hwf |]. split; [exact Hstep | reflexivity].
  - destruct c; cbn [Main.run Main.droppedFrames].
    + apply IH;
        [ now apply tick_keeps_ready | exact Hn | exact Hpos | exact Hfit
        | exact Hwf | | exact Hspeed ].
      cbn [Main.tick Main.step].
      assert (0 <= (1 # 60) * Main.sim_speed g)%Q
        by (apply Qmult_le_0_compat; [lra | exact Hspeed]).
      lra.
    + destruct (render_keeps_wellFormed g dev n Hr Hn Hpos Hfit Hwf Hstep)
        as [dev' [f [Hrender Hwf']]].
      rewrite Hrender. cbn [mbind option_bind fst snd].
      now apply IH.
Qed.

Lemma frame_loop_never_fails_witness :
  exists g' dev',
    Main.run [Main.CallTick; Main.CallRender; Main.CallTick; Main.CallRender]
      game8 dev8 = Some (g', dev') /\
    ready g' /\ wellFormed 8 dev' /\ (0 <= Main.step g')%Q /\
    Main.droppedFrames
      [Main.CallTick; Main.CallRender; Main.CallTick; Main.CallRender] game8 dev8
      = 0%nat.
Proof.
  apply (frame_loop_never_fails _ 8 game8 dev8).
  - eexists. split; reflexivity.
  - reflexivity.
  - lia.
  - vm_compute. reflexivity.
  - exact wellFormed_dev8.
  - vm_compute. discriminate.
  - vm_compute. discriminate.
Defined.

(** ** The update as one step of the automaton *)

(** X18. One frame is one generation wherever the dispatch reaches. On a
    grid whose side is a multiple of 8, with buffers of zeros and ones, a
    call of [render] leaves the buffer it reads as it was and the other
    buffer holding, at every cell, the state that the transition table
    gives for the cell's state and the number of live cells among the
    eight cells that [simulate] reads. *)
Theorem update_applies_rule_everywhere (g : Main.GameOfLife) (dev : Device) (n : Z) :
  ready g -> Main.grid_size g = n -> 0 < n -> n * n < U32.modulus ->
  wellFormed n dev -> (0 <= Main.step g)%Q -> (8 | n) ->
  exists (p : nat) (cin cout' : list Z) (dev' : Device) (f : Main.Frame),
    Main.render g dev = Some (g, dev', f) /\
    Z.of_nat p = Qfloor (Main.step g) mod 2 /\
    cellData dev !! p = Some cin /\
    cellData dev' !! p = Some cin /\
    cellData dev' !! (1 - p)%nat = Some cout' /\
    forall x y, 0 <= x < n -> 0 <= y < n ->
      exists cur,
        cin !! rowMajor n (x, y) = Some cur /\
        cout' !! rowMajor n (x, y)
          = Some (Z.b2z (lifeRule (cur =? 1)
                           (liveAmong n cin (codeNeighbors n n x y)))).
Proof.
  intros Hr Hn Hpos Hfit [Hdev Hbin] Hstep H8.
  destruct (render_updates_every_cell g dev n Hr Hn Hpos Hfit Hdev Hstep H8)
    as (p & cin & cout' & dev' & f & Hrender & Hpar & Hcin & Hi' & Ho' & Hcells).
  exists p, cin, cout', dev', f.
  do 5 (split; [assumption |]).
  assert (Bin : binary cin) by (eapply (proj1 (Forall_lookup _ _) Hbin); eauto).
  intros x y Hx Hy.
  destruct (Hcells Bin x y Hx Hy) as (cur & cnt & Hcur & -> & Hv).
  exists cur. split; assumption.
Qed.

Lemma update_applies_rule_everywhere_witness :
  exists (p : nat) (cin cout' : list Z) (dev' : Device) (f : Main.Frame),
    Main.render game8 dev8 = Some (game8, dev', f) /\
    cellData dev8 !! p = Some cin /\
    cellData dev' !! (1 - p)%nat = Some cout' /\
    exists cur,
      cin !! rowMajor 8 (7, 0) = Some cur /\
      cout' !! rowMajor 8 (7, 0)
        = Some (Z.b2z (lifeRule (cur =? 1)
                         (liveAmong 8 cin (codeNeighbors 8 8 7 0)))).
Proof.
  destruct (update_applies_rule_everywhere game8 dev8 8)
    as (p & cin & cout' & dev' & f & H1 & _ & H2 & _ & H3 & H4).
  - eexists. split; reflexivity.
  - reflexivity.
  - lia.
  - vm_compute. reflexivity.
  - exact wellFormed_dev8.
  - vm_compute. discriminate.
  - exists 1. reflexivity.
  - exists p, cin, cout', dev', f. repeat split; try assumption.
    apply H4; lia.
Defined.

(** X19. On the grids of [main] the update is the Game of Life on the
    torus. When the side is a multiple of 8 that divides [2^32] (8, 16, ...,
    256, ...), a call of [render] writes, at every cell, the state that the
    transition table gives for the cell's state and the number of live
    cells among its eight Moore neighbours
    [((x ± 1) mod n, (y ± 1) mod n)], the edges included. *)
Theorem update_is_torus_life_step (g : Main.GameOfLife) (dev : Device) (n : Z) :
  ready g -> Main.grid_size g = n -> 0 < n -> n * n < U32.modulus ->
  wellFormed n dev -> (0 <= Main.step g)%Q ->
  (8 | n) -> (n | U32.modulus) ->
  exists (p : nat) (cin cout' : list Z) (dev' : Device) (f : Main.Frame),
    Main.render g dev = Some (g, dev', f) /\
    Z.of_nat p = Qfloor (Main.step g) mod 2 /\
    cellData dev !! p = Some cin /\
    cellData dev' !! (1 - p)%nat = Some cout' /\
    forall x y, 0 <= x < n -> 0 <= y < n ->
      exists cur,
        cin !! rowMajor n (x, y) = Some cur /\
        cout' !! rowMajor n (x, y)
          = Some (Z.b2z (lifeRule (cur =? 1)
                           (liveAmong n cin (torusNeighbors n n x y)))).
Proof.
  intros Hr Hn Hpos Hfit [Hdev Hbin] Hstep H8 H32.
  destruct (render_updates_every_cell g dev n Hr Hn Hpos Hfit Hdev Hstep H8)
    as (p & cin & cout' & dev' & f & Hrender & Hpar & Hcin & Hi' & Ho' & Hcells).
  exists p, cin, cout', dev', f.
  do 4 (split; [assumption |]).
  assert (Bin : binary cin) by (eapply (proj1 (Forall_lookup _ _) Hbin); eauto).
  intros x y Hx Hy.
  destruct (Hcells Bin x y Hx Hy) as (cur & cnt & Hcur & -> & Hv).
  exists cur. split; [assumption |].
  now rewrite <- (codeNeighbors_torus_divisor n n Hpos Hpos Hfit x y H32 H32 Hx Hy).
Qed.

Lemma update_is_torus_life_step_witness :
  exists (p : nat) (cin cout' : list Z) (dev' : Device) (f : Main.Frame),
    Main.render game8 dev8 = Some (game8, dev', f) /\
    cellData dev8 !! p = Some cin /\
    cellData dev' !! (1 - p)%nat = Some cout' /\
    exists cur,
      cin !! rowMajor 8 (0, 0) = Some cur /\
      cout' !! rowMajor 8 (0, 0)
        = Some (Z.b2z (lifeRule (cur =? 1)
                         (liveAmong 8 cin (torusNeighbors 8 8 0 0)))).
Proof.
  destruct (update_is_torus_life_step game8 dev8 8)
    as (p & cin & cout' & dev' & f & H1 & _ & H2 & H3 & H4).
  - eexists. split; reflexivity.
  - reflexivity.
  - lia.
  - vm_compute. reflexivity.
  - exact wellFormed_dev8.
  - vm_compute. discriminate.
  - exists 1. reflexivity.
  - exists 536870912. reflexivity.
  - exists p, cin, cout', dev', f. repeat split; try assumption.
    apply H4; lia.
Defined.

(** ** The order of the invocations *)

Section Order.

Variables w h : Z.
Hypothesis Hw : 0 < w.
Hypothesis Hh : 0 < h.
Hypothesis Hfit : w * h < U32.modulus.
Variable bg : BindGroup.
Variables i o : nat.
Hypothesis Hin : binding2 bg = CellState i.
Hypothesis Hout : binding3 bg = CellState o.
Hypothesis Hio : i <> o.
Variable cin : list Z.
Hypothesis Hlen : length cin = Z.to_nat (w * h).

(** Two schedules with the same invocations, all inside the grid, leave
    the same contents in the written buffer. *)
Lemma written_by_same_invocations (s1 s2 : list (Z * Z * Z)) (cout c1 c2 : list Z) :
  (forall c, c ∈ s1 <-> c ∈ s2) ->
  (forall c, c ∈ s1 -> 0 <= c.1.1 < w /\ 0 <= c.1.2 < h) ->
  length cout = Z.to_nat (w * h) ->
  length c1 = length cout -> length c2 = length cout ->
  writtenBy w h cin s1 cout c1 -> writtenBy w h cin s2 cout c2 ->
  c1 = c2.
Proof using Hw Hh Hfit Hlen.
  clear Hin Hout Hio.
  intros Hsame Hgrid Hlo Hl1 Hl2 W1 W2. apply list_eq. intros k.
  destruct (decide (k < length cout)%nat) as [Hk | Hk];
    [| rewrite !lookup_ge_None_2 by lia; reflexivity].
  destruct (lookup_lt_is_Some_2 cout k Hk) as [old Hold].
  set (idx := fun c : Z * Z * Z =>
                Z.to_nat (Simulate.cellIndex (gridUniform w h) c.1.1 c.1.2)).
  destruct (decide (k ∈ idx <$> s1)) as [Hel | Hel].
  - apply list_elem_of_fmap in Hel as [c [Hkc Hc]].
    destruct (simulate_defined w h Hw Hh Hfit cin Hlen c) as [v Hv].
    fold (idx c) in Hv. rewrite <- Hkc in Hv.
    assert (Hall : forall c', c' ∈ s1 -> idx c' = k ->
              Simulate.simulate (gridUniform w h) cin c' = Some (k, v)).
    { intros c' Hc' Hk'. rewrite <- Hv.
      destruct c as [[x y] z], c' as [[x' y'] z'].
      destruct (Hgrid _ Hc) as [Hx Hy]. destruct (Hgrid _ Hc') as [Hx' Hy'].
      cbn [fst snd] in *. subst idx. cbn [fst snd] in *.
      rewrite !(cellIndex_own w h Hw Hh Hfit) in * by assumption.
      destruct (rowMajor_inj w x' y' x y) as [-> ->]; try lia.
      { unfold rowMajor. cbn [fst snd]. congruence. }
      reflexivity. }
    rewrite (W1 k v); [| exact Hall | left; eauto].
    rewrite (W2 k v); [reflexivity | | left; exists c; split; [now apply Hsame | auto]].
    intros c' Hc'. apply Hall. now apply Hsame.
  - assert (Hnone : forall c', c' ∈ s1 -> idx c' <> k).
    { intros c' Hc' Hk'. apply Hel. apply list_elem_of_fmap. eauto. }
    rewrite (W1 k old); [| intros c' Hc' Hk'; now destruct (Hnone c' Hc') | now right].
    rewrite (W2 k old); [reflexivity | | now right].
    intros c' Hc' Hk'. apply Hsame in Hc'. now destruct (Hnone c' Hc').
Qed.

(** X20. The result of a compute pass does not depend on the order in which
    the GPU runs the invocations. For invocations inside the grid, under a
    bind group that reads one buffer and writes another, any two orders of
    the same invocations complete with the same device memory, and
    perform the same stores. *)
Theorem computePass_order_irrelevant (s1 s2 : list (Z * Z * Z)) (dev : Device)
    (cout : list Z) :
  s1 ≡ₚ s2 ->
  (forall c, c ∈ s1 -> 0 <= c.1.1 < w /\ 0 <= c.1.2 < h) ->
  uniformData dev = gridUniform w h ->
  cellData dev !! i = Some cin ->
  cellData dev !! o = Some cout ->
  length cout = Z.to_nat (w * h) ->
  exists dev' log1 log2,
    computePass bg s1 dev = Some (dev', log1) /\
    computePass bg s2 dev = Some (dev', log2) /\
    log1 ≡ₚ log2.
Proof using Hw Hh Hfit Hlen Hin Hout Hio.
  intros Hperm Hgrid Hu Hi Ho Hlo.
  destruct (computePass_runs w h Hw Hh Hfit bg i o Hin Hout Hio cin Hlen s1
              dev cout Hu Hi Ho Hlo)
    as (d1 & c1 & Hrun1 & Hu1 & Hv1 & Hc1 & Hi1 & Ho1 & Hl1 & Hn1 & Hk1 & W1).
  destruct (computePass_runs w h Hw Hh Hfit bg i o Hin Hout Hio cin Hlen s2
              dev cout Hu Hi Ho Hlo)
    as (d2 & c2 & Hrun2 & Hu2 & Hv2 & Hc2 & Hi2 & Ho2 & Hl2 & Hn2 & Hk2 & W2).
  assert (Hsame : forall c, c ∈ s1 <-> c ∈ s2) by (intros c; now rewrite Hperm).
  assert (E : c1 = c2)
    by (eapply (written_by_same_invocations s1 s2 cout); eassumption).
  subst c2.
  assert (Ed : d1 = d2).
  { destruct d1 as [v1 u1 k1 cd1], d2 as [v2 u2 k2 cd2]. cbn in *.
    f_equal; try congruence.
    apply list_eq. intros j. destruct (decide (j = o)) as [-> | Hj].
    - congruence.
    - now rewrite Hk1, Hk2. }
  subst d2. exists d1. eexists _, _.
  split; [exact Hrun1 |]. split; [exact Hrun2 |].
  now rewrite Hperm.
Qed.

End Order.

Lemma computePass_order_irrelevant_witness :
  exists dev' log1 log2,
    computePass (MkBindGroup GridUniforms ColorUniforms (CellState 0) (CellState 1))
      (invocations 1 1 1) blinkerDev = Some (dev', log1) /\
    computePass (MkBindGroup GridUniforms ColorUniforms (CellState 0) (CellState 1))
      (reverse (invocations 1 1 1)) blinkerDev = Some (dev', log2) /\
    log1 ≡ₚ log2.
Proof.
  apply (computePass_order_irrelevant 8 8 ltac:(lia) ltac:(lia) eq_refl
           (MkBindGroup GridUniforms ColorUniforms (CellState 0) (CellState 1))
           0%nat 1%nat eq_refl eq_refl ltac:(lia) blinkerRow8 eq_refl
           (invocations 1 1 1) (reverse (invocations 1 1 1)) blinkerDev blinkerRow8).
  - symmetry. apply reverse_Permutation.
  - intros [[x y] z] Hc. apply elem_of_invocations in Hc. cbn [fst snd]. lia.
  - reflexivity.
  - reflexivity.
  - reflexivity.
  - reflexivity.
Defined.

(** ** What a frame shows *)

Lemma computePass_keeps_uniforms (bg : BindGroup) (sched : list (Z * Z * Z)) :
  forall dev r,
    computePass bg sched dev = Some r ->
    colorData r.1 = colorData dev /\ vertexData r.1 = vertexData dev /\
    uniformData r.1 = uniformData dev.
Proof.
  induction sched as [| c rest IH]; intros dev r Hrun.
  - cbn in Hrun. injection Hrun as <-. repeat split.
  - cbn [computePass] in Hrun.
    destruct (invoke bg dev c) as [r1 |] eqn:E1;
      cbn [mbind option_bind] in Hrun; [| discriminate Hrun].
    destruct (computePass bg rest r1.1) as [r2 |] eqn:E2;
      cbn [mbind option_bind] in Hrun; [| discriminate Hrun].
    injection Hrun as <-. cbn [fst].
    destruct (IH _ _ E2) as [Hc [Hv Hu]]. rewrite Hc, Hv, Hu.
    unfold invoke in E1.
    destruct (readStorage dev (binding2 bg)) as [cin |];
      cbn [mbind option_bind] in E1; [| discriminate E1].
    destruct (Simulate.simulate (uniformData dev) cin c) as [wr |];
      cbn [mbind option_bind] in E1; [| discriminate E1].
    destruct (writeStorage dev (binding3 bg) wr.1 wr.2) as [d1 |] eqn:E3;
      cbn [mbind option_bind] in E1; [| discriminate E1].
    injection E1 as <-. cbn [fst].
    unfold writeStorage in E3. destruct (binding3 bg); try discriminate E3.
    destruct (cellData dev !! i) as [buf |];
      cbn [mbind option_bind] in E3; [| discriminate E3].
    injection E3 as <-. repeat split.
Qed.

Lemma draw_lookup (grid : vec2f) (states : list Z) (vs : list vec2f) (ic : Z) (k : nat) :
  (k < Z.to_nat ic)%nat ->
  Cell.draw grid states vs 6 ic !! k
    = Some (Cell.drawInstance grid states (take 6 vs) (Z.of_nat k)).
Proof.
  intros Hk. unfold Cell.draw.
  change (map ?f ?l) with (f <$> l).
  rewrite list_lookup_fmap, lookup_seq_lt by exact Hk. reflexivity.
Qed.

(** X21. A frame shows the generation it reads, not the one it computes.
    A call of [render] uploads the corner colours of the current [time],
    and the instance it draws for each cell of the grid runs the vertex
    shader on the six vertices of the quad with the state of that cell in
    the buffer that the update of the same frame reads; the buffer that
    the update writes is shown by the next frame at the earliest. *)
Theorem frame_shows_the_buffer_read (g : Main.GameOfLife) (dev : Device) (n : Z) :
  ready g -> Main.grid_size g = n -> 0 < n -> n * n < U32.modulus ->
  deviceFor n dev -> (0 <= Main.step g)%Q -> vertexData dev = Main.vertices ->
  exists (p : nat) (cin : list Z) (dev' : Device) (f : Main.Frame),
    Main.render g dev = Some (g, dev', f) /\
    Z.of_nat p = Qfloor (Main.step g) mod 2 /\
    cellData dev !! p = Some cin /\
    binding2 (Main.frameBindGroup f) = CellState p /\
    colorData dev' = Main.cornerColors g /\
    forall x y, 0 <= x < n -> 0 <= y < n ->
      Main.frameDraw f !! rowMajor n (x, y)
        = Some (map (fun v => Cell.vertexMain (gridUniform n n) cin v (y * n + x))
                    Main.vertices).
Proof.
  intros Hr Hn Hpos Hfit Hdev Hstep Hvs.
  destruct (render_runs g dev n Hr Hn Hpos Hfit Hdev Hstep)
    as (p & cin & cout & cout' & dev' & drawn & Hp & Hpar & Hcin & Hcout &
        Hrender & _).
  exists p, cin, dev'. eexists.
  split; [exact Hrender |]. split; [exact Hpar |]. split; [exact Hcin |].
  split; [reflexivity |].
  pose proof Hrender as Hr2. unfold Main.render in Hr2.
  destruct Hr as [res [Hres Hbg]]. rewrite Hres in Hr2.
  cbn [mbind option_bind] in Hr2.
  destruct (Main.jsIndex (Main.bindGroups res) (Main.bindGroupIndex g))
    as [bg |] eqn:Ebg; cbn [mbind option_bind] in Hr2; [| discriminate Hr2].
  destruct (readStorage _ (binding2 bg)) as [states |] eqn:Est;
    cbn [mbind option_bind] in Hr2; [| discriminate Hr2].
  repeat match type of Hr2 with
  | (mbind _ (enforceRange ?q)) = Some _ =>
      destruct (enforceRange q);
      cbn [mbind option_bind] in Hr2; [| discriminate Hr2]
  end.
  destruct (computePass _ _ _) as [r |] eqn:Erun;
    cbn [mbind option_bind] in Hr2; [| discriminate Hr2].
  injection Hr2. intros _ _ _ _ Hdrawn Hbg' Hdev'.
  destruct (computePass_keeps_uniforms _ _ _ _ Erun) as [Hc _].
  rewrite Hdev' in Hc. cbn [colorData] in Hc.
  split; [exact Hc |].
  intros x y Hx Hy. cbn [Main.frameDraw]. rewrite <- Hdrawn.
  rewrite draw_lookup.
  - cbn [uniformData vertexData]. rewrite Hvs.
    destruct Hdev as [Hu _]. rewrite Hu.
    assert (Es : states = cin).
    { rewrite Hbg' in Est. cbn [binding2 readStorage cellData] in Est. congruence. }
    rewrite Es. unfold Cell.drawInstance, rowMajor. cbn [fst snd].
    rewrite Z2Nat.id by nia. reflexivity.
  - unfold Main.drawInstanceCount, rowMajor. cbn [fst snd]. rewrite Hn. nia.
Qed.

Lemma frame_shows_the_buffer_read_witness :
  exists (p : nat) (cin : list Z) (dev' : Device) (f : Main.Frame),
    Main.render game8 dev8 = Some (game8, dev', f) /\
    cellData dev8 !! p = Some cin /\
    colorData dev' = Main.cornerColors game8 /\
    Main.frameDraw f !! rowMajor 8 (3, 2)
      = Some (map (fun v => Cell.vertexMain (gridUniform 8 8) cin v (2 * 8 + 3))
                  Main.vertices).
Proof.
  destruct (frame_shows_the_buffer_read game8 dev8 8)
    as (p & cin & dev' & f & H1 & _ & H2 & _ & H3 & H4).
  - eexists. split; reflexivity.
  - reflexivity.
  - lia.
  - vm_compute. reflexivity.
  - split; [reflexivity |]. eexists _, _. repeat split; reflexivity.
  - vm_compute. discriminate.
  - reflexivity.
  - exists p, cin, dev', f. repeat split; try assumption.
    apply H4; lia.
Defined.

(** ** The colour ramp has no jumps *)

(** X22. Between 0 and 1 [hueToRgb] is a continuous ramp: for [p <= q] and
    [0 <= t <= t' <= 1] its values at [t] and [t'] differ by at most
    [6 * (q - p) * (t' - t)], and it takes the value [p] at both ends, so
    the wrap by one period joins without a step. *)
Theorem hueToRgb_no_jumps (p q t t' : Q) :
  (p <= q -> 0 <= t -> t <= t' -> t' <= 1 ->
   Main.hueToRgb p q t' - Main.hueToRgb p q t <= 6 * (q - p) * (t' - t) /\
   Main.hueToRgb p q t - Main.hueToRgb p q t' <= 6 * (q - p) * (t' - t) /\
   Main.hueToRgb p q 0 == p /\ Main.hueToRgb p q 1 == p)%Q.
Proof.
  intros Hpq H0 Htt H1.
  assert (Hends : (Main.hueToRgb p q 0 == p /\ Main.hueToRgb p q 1 == p)%Q).
  { split; unfold Main.hueToRgb.
    - destruct (Qlt_le_dec 0 0); [lra |].
      destruct (Qlt_le_dec 1 _); [lra |].
      destruct (Qlt_le_dec _ (1 # 6)); [ring | lra].
    - destruct (Qlt_le_dec 1 0); [lra |].
      destruct (Qlt_le_dec 1 _); [lra |].
      destruct (Qlt_le_dec _ (1 # 6)); [lra |].
      destruct (Qlt_le_dec _ (1 # 2)); [lra |].
      destruct (Qlt_le_dec _ (2 # 3)); [lra | reflexivity]. }
  destruct Hends as [He0 He1].
  cut ((Main.hueToRgb p q t' - Main.hueToRgb p q t <= 6 * (q - p) * (t' - t) /\
        Main.hueToRgb p q t - Main.hueToRgb p q t' <= 6 * (q - p) * (t' - t))%Q).
  { intros [A B]. repeat split; assumption. }
  clear He0 He1. unfold Main.hueToRgb.
  destruct (Qlt_le_dec t 0); [lra |].
  destruct (Qlt_le_dec t' 0); [lra |].
  destruct (Qlt_le_dec 1 t); [lra |].
  destruct (Qlt_le_dec 1 t'); [lra |].
  set (d := (q - p)%Q).
  assert (Hd : (0 <= d)%Q) by (subst d; lra).
  assert (P1 : (0 <= d * (t' - t))%Q) by (apply Qmult_le_0_compat; lra).
  repeat match goal with
  | |- context [Qlt_le_dec ?a ?b] => destruct (Qlt_le_dec a b)
  end; try lra; subst d; split; nra.
Qed.

Lemma hueToRgb_no_jumps_witness :
  (Main.hueToRgb (1 # 4) (3 # 4) (1 # 2) - Main.hueToRgb (1 # 4) (3 # 4) (1 # 10)
     <= 6 * ((3 # 4) - (1 # 4)) * ((1 # 2) - (1 # 10)) /\
   Main.hueToRgb (1 # 4) (3 # 4) (1 # 10) - Main.hueToRgb (1 # 4) (3 # 4) (1 # 2)
     <= 6 * ((3 # 4) - (1 # 4)) * ((1 # 2) - (1 # 10)) /\
   Main.hueToRgb (1 # 4) (3 # 4) 0 == 1 # 4 /\
   Main.hueToRgb (1 # 4) (3 # 4) 1 == 1 # 4)%Q.
Proof.
  apply (hueToRgb_no_jumps (1 # 4) (3 # 4) (1 # 10) (1 # 2));
    vm_compute; discriminate.
Defined.

(** * The frame as a whole *)

(** From [2^24] on the conversion of the instance index rounds to 24
    significant bits, ties to even. On a 4104 by 4104 grid the instance
    16777217 shows the state of cell (65, 4088), and the vertex shader
    places it at cell (64, 4088). *)
Example f32_of_u32_rounds :
  f32_of_u32 16777215 = inject_Z 16777215 /\
  f32_of_u32 16777217 = inject_Z 16777216 /\
  f32_of_u32 16777219 = inject_Z 16777220 /\
  f32_of_u32 4294967295 = inject_Z 4294967296 /\
  cellOfInstance 4104 16777217 = (65, 4088) /\
  (Qrem (f32_of_u32 16777217) 4104 == 64)%Q /\
  Qfloor (f32_of_u32 16777217 / 4104) = 4088.
Proof. repeat split. Qed.

Lemma cellsWith_binary (n : nat) (live : list nat) : binary (cellsWith n live).
Proof.
  unfold binary, cellsWith. apply Forall_forall. intros v Hv.
  apply list_elem_of_In, in_map_iff in Hv as [i [<- _]].
  destruct (bool_decide (i ∈ live)); lia.
Qed.

(** Everything a call of [render] does, on a game that [setup] prepared:
    the bind group it selects, what it draws, what it dispatches, and what
    it leaves in each of the two cell-state buffers. *)
Lemma render_effect (g : Main.GameOfLife) (dev : Device) (n : Z) :
  ready g -> Main.grid_size g = n -> 0 < n -> n * n < U32.modulus ->
  deviceFor n dev -> (0 <= Main.step g)%Q ->
  exists (res : Main.Resources) (p : nat) (cin cout cout' : list Z)
         (dev' : Device) (f : Main.Frame),
    Main.gpu g = Some res /\
    (p = 0 \/ p = 1)%nat /\
    Z.of_nat p = Qfloor (Main.step g) mod 2 /\
    Main.bindGroupIndex g = Qfloor (Main.step g) mod 2 /\
    Main.jsIndex (Main.bindGroups res) (Main.bindGroupIndex g)
      = Some (Main.frameBindGroup f) /\
    Main.render g dev = Some (g, dev', f) /\
    Main.frameBindGroup f
      = MkBindGroup GridUniforms ColorUniforms (CellState p) (CellState (1 - p)) /\
    Main.frameDraw f
      = Cell.draw (uniformData dev) cin (vertexData dev) 6 (Main.drawInstanceCount g) /\
    Main.frameDispatch f = (n / 8, n / 8, 1) /\
    Main.frameStores f = storeOf n n (1 - p) <$> invocations (n / 8) (n / 8) 1 /\
    cellData dev !! p = Some cin /\
    cellData dev !! (1 - p)%nat = Some cout /\
    length cin = Z.to_nat (n * n) /\
    cellData dev' = <[(1 - p)%nat := cout']> (cellData dev) /\
    length cout' = Z.to_nat (n * n) /\
    deviceFor n dev' /\
    colorData dev' = Main.cornerColors g /\
    forall x y, 0 <= x < n -> 0 <= y < n ->
      (x < dispatchedSide n /\ y < dispatchedSide n ->
       exists v,
         Simulate.simulate (gridUniform n n) cin (x, y, 0)
           = Some (rowMajor n (x, y), v) /\
         cout' !! rowMajor n (x, y) = Some v) /\
      (~ (x < dispatchedSide n /\ y < dispatchedSide n) ->
       cout' !! rowMajor n (x, y) = cout !! rowMajor n (x, y)).
Proof.
  intros Hr Hn Hpos Hfit Hdev Hstep.
  destruct (render_cell_values g dev n Hr Hn Hpos Hfit Hdev Hstep)
    as (p & cin & cout & cout' & dev' & f & Hrender & Hp & Hpar & Hcin & Hcout &
        Hlen & Hlen' & Hi' & Ho' & Hl' & Hn' & Hu' & Hcells).
  destruct (render_runs g dev n Hr Hn Hpos Hfit Hdev Hstep)
    as (p0 & cin0 & cout0 & cout0' & dev0' & drawn & Hp0 & Hpar0 & Hcin0 & _ &
        Hrender0 & _).
  assert (Ep : p0 = p) by lia. subst p0.
  rewrite Hrender in Hrender0. injection Hrender0 as Edev Ef.
  subst dev0' f.
  pose proof Hrender as Hr2. unfold Main.render in Hr2.
  destruct Hr as [res [Hres Hbg]]. rewrite Hres in Hr2.
  cbn [mbind option_bind] in Hr2.
  destruct (Main.jsIndex (Main.bindGroups res) (Main.bindGroupIndex g))
    as [bg |] eqn:Ebg; cbn [mbind option_bind] in Hr2; [| discriminate Hr2].
  destruct (readStorage _ (binding2 bg)) as [states |] eqn:Est;
    cbn [mbind option_bind] in Hr2; [| discriminate Hr2].
  repeat match type of Hr2 with
  | (mbind _ (enforceRange ?q)) = Some _ =>
      destruct (enforceRange q);
      cbn [mbind option_bind] in Hr2; [| discriminate Hr2]
  end.
  destruct (computePass _ _ _) as [r |] eqn:Erun;
    cbn [mbind option_bind] in Hr2; [| discriminate Hr2].
  injection Hr2. intros _ _ _ _ Hdrawn Hbg' Hdev'.
  destruct (computePass_keeps_uniforms _ _ _ _ Erun) as [Hc _].
  rewrite Hdev' in Hc. cbn [colorData] in Hc.
  assert (Es : states = cin).
  { rewrite Hbg' in Est. cbn [binding2 readStorage cellData] in Est. congruence. }
  exists res, p, cin, cout, cout', dev'.
  exists (Main.MkFrame
            (MkBindGroup GridUniforms ColorUniforms (CellState p) (CellState (1 - p)))
            drawn (n / 8, n / 8, 1)
            (storeOf n n (1 - p) <$> invocations (n / 8) (n / 8) 1)).
  split; [exact Hres |]. split; [exact Hp |]. split; [exact Hpar |].
  split; [unfold Main.bindGroupIndex; now apply floor_rem2_parity |].
  split; [cbn [Main.frameBindGroup]; rewrite Ebg; f_equal; exact Hbg' |].
  split; [exact Hrender |]. split; [reflexivity |].
  split; [cbn [Main.frameDraw]; rewrite <- Hdrawn, Es; reflexivity |].
  split; [reflexivity |]. split; [reflexivity |].
  split; [exact Hcin |]. split; [exact Hcout |]. split; [exact Hlen |].
  split.
  { destruct Hdev as [_ [a [b [Hcd _]]]]. apply list_eq. intros j.
    destruct (decide (j = (1 - p)%nat)) as [-> | Hj].
    - rewrite list_lookup_insert_eq by (rewrite Hcd; cbn; lia). exact Ho'.
    - rewrite list_lookup_insert_ne by lia.
      destruct (decide (j = p)) as [-> | Hjp]; [congruence |].
      rewrite !lookup_ge_None_2; [reflexivity | rewrite Hcd; cbn; lia | lia]. }
  split; [exact Hl' |].
  split; [apply (deviceFor_after n dev' p cin cout'); assumption |].
  split; [exact Hc |]. exact Hcells.
Qed.

Lemma store_of_cell (n : Z) (o : nat) (x y : Z) :
  0 < n -> n * n < U32.modulus -> 0 <= x < n -> 0 <= y < n ->
  ((CellState o, rowMajor n (x, y)) ∈ storeOf n n o <$> invocations (n / 8) (n / 8) 1
   <-> x < dispatchedSide n /\ y < dispatchedSide n).
Proof.
  intros Hpos Hfit Hx Hy. rewrite list_elem_of_fmap. split.
  - intros [[[x' y'] z'] [E Hc]]. pose proof Hc as Hc'.
    apply (invocation_in_grid n Hpos) in Hc as [Hx' [Hy' ->]].
    apply elem_of_invocations in Hc'.
    unfold storeOf in E. cbn [fst snd] in E. injection E as E.
    rewrite (cellIndex_own n n Hpos Hpos Hfit) in E by assumption.
    destruct (rowMajor_inj n x y x' y') as [-> ->]; try lia; [exact E |].
    unfold dispatchedSide. lia.
  - intros [Hdx Hdy]. exists (x, y, 0). split.
    + unfold storeOf. cbn [fst snd].
      now rewrite (cellIndex_own n n Hpos Hpos Hfit) by assumption.
    + apply elem_of_invocations. unfold dispatchedSide in *. lia.
Qed.

(** C4, as the code has it. The update never mutates its input. Both bind
    groups bind two different buffers for reading and for writing. A call
    of [render] leaves the buffer it reads with its contents, in memory,
    and replaces nothing but the other buffer. It stores into that buffer
    only, inside it and at most once per index; after the call every cell
    of the dispatched square holds the value that its invocation computed
    from the buffer read, and every other cell holds what it held before.
    When the grid side is a multiple of 8 the dispatched square is the
    grid: exactly one full buffer is written. *)
Theorem update_leaves_input_untouched (g : Main.GameOfLife) (dev : Device) (n : Z) :
  ready g -> Main.grid_size g = n -> 0 < n -> n * n < U32.modulus ->
  deviceFor n dev -> (0 <= Main.step g)%Q ->
  Forall (fun bg => binding2 bg <> binding3 bg) Main.setupBindGroups /\
  exists (p : nat) (cin cout cout' : list Z) (dev' : Device) (f : Main.Frame),
    Main.render g dev = Some (g, dev', f) /\
    binding2 (Main.frameBindGroup f) = CellState p /\
    binding3 (Main.frameBindGroup f) = CellState (1 - p) /\
    binding2 (Main.frameBindGroup f) <> binding3 (Main.frameBindGroup f) /\
    readStorage dev (binding2 (Main.frameBindGroup f)) = Some cin /\
    readStorage dev' (binding2 (Main.frameBindGroup f)) = Some cin /\
    readStorage dev (binding3 (Main.frameBindGroup f)) = Some cout /\
    readStorage dev' (binding3 (Main.frameBindGroup f)) = Some cout' /\
    cellData dev' = <[(1 - p)%nat := cout']> (cellData dev) /\
    length cout' = length cout /\
    (forall b k, (b, k) ∈ Main.frameStores f ->
       b = binding3 (Main.frameBindGroup f) /\ (k < Z.to_nat (n * n))%nat) /\
    NoDup (Main.frameStores f) /\
    (forall x y, 0 <= x < n -> 0 <= y < n ->
       x < dispatchedSide n /\ y < dispatchedSide n ->
       (binding3 (Main.frameBindGroup f), rowMajor n (x, y)) ∈ Main.frameStores f /\
       exists v,
         Simulate.simulate (gridUniform n n) cin (x, y, 0)
           = Some (rowMajor n (x, y), v) /\
         cout' !! rowMajor n (x, y) = Some v) /\
    (forall x y, 0 <= x < n -> 0 <= y < n ->
       ~ (x < dispatchedSide n /\ y < dispatchedSide n) ->
       ~ ((binding3 (Main.frameBindGroup f), rowMajor n (x, y)) ∈ Main.frameStores f) /\
       cout' !! rowMajor n (x, y) = cout !! rowMajor n (x, y)) /\
    ((8 | n) ->
     forall x y, 0 <= x < n -> 0 <= y < n ->
       (binding3 (Main.frameBindGroup f), rowMajor n (x, y)) ∈ Main.frameStores f /\
       exists v,
         Simulate.simulate (gridUniform n n) cin (x, y, 0)
           = Some (rowMajor n (x, y), v) /\
         cout' !! rowMajor n (x, y) = Some v).
Proof.
  intros Hr Hn Hpos Hfit Hdev Hstep.
  split; [repeat constructor; discriminate |].
  destruct (render_effect g dev n Hr Hn Hpos Hfit Hdev Hstep)
    as (res & p & cin & cout & cout' & dev' & f & Hres & Hp & Hpar & Hidx & Hjs &
        Hrender & Hbg & Hdraw & Hdisp & Hstores & Hcin & Hcout & Hlen & Hmem &
        Hl' & Hdev' & Hcol & Hcells).
  assert (Hlc : length cout = Z.to_nat (n * n)).
  { destruct Hdev as [_ [a [b [Hcd [Ha Hb]]]]]. rewrite Hcd in Hcout.
    destruct Hp as [-> | ->]; cbn in Hcout; injection Hcout as <-; assumption. }
  assert (Hlt : (1 - p < length (cellData dev))%nat)
    by (eapply lookup_lt_Some; eauto).
  exists p, cin, cout, cout', dev', f.
  rewrite Hbg. cbn [binding2 binding3 readStorage]. rewrite Hstores, Hmem.
  split; [exact Hrender |]. split; [reflexivity |]. split; [reflexivity |].
  split; [intros E; injection E; lia |].
  split; [exact Hcin |].
  split; [rewrite list_lookup_insert_ne by lia; exact Hcin |].
  split; [exact Hcout |].
  split; [now rewrite list_lookup_insert_eq |].
  split; [reflexivity |]. split; [lia |].
  split; [intros b k; apply (store_in_buffer n Hpos Hfit) |].
  split; [apply (stores_NoDup n Hpos Hfit) |].
  split; [| split].
  - intros x y Hx Hy Hd. split.
    + now apply (store_of_cell n (1 - p) x y Hpos Hfit Hx Hy).
    + now apply (Hcells x y Hx Hy).
  - intros x y Hx Hy Hd. split.
    + intros Hin. apply Hd. now apply (store_of_cell n (1 - p) x y Hpos Hfit Hx Hy).
    + now apply (Hcells x y Hx Hy).
  - intros H8 x y Hx Hy.
    assert (Hd : x < dispatchedSide n /\ y < dispatchedSide n)
      by (unfold dispatchedSide; rewrite (eighth_exact n H8); lia).
    split.
    + now apply (store_of_cell n (1 - p) x y Hpos Hfit Hx Hy).
    + now apply (Hcells x y Hx Hy).
Qed.

Lemma update_leaves_input_untouched_witness :
  exists (cin cout cout' : list Z) (dev' : Device) (f : Main.Frame),
    Main.render game8 dev8 = Some (game8, dev', f) /\
    readStorage dev8 (CellState 0) = Some cin /\
    readStorage dev' (CellState 0) = Some cin /\
    readStorage dev8 (CellState 1) = Some cout /\
    readStorage dev' (CellState 1) = Some cout' /\
    cout !! rowMajor 8 (3, 3) = Some 1 /\
    cout' !! rowMajor 8 (3, 3) = Some 0 /\
    (CellState 1, rowMajor 8 (3, 3)) ∈ Main.frameStores f.
Proof.
  destruct (update_leaves_input_untouched game8 dev8 8)
    as (_ & p & cin & cout & cout' & dev' & f & H1 & H2 & H3 & _ & H4 & H5 & H6 &
        H7 & _ & _ & _ & _ & _ & _ & H8).
  - eexists. split; reflexivity.
  - reflexivity.
  - lia.
  - vm_compute. reflexivity.
  - split; [reflexivity |]. eexists _, _. repeat split; reflexivity.
  - vm_compute. discriminate.
  - assert (Hp : p = 0%nat).
    { assert (E : (fun r => binding2 (Main.frameBindGroup r.2)) <$> Main.render game8 dev8
                  = Some (CellState 0)) by (vm_compute; reflexivity).
      rewrite H1 in E. cbn in E. rewrite H2 in E. congruence. }
    subst p. rewrite H2, H3 in *. cbn [Nat.sub] in *.
    destruct (H8 ltac:(exists 1; reflexivity) 3 3 ltac:(lia) ltac:(lia))
      as [Hs [v [Hv Hc]]].
    exists cin, cout, cout', dev', f.
    do 5 (split; [assumption |]).
    assert (Ec : cout = Main.cellStateArray 8 (fun _ => 1%Q))
      by (cbn in H6; congruence).
    assert (Ei : cin = Main.cellStateArray 8 (fun _ => 1%Q))
      by (cbn in H4; congruence).
    split; [rewrite Ec; reflexivity |]. split; [| exact Hs].
    rewrite Hc. f_equal. rewrite Ei in Hv. vm_compute in Hv. congruence.
Defined.

(** C4 as stated fails in its last part for a side that is not a multiple
    of 8. On the 12 by 12 grid with every cell alive, [render] reads buffer
    A, leaves it as it was and stores to 64 of the 144 indices of buffer B:
    cell (0, 0) is recomputed and dies, cell (8, 0) keeps the value that
    buffer B held before the call. The update does not write one full
    buffer. *)
Lemma update_writes_part_of_buffer_on_12 :
  (fun r => Main.frameBindGroup r.2) <$> Main.render game12 dev12
    = Some (MkBindGroup GridUniforms ColorUniforms (CellState 0) (CellState 1)) /\
  (fun r => readStorage r.1.2 (CellState 0)) <$> Main.render game12 dev12
    = Some (readStorage dev12 (CellState 0)) /\
  (fun r => length (Main.frameStores r.2)) <$> Main.render game12 dev12
    = Some 64%nat /\
  (length <$> readStorage dev12 (CellState 1)) = Some 144%nat /\
  Simulate.simulate (gridUniform 12 12) (Main.cellStateArray 12 (fun _ => 1%Q)) (8, 0, 0)
    = Some (rowMajor 12 (8, 0), 0) /\
  readStorage dev12 (CellState 1) ≫= (fun c => c !! rowMajor 12 (8, 0)) = Some 1 /\
  (fun r => readStorage r.1.2 (CellState 1) ≫= (fun c => c !! rowMajor 12 (8, 0)))
    <$> Main.render game12 dev12 = Some (Some 1) /\
  (fun r => readStorage r.1.2 (CellState 1) ≫= (fun c => c !! rowMajor 12 (0, 0)))
    <$> Main.render game12 dev12 = Some (Some 0).
Proof.
  repeat split; vm_compute; reflexivity.
Qed.

(** C5. For a nonnegative [step], the index that [render] computes,
    [floor (step % 2)], is [floor step mod 2], and the bind group that
    [render] takes from the game's own [bindGroups] at that index fixes the
    orientation of the frame: at parity 0 the frame draws from buffer A,
    the update reads buffer A and writes buffer B; at parity 1 it is the
    reverse. The buffer read is left as it was, the buffer written is the
    only one replaced, and each dispatched cell of it holds the value
    computed from the buffer read. *)
Theorem bindGroup_follows_step_parity (g : Main.GameOfLife) (dev : Device) (n : Z) :
  ready g -> Main.grid_size g = n -> 0 < n -> n * n < U32.modulus ->
  deviceFor n dev -> (0 <= Main.step g)%Q ->
  (forall g0 : Main.GameOfLife,
     (0 <= Main.step g0)%Q -> Main.bindGroupIndex g0 = Qfloor (Main.step g0) mod 2) /\
  exists (res : Main.Resources) (a b b' : list Z) (dev' : Device) (f : Main.Frame),
    Main.gpu g = Some res /\
    Main.render g dev = Some (g, dev', f) /\
    Main.jsIndex (Main.bindGroups res) (Main.bindGroupIndex g)
      = Some (Main.frameBindGroup f) /\
    (Qfloor (Main.step g) mod 2 = 0 ->
       Main.frameBindGroup f
         = MkBindGroup GridUniforms ColorUniforms (CellState 0) (CellState 1) /\
       cellData dev = [a; b] /\ cellData dev' = [a; b'] /\
       Main.frameDraw f
         = Cell.draw (uniformData dev) a (vertexData dev) 6 (Main.drawInstanceCount g)) /\
    (Qfloor (Main.step g) mod 2 = 1 ->
       Main.frameBindGroup f
         = MkBindGroup GridUniforms ColorUniforms (CellState 1) (CellState 0) /\
       cellData dev = [b; a] /\ cellData dev' = [b'; a] /\
       Main.frameDraw f
         = Cell.draw (uniformData dev) a (vertexData dev) 6 (Main.drawInstanceCount g)) /\
    (forall k, (k < Z.to_nat (n * n))%nat ->
       (exists v, b' !! k = Some v)) /\
    (forall x y, 0 <= x < n -> 0 <= y < n ->
       x < dispatchedSide n /\ y < dispatchedSide n ->
       exists v,
         Simulate.simulate (gridUniform n n) a (x, y, 0) = Some (rowMajor n (x, y), v) /\
         b' !! rowMajor n (x, y) = Some v).
Proof.
  intros Hr Hn Hpos Hfit Hdev Hstep.
  destruct (render_effect g dev n Hr Hn Hpos Hfit Hdev Hstep)
    as (res & p & cin & cout & cout' & dev' & f & Hres & Hp & Hpar & Hidx & Hjs &
        Hrender & Hbg & Hdraw & Hdisp & Hstores & Hcin & Hcout & Hlen & Hmem &
        Hl' & Hdev' & Hcol & Hcells).
  split; [intros g0 H0; apply floor_rem2_parity; exact H0 |].
  exists res, cin, cout, cout', dev', f.
  split; [exact Hres |]. split; [exact Hrender |].
  split; [exact Hjs |].
  destruct Hdev as [_ [a0 [b0 [Hcd [Ha Hb]]]]].
  rewrite Hcd in Hcin, Hcout, Hmem.
  split; [| split; [| split]].
  - intros E. rewrite E in Hpar. assert (p = 0%nat) by lia. subst p.
    cbn in Hcin, Hcout, Hmem. injection Hcin as ->. injection Hcout as ->.
    repeat split; assumption.
  - intros E. rewrite E in Hpar. assert (p = 1%nat) by lia. subst p.
    cbn in Hcin, Hcout, Hmem. injection Hcin as ->. injection Hcout as ->.
    repeat split; assumption.
  - intros k Hk. apply lookup_lt_is_Some_2. lia.
  - intros x y Hx Hy Hd. now apply (Hcells x y Hx Hy).
Qed.

Lemma bindGroup_follows_step_parity_witness :
  (Main.bindGroupIndex game8 = 0 /\
   exists (b' : list Z) (f : Main.Frame),
     Main.render game8 dev8
       = Some (game8,
               MkDevice (vertexData dev8) (uniformData dev8) (Main.cornerColors game8)
                 [Main.cellStateArray 8 (fun _ => 1%Q); b'], f) /\
     Main.frameBindGroup f
       = MkBindGroup GridUniforms ColorUniforms (CellState 0) (CellState 1) /\
     b' !! rowMajor 8 (3, 3) = Some 0) /\
  (Main.bindGroupIndex (ticks 1 game8) = 1 /\
   exists (b' : list Z) (f : Main.Frame),
     (fun r => (r.1.1, cellData r.1.2, r.2)) <$> Main.render (ticks 1 game8) blinkerDev
       = Some (ticks 1 game8, [b'; blinkerRow8], f) /\
     Main.frameBindGroup f
       = MkBindGroup GridUniforms ColorUniforms (CellState 1) (CellState 0) /\
     b' = blinkerColumn8).
Proof.
  split.
  - destruct (bindGroup_follows_step_parity game8 dev8 8)
      as (Hi & res & a & b & b' & dev' & f & Hres & Hrender & Hjs & H0 & _ & _ & Hc).
    + eexists. split; reflexivity.
    + reflexivity.
    + lia.
    + vm_compute. reflexivity.
    + split; [reflexivity |]. eexists _, _. repeat split; reflexivity.
    + vm_compute. discriminate.
    + split; [rewrite Hi by (vm_compute; discriminate); reflexivity |].
      destruct (H0 eq_refl) as (Hbg & Hcd & Hcd' & _).
      assert (Ea : a = Main.cellStateArray 8 (fun _ => 1%Q))
        by (cbn in Hcd; congruence).
      exists b', f. split; [| split; [exact Hbg |]].
      * assert (E : (fun r => (vertexData r.1.2, uniformData r.1.2, colorData r.1.2))
                      <$> Main.render game8 dev8
                    = Some (vertexData dev8, uniformData dev8, Main.cornerColors game8))
          by (vm_compute; reflexivity).
        rewrite Hrender in E |- *. destruct dev' as [v u c cd].
        cbn [fmap option_fmap option_map fst snd vertexData uniformData colorData cellData]
          in E, Hcd'.
        injection E as -> -> ->. rewrite Hcd', Ea. reflexivity.
      * destruct (Hc 3 3 ltac:(lia) ltac:(lia) ltac:(vm_compute; split; reflexivity))
          as [v [Hv Hb']].
        rewrite Hb'. f_equal. rewrite Ea in Hv. vm_compute in Hv. congruence.
  - destruct (bindGroup_follows_step_parity (ticks 1 game8) blinkerDev 8)
      as (Hi & res & a & b & b' & dev' & f & Hres & Hrender & Hjs & _ & H1 & Hlen & Hc).
    + eexists. split; reflexivity.
    + reflexivity.
    + lia.
    + vm_compute. reflexivity.
    + split; [reflexivity |]. eexists _, _. repeat split; reflexivity.
    + vm_compute. discriminate.
    + split; [rewrite Hi by (vm_compute; discriminate); reflexivity |].
      destruct (H1 eq_refl) as (Hbg & Hcd & Hcd' & _).
      assert (Ea : a = blinkerRow8)
        by (unfold blinkerDev in Hcd; cbn [cellData] in Hcd; congruence).
      exists b', f. split; [| split; [exact Hbg |]].
      * rewrite Hrender. cbn [fmap option_fmap option_map fst snd].
        rewrite Hcd', Ea. reflexivity.
      * assert (E : (fun r => cellData r.1.2) <$> Main.render (ticks 1 game8) blinkerDev
                    = Some [blinkerColumn8; blinkerRow8]) by (vm_compute; reflexivity).
        rewrite Hrender in E. cbn [fmap option_fmap option_map fst snd] in E.
        rewrite Hcd' in E. congruence.
Defined.

(** C1. One application of the update does not reproduce the transition
    table on the 24 by 24 grid. In [westOfOrigin24] cell (0, 0) is dead and
    exactly three of its eight Moore neighbours on the torus are alive, so
    the table makes it alive. The invocation of the cell, which counts the
    cells at column and row 15 in place of 23, stores "dead", and after a
    whole call of [render], which dispatches an invocation for each of the
    576 cells, the buffer written holds "dead" at the cell. *)
Theorem dead_cell_with_three_neighbours_stays_dead_on_24 :
  binary westOfOrigin24 /\
  length westOfOrigin24 = 576%nat /\
  westOfOrigin24 !! rowMajor 24 (0, 0) = Some 0 /\
  liveAmong 24 westOfOrigin24 (torusNeighbors 24 24 0 0) = 3 /\
  Z.b2z (lifeRule false 3) = 1 /\
  liveAmong 24 westOfOrigin24 (codeNeighbors 24 24 0 0) = 0 /\
  Simulate.simulate (gridUniform 24 24) westOfOrigin24 (0, 0, 0)
    = Some (rowMajor 24 (0, 0), 0) /\
  ready game24 /\ deviceFor 24 westDev24 /\
  (fun r => (Main.frameBindGroup r.2,
             Main.frameDispatch r.2,
             length (Main.frameStores r.2),
             readStorage r.1.2 (CellState 0),
             readStorage r.1.2 (CellState 1) ≫= (fun c => c !! rowMajor 24 (0, 0))))
    <$> Main.render game24 westDev24
    = Some (MkBindGroup GridUniforms ColorUniforms (CellState 0) (CellState 1),
            (3, 3, 1),
            576%nat,
            Some westOfOrigin24,
            Some 0).
Proof.
  split; [apply cellsWith_binary |].
  split; [reflexivity |].
  do 5 (split; [vm_compute; reflexivity |]).
  split; [eexists; split; reflexivity |].
  split; [split; [reflexivity |]; eexists _, _; repeat split; reflexivity |].
  vm_compute; reflexivity.
Qed.

(** ** The clock under any interleaving of [tick] and [render] *)

Lemma tickRounded_exact (g : Main.GameOfLife) :
  Main.tickRounded (fun x => x) g = Main.tick g.
Proof. reflexivity. Qed.

Lemma runRounded_exact (calls : list Main.Call) :
  forall (g : Main.GameOfLife) (dev : Device),
    Main.runRounded (fun x => x) calls g dev = Main.run calls g dev.
Proof.
  induction calls as [| c rest IH]; intros g dev; [reflexivity |].
  destruct c; cbn [Main.runRounded Main.run].
  - rewrite tickRounded_exact. apply IH.
  - destruct (Main.render g dev); apply IH.
Qed.

(** A call of [render] returns to its caller with the fields of the game
    as they were, whether its frame is submitted or dropped. *)
Lemma render_call_keeps_game (fl : Q -> Q) (g : Main.GameOfLife) (dev : Device) :
  exists dev', Main.runRounded fl [Main.CallRender] g dev = Some (g, dev').
Proof.
  cbn [Main.runRounded]. destruct (Main.render g dev) as [r |] eqn:E.
  - exists r.1.2. now rewrite (render_keeps_game g dev r E).
  - now exists (Main.renderDropped g dev).
Qed.

Lemma fixed16_monotone (x y : Q) : (x <= y)%Q -> (fixed16 x <= fixed16 y)%Q.
Proof.
  intros H. unfold fixed16, Qle. cbn [Qnum Qden].
  apply Z.mul_le_mono_nonneg_r; [lia |].
  apply Qfloor_resp_le. lra.
Qed.

Lemma fixed16_idempotent (x : Q) : (fixed16 (fixed16 x) == fixed16 x)%Q.
Proof.
  unfold fixed16 at 1 3.
  set (m := Qfloor (x * 65536 + (1 # 2))).
  assert (E : Qfloor (fixed16 x * 65536 + (1 # 2)) = m).
  { apply Qfloor_unique.
    - unfold fixed16. fold m. unfold Qle, Qmult, Qplus, inject_Z. cbn [Qnum Qden]. lia.
    - unfold fixed16. fold m. unfold Qlt, Qmult, Qplus, inject_Z. cbn [Qnum Qden]. lia. }
  rewrite E. reflexivity.
Qed.

Section Rounding.

Variable fl : Q -> Q.
Hypothesis fl_monotone : forall x y : Q, (x <= y)%Q -> (fl x <= fl y)%Q.
Hypothesis fl_idempotent : forall x : Q, (fl (fl x) == fl x)%Q.
Hypothesis fl_zero : (fl 0 == 0)%Q.

Lemma delta_nonneg : (0 <= fl (1 # 60))%Q.
Proof. rewrite <- fl_zero. apply fl_monotone. lra. Qed.

Lemma tickRounded_time (g : Main.GameOfLife) :
  representable fl (Main.time g) ->
  (Main.time g <= Main.time (Main.tickRounded fl g))%Q /\
  representable fl (Main.time (Main.tickRounded fl g)).
Proof.
  unfold representable. intros Ht. cbn [Main.tickRounded Main.time].
  split; [| apply fl_idempotent].
  rewrite <- Ht at 1. apply fl_monotone.
  pose proof delta_nonneg. lra.
Qed.

Lemma tickRounded_step (g : Main.GameOfLife) :
  representable fl (Main.step g) ->
  ((0 <= Main.sim_speed g)%Q ->
   (Main.step g <= Main.step (Main.tickRounded fl g))%Q) /\
  ((Main.sim_speed g <= 0)%Q ->
   (Main.step (Main.tickRounded fl g) <= Main.step g)%Q) /\
  representable fl (Main.step (Main.tickRounded fl g)).
Proof.
  unfold representable. intros Hs. cbn [Main.tickRounded Main.step].
  pose proof delta_nonneg as Hd.
  split; [| split; [| apply fl_idempotent]].
  - intros Hpos. rewrite <- Hs at 1. apply fl_monotone.
    assert (0 <= fl (fl (1 # 60) * Main.sim_speed g))%Q.
    { rewrite <- fl_zero. apply fl_monotone. now apply Qmult_le_0_compat. }
    lra.
  - intros Hneg. rewrite <- Hs at 2. apply fl_monotone.
    assert (fl (fl (1 # 60) * Main.sim_speed g) <= 0)%Q.
    { rewrite <- fl_zero. apply fl_monotone. nra. }
    lra.
Qed.

Lemma runRounded_clock (calls : list Main.Call) :
  forall (g : Main.GameOfLife) (dev : Device),
    representable fl (Main.time g) -> representable fl (Main.step g) ->
    exists (g' : Main.GameOfLife) (dev' : Device),
      Main.runRounded fl calls g dev = Some (g', dev') /\
      g' = Nat.iter (Main.countTicks calls) (Main.tickRounded fl) g /\
      sameConfiguration g g' /\
      (Main.time g <= Main.time g')%Q /\
      ((0 <= Main.sim_speed g)%Q -> (Main.step g <= Main.step g')%Q) /\
      ((Main.sim_speed g <= 0)%Q -> (Main.step g' <= Main.step g)%Q).
Proof.
  induction calls as [| c rest IH]; intros g dev Ht Hs.
  - exists g, dev. cbn. repeat split; lra.
  - destruct c; cbn [Main.runRounded Main.countTicks].
    + destruct (tickRounded_time g Ht) as [Ht1 Ht2].
      destruct (tickRounded_step g Hs) as (Hs1 & Hs2 & Hs3).
      destruct (IH (Main.tickRounded fl g) dev Ht2 Hs3)
        as (g' & dev' & Hrun & Eg & (Hg & Hn & Hd & Hsp) & Htime & Hup & Hdown).
      cbn [Main.tickRounded Main.gpu Main.grid_size Main.disco_speed Main.sim_speed]
        in Hg, Hn, Hd, Hsp, Hup, Hdown.
      exists g', dev'. split; [exact Hrun |].
      split; [rewrite Nat.iter_succ_r; exact Eg |].
      split; [repeat split; assumption |].
      split; [lra |].
      split; intros H; [specialize (Hs1 H); specialize (Hup H)
                       | specialize (Hs2 H); specialize (Hdown H)]; lra.
    + destruct (Main.render g dev) as [r |] eqn:E.
      * rewrite (render_keeps_game g dev r E). now apply IH.
      * now apply IH.
Qed.

(** C10, as the code has it. A call of [tick] assigns the two clock
    accumulators and nothing else: [time] becomes [time + 1 / 60] and
    [step] becomes [step + sim_speed / 60], as the number arithmetic rounds
    the quotient, the product and the sums, and exactly so in exact
    arithmetic; [gpu], [grid_size], [disco_speed] and [sim_speed] are as
    before. A call of [render] returns with every field of the game as it
    was, whether its frame is submitted or dropped. Every interleaving of
    the two calls runs to its end, none of them stopped by a dropped
    frame, and leaves the game that its calls of [tick] alone produce:
    [time] has not decreased, [step] has not decreased when [sim_speed] is
    not negative, and has not increased when [sim_speed] is not positive.
    The rounding [fl] is any monotone rounding that keeps 0 and its own
    results. *)
Theorem tick_advances_only_the_clock :
  (forall g : Main.GameOfLife,
     (Main.time (Main.tick g) == Main.time g + (1 # 60))%Q /\
     (Main.step (Main.tick g) == Main.step g + Main.sim_speed g / 60)%Q /\
     sameConfiguration g (Main.tick g) /\
     Main.tickRounded (fun x => x) g = Main.tick g /\
     Main.time (Main.tickRounded fl g) = fl (Main.time g + fl (1 # 60))%Q /\
     Main.step (Main.tickRounded fl g)
       = fl (Main.step g + fl (fl (1 # 60) * Main.sim_speed g))%Q /\
     sameConfiguration g (Main.tickRounded fl g)) /\
  (forall (g : Main.GameOfLife) (dev : Device),
     (forall r, Main.render g dev = Some r -> r.1.1 = g) /\
     (exists dev', Main.runRounded fl [Main.CallRender] g dev = Some (g, dev')) /\
     (exists dev', Main.run [Main.CallRender] g dev = Some (g, dev'))) /\
  (forall (calls : list Main.Call) (g : Main.GameOfLife) (dev : Device),
     Main.runRounded (fun x => x) calls g dev = Main.run calls g dev) /\
  (forall (calls : list Main.Call) (g : Main.GameOfLife) (dev : Device),
     representable fl (Main.time g) -> representable fl (Main.step g) ->
     exists (g' : Main.GameOfLife) (dev' : Device),
       Main.runRounded fl calls g dev = Some (g', dev') /\
       g' = Nat.iter (Main.countTicks calls) (Main.tickRounded fl) g /\
       sameConfiguration g g' /\
       (Main.time g <= Main.time g')%Q /\
       ((0 <= Main.sim_speed g)%Q -> (Main.step g <= Main.step g')%Q) /\
       ((Main.sim_speed g <= 0)%Q -> (Main.step g' <= Main.step g)%Q)).
Proof.
  split; [| split; [| split]].
  - intros g. cbn [Main.tick Main.tickRounded Main.time Main.step].
    split; [reflexivity |].
    split; [unfold Qdiv; change (/ 60)%Q with (1 # 60)%Q; ring |].
    repeat split.
  - intros g dev. split; [apply render_keeps_game |].
    split; [apply render_call_keeps_game |].
    rewrite <- runRounded_exact. apply render_call_keeps_game.
  - intros calls g dev. apply runRounded_exact.
  - intros calls. apply runRounded_clock.
Qed.

End Rounding.

Lemma tick_advances_only_the_clock_witness :
  (exists (g' : Main.GameOfLife) (dev' : Device),
     Main.run [Main.CallTick; Main.CallRender; Main.CallTick] rewind8 dev8
       = Some (g', dev') /\
     Main.render (Main.tick rewind8) dev8 = None /\
     (Main.time g' == 1 # 30)%Q /\ (Main.step g' == -2)%Q /\
     (Main.time rewind8 <= Main.time g')%Q /\
     (Main.step g' <= Main.step rewind8)%Q) /\
  (exists (g' : Main.GameOfLife) (dev' : Device),
     Main.runRounded fixed16 [Main.CallTick; Main.CallRender; Main.CallTick] game8 dev8
       = Some (g', dev') /\
     (Main.time g' == 2184 # 65536)%Q /\
     (Main.time game8 <= Main.time g')%Q /\
     (Main.step game8 <= Main.step g')%Q).
Proof.
  split.
  - destruct (tick_advances_only_the_clock (fun x => x)) as (_ & _ & Hexact & Hrun).
    + intros x y H. exact H.
    + intros x. reflexivity.
    + reflexivity.
    + destruct (Hrun [Main.CallTick; Main.CallRender; Main.CallTick] rewind8 dev8)
        as (g' & dev' & Hr & Eg & _ & Ht & _ & Hdown).
      * unfold representable. reflexivity.
      * unfold representable. reflexivity.
      * rewrite Hexact in Hr. exists g', dev'.
        split; [exact Hr |]. split; [vm_compute; reflexivity |].
        split; [rewrite Eg; vm_compute; reflexivity |].
        split; [rewrite Eg; vm_compute; reflexivity |].
        split; [exact Ht |]. apply Hdown. vm_compute. discriminate.
  - destruct (tick_advances_only_the_clock fixed16 fixed16_monotone fixed16_idempotent)
      as (_ & _ & _ & Hrun).
    + vm_compute. reflexivity.
    + destruct (Hrun [Main.CallTick; Main.CallRender; Main.CallTick] game8 dev8)
        as (g' & dev' & Hr & Eg & _ & Ht & Hup & _).
      * vm_compute. reflexivity.
      * vm_compute. reflexivity.
      * exists g', dev'. split; [exact Hr |].
        split; [rewrite Eg; vm_compute; reflexivity |].
        split; [exact Ht |]. apply Hup. vm_compute. discriminate.
Defined.

(** ** The rate at which the buffers swap *)

(** A submitted frame leaves the grid uniform and the vertex buffer as
    they were. *)
Lemma render_keeps_uniforms (g : Main.GameOfLife) (dev : Device)
    (r : Main.GameOfLife * Device * Main.Frame) :
  Main.render g dev = Some r ->
  uniformData r.1.2 = uniformData dev /\ vertexData r.1.2 = vertexData dev.
Proof.
  unfold Main.render. intros H.
  repeat match type of H with
  | (mbind _ ?m) = Some _ =>
      let E := fresh "E" in
      destruct m eqn:E; cbn [mbind option_bind] in H; [| discriminate H]
  end.
  injection H as <-. cbn [fst snd].
  match goal with
  | E : computePass _ _ _ = Some _ |- _ =>
      apply computePass_keeps_uniforms in E; cbn in E
  end.
  intuition congruence.
Qed.

Lemma ticks_whole_step (k : nat) (m n : Z) (g : Main.GameOfLife) :
  ready g -> Main.grid_size g = n -> 0 <= m ->
  (Main.sim_speed g == 60 * inject_Z m)%Q -> (Main.step g == 0)%Q ->
  ready (ticks k g) /\ Main.grid_size (ticks k g) = n /\
  (0 <= Main.step (ticks k g))%Q /\
  Qfloor (Main.step (ticks k g)) mod 2 = (Z.of_nat k * m) mod 2.
Proof.
  intros [res [Hres Hbg]] Hn Hm Hs H0.
  destruct (ticks_fields k g) as (_ & Hst & Hg & Hgn & _ & _).
  assert (E : (Main.step (ticks k g) == inject_Z (Z.of_nat k * m))%Q).
  { rewrite Hst, Hs, H0, inject_Z_mult. field. }
  split; [exists res; split; [congruence | exact Hbg] |].
  split; [congruence |].
  split.
  - rewrite E. change 0%Q with (inject_Z 0). rewrite <- Zle_Qle. nia.
  - now rewrite (Qfloor_comp _ _ E), Qfloor_Z.
Qed.

(** While [step] stays on even whole numbers, the loop of [main] submits
    every frame and no frame writes buffer A. *)
Lemma even_rate_keeps_buffer_A (m n : Z) (k : nat) :
  0 < n -> n * n < U32.modulus -> 0 <= m -> m mod 2 = 0 ->
  forall (g : Main.GameOfLife) (dev : Device) (s : Z),
    ready g -> Main.grid_size g = n -> deviceFor n dev ->
    (Main.sim_speed g == 60 * inject_Z m)%Q ->
    0 <= s -> s mod 2 = 0 -> (Main.step g == inject_Z s)%Q ->
    exists dev',
      Main.run (Main.frames k) g dev = Some (ticks k g, dev') /\
      Main.droppedFrames (Main.frames k) g dev = 0%nat /\
      deviceFor n dev' /\
      cellData dev' !! 0%nat = cellData dev !! 0%nat.
Proof.
  intros Hpos Hfit Hm Heven.
  induction k as [| k IH]; intros g dev s Hr Hn Hdev Hs Hs0 Hs2 Hst.
  - exists dev. repeat split; try reflexivity; apply Hdev.
  - cbn [Main.frames Main.run Main.droppedFrames].
    assert (Hst1 : (Main.step (Main.tick g) == inject_Z (s + m))%Q).
    { cbn [Main.tick Main.step]. rewrite Hst, Hs, inject_Z_plus. field. }
    assert (Hnn : (0 <= Main.step (Main.tick g))%Q).
    { rewrite Hst1. change 0%Q with (inject_Z 0). rewrite <- Zle_Qle. lia. }
    destruct (render_effect (Main.tick g) dev n (tick_keeps_ready g Hr) Hn Hpos Hfit
                Hdev Hnn)
      as (res & p & cin & cout & cout' & dev1 & f & Hres & Hp & Hpar & Hidx & Hjs &
          Hrender & Hbg & Hdraw & Hdisp & Hstores & Hcin & Hcout & Hlen & Hmem &
          Hl' & Hdev1 & Hcol & Hcells).
    rewrite (Qfloor_comp _ _ Hst1), Qfloor_Z in Hpar.
    assert (Ep : p = 0%nat).
    { replace ((s + m) mod 2) with 0 in Hpar; [lia |].
      rewrite Z.add_mod by lia. rewrite Hs2, Heven. reflexivity. }
    subst p. rewrite Hrender. cbn [fst snd].
    assert (Hs2' : (s + m) mod 2 = 0)
      by (rewrite Z.add_mod by lia; rewrite Hs2, Heven; reflexivity).
    destruct (IH (Main.tick g) dev1 (s + m) (tick_keeps_ready g Hr) Hn Hdev1 Hs
                ltac:(lia) Hs2' Hst1)
      as (dev' & Hrun & Hdrop & Hdev' & HA).
    exists dev'. rewrite ticks_succ_r.
    split; [exact Hrun |]. split; [exact Hdrop |]. split; [exact Hdev' |].
    rewrite HA, Hmem. apply list_lookup_insert_ne. cbn. lia.
Qed.

(** X12. How fast the buffers swap. With [sim_speed = 60 * m] for a whole
    number [m] and [step] starting at 0, the frame after [k] ticks is
    submitted with the bind group of index [(k * m) mod 2]. For an odd [m]
    (60 in [main]) consecutive frames have opposite orientations: the
    frame after the next tick draws from, and computes from, the buffer
    that this frame wrote, and writes the buffer that this frame read. For
    an even [m] (120, say) every frame reads buffer A and stores to buffer
    B only, and the loop of [main], however long it runs, drops no frame
    and leaves buffer A with the contents it started with. *)
Theorem swap_rate (k : nat) (m n : Z) (g : Main.GameOfLife) (dev : Device) :
  ready g -> Main.grid_size g = n -> 0 < n -> n * n < U32.modulus ->
  deviceFor n dev ->
  0 <= m -> (Main.sim_speed g == 60 * inject_Z m)%Q -> (Main.step g == 0)%Q ->
  Main.bindGroupIndex (ticks k g) = (Z.of_nat k * m) mod 2 /\
  (exists (p : nat) (d1 : Device) (f1 : Main.Frame),
     Z.of_nat p = (Z.of_nat k * m) mod 2 /\
     Main.render (ticks k g) dev = Some (ticks k g, d1, f1) /\
     Main.frameBindGroup f1
       = MkBindGroup GridUniforms ColorUniforms (CellState p) (CellState (1 - p))) /\
  (m mod 2 = 1 ->
   exists (p : nat) (b b' : list Z) (d1 d2 : Device) (f1 f2 : Main.Frame),
     Main.render (ticks k g) dev = Some (ticks k g, d1, f1) /\
     Main.render (ticks (S k) g) d1 = Some (ticks (S k) g, d2, f2) /\
     binding2 (Main.frameBindGroup f1) = CellState p /\
     binding3 (Main.frameBindGroup f1) = CellState (1 - p) /\
     binding2 (Main.frameBindGroup f2) = binding3 (Main.frameBindGroup f1) /\
     binding3 (Main.frameBindGroup f2) = binding2 (Main.frameBindGroup f1) /\
     readStorage d1 (binding3 (Main.frameBindGroup f1)) = Some b /\
     Main.frameDraw f2
       = Cell.draw (uniformData d1) b (vertexData d1) 6
           (Main.drawInstanceCount (ticks (S k) g)) /\
     readStorage d2 (binding3 (Main.frameBindGroup f2)) = Some b' /\
     readStorage d2 (binding2 (Main.frameBindGroup f2)) = Some b /\
     forall x y, 0 <= x < n -> 0 <= y < n ->
       x < dispatchedSide n /\ y < dispatchedSide n ->
       exists v,
         Simulate.simulate (gridUniform n n) b (x, y, 0) = Some (rowMajor n (x, y), v) /\
         b' !! rowMajor n (x, y) = Some v) /\
  (m mod 2 = 0 ->
   (exists dev',
      Main.run (Main.frames k) g dev = Some (ticks k g, dev') /\
      Main.droppedFrames (Main.frames k) g dev = 0%nat /\
      readStorage dev' (CellState 0) = readStorage dev (CellState 0)) /\
   forall (j : nat) (d : Device), deviceFor n d ->
     exists (d' : Device) (f : Main.Frame),
       Main.render (ticks j g) d = Some (ticks j g, d', f) /\
       binding2 (Main.frameBindGroup f) = CellState 0 /\
       binding3 (Main.frameBindGroup f) = CellState 1 /\
       readStorage d' (CellState 0) = readStorage d (CellState 0) /\
       forall bf i, (bf, i) ∈ Main.frameStores f -> bf = CellState 1).
Proof.
  intros Hr Hn Hpos Hfit Hdev Hm Hs H0.
  assert (Hframe : forall (j : nat) (d : Device), deviceFor n d ->
    exists (p : nat) (cin cout cout' : list Z) (d' : Device) (f : Main.Frame),
      (p = 0 \/ p = 1)%nat /\
      Z.of_nat p = (Z.of_nat j * m) mod 2 /\
      Main.bindGroupIndex (ticks j g) = (Z.of_nat j * m) mod 2 /\
      Main.render (ticks j g) d = Some (ticks j g, d', f) /\
      Main.frameBindGroup f
        = MkBindGroup GridUniforms ColorUniforms (CellState p) (CellState (1 - p)) /\
      Main.frameDraw f
        = Cell.draw (uniformData d) cin (vertexData d) 6
            (Main.drawInstanceCount (ticks j g)) /\
      Main.frameStores f = storeOf n n (1 - p) <$> invocations (n / 8) (n / 8) 1 /\
      cellData d !! p = Some cin /\
      cellData d' = <[(1 - p)%nat := cout']> (cellData d) /\
      length cout' = Z.to_nat (n * n) /\
      deviceFor n d' /\
      uniformData d' = uniformData d /\ vertexData d' = vertexData d /\
      forall x y, 0 <= x < n -> 0 <= y < n ->
        x < dispatchedSide n /\ y < dispatchedSide n ->
        exists v,
          Simulate.simulate (gridUniform n n) cin (x, y, 0)
            = Some (rowMajor n (x, y), v) /\
          cout' !! rowMajor n (x, y) = Some v).
  { intros j d Hd.
    destruct (ticks_whole_step j m n g Hr Hn Hm Hs H0) as (Hrj & Hnj & Hnn & Hpj).
    destruct (render_effect (ticks j g) d n Hrj Hnj Hpos Hfit Hd Hnn)
      as (res & p & cin & cout & cout' & d' & f & Hres & Hp & Hpar & Hidx & Hjs &
          Hrender & Hbg & Hdraw & Hdisp & Hstores & Hcin & Hcout & Hlen & Hmem &
          Hl' & Hdev' & Hcol & Hcells).
    exists p, cin, cout, cout', d', f.
    split; [exact Hp |]. split; [congruence |]. split; [congruence |].
    split; [exact Hrender |]. split; [exact Hbg |]. split; [exact Hdraw |].
    split; [exact Hstores |]. split; [exact Hcin |]. split; [exact Hmem |].
    split; [exact Hl' |]. split; [exact Hdev' |].
    assert (Hu : uniformData d' = uniformData d /\ vertexData d' = vertexData d).
    { apply (render_keeps_uniforms _ _ _ Hrender). }
    split; [apply Hu |]. split; [apply Hu |].
    intros x y Hx Hy Hd2. now apply (Hcells x y Hx Hy). }
  split; [| split; [| split]].
  - destruct (Hframe k dev Hdev) as (p & _ & _ & _ & _ & _ & _ & _ & Hi & _). exact Hi.
  - destruct (Hframe k dev Hdev)
      as (p & cin & cout & cout' & d1 & f1 & _ & Hp & _ & Hrender & Hbg & _).
    exists p, d1, f1. repeat split; assumption.
  - intros Hodd.
    destruct (Hframe k dev Hdev)
      as (p & cin & cout & cout' & d1 & f1 & Hp01 & Hp & _ & Hrender & Hbg & _ & _ &
          Hcin & Hmem & Hl' & Hd1 & Hu1 & Hv1 & _).
    destruct (Hframe (S k) d1 Hd1)
      as (q & cin2 & cout2 & cout2' & d2 & f2 & Hq01 & Hq & _ & Hrender2 & Hbg2 &
          Hdraw2 & _ & Hcin2 & Hmem2 & Hl2' & Hd2 & _ & _ & Hcells2).
    assert (Eq : q = (1 - p)%nat).
    { rewrite Nat2Z.inj_succ in Hq. unfold Z.succ in Hq.
      replace ((Z.of_nat k + 1) * m) with (Z.of_nat k * m + m) in Hq by ring.
      rewrite Z.add_mod in Hq by lia. rewrite Hodd, <- Hp in Hq.
      destruct Hp01 as [-> | ->];
        [change (Z.of_nat q = 1) in Hq | change (Z.of_nat q = 0) in Hq]; lia. }
    subst q.
    assert (E11 : (1 - (1 - p))%nat = p) by lia.
    rewrite E11 in *.
    assert (Hlt : (1 - p < length (cellData dev))%nat).
    { destruct Hdev as [_ [a0 [b0 [Hcd _]]]]. rewrite Hcd. cbn. lia. }
    assert (Ecin2 : cin2 = cout').
    { rewrite Hmem, list_lookup_insert_eq in Hcin2 by exact Hlt. congruence. }
    subst cin2.
    assert (Hlt2 : (p < length (cellData d1))%nat).
    { destruct Hd1 as [_ [a0 [b0 [Hcd _]]]]. rewrite Hcd. cbn. lia. }
    exists p, cout', cout2', d1, d2, f1, f2.
    rewrite Hbg, Hbg2. cbn [binding2 binding3 readStorage].
    split; [exact Hrender |]. split; [exact Hrender2 |].
    do 4 (split; [reflexivity |]).
    split; [exact Hcin2 |]. split; [exact Hdraw2 |].
    split; [rewrite Hmem2; now apply list_lookup_insert_eq |].
    split; [rewrite Hmem2, list_lookup_insert_ne by lia; exact Hcin2 |].
    exact Hcells2.
  - intros Heven. split.
    + destruct (even_rate_keeps_buffer_A m n k Hpos Hfit Hm Heven g dev 0
                  Hr Hn Hdev Hs ltac:(lia) eq_refl H0)
        as (dev' & Hrun & Hdrop & _ & HA).
      exists dev'. cbn [readStorage]. repeat split; assumption.
    + intros j d Hd.
      destruct (Hframe j d Hd)
        as (p & cin & cout & cout' & d' & f & _ & Hp & _ & Hrender & Hbg & _ &
            Hstores & _ & Hmem & _).
      assert (Ep : p = 0%nat).
      { rewrite Z.mul_mod in Hp by lia. rewrite Heven, Z.mul_0_r in Hp.
        change (0 mod 2) with 0 in Hp. lia. }
      subst p. exists d', f. rewrite Hbg, Hstores.
      cbn [binding2 binding3 readStorage Nat.sub]. rewrite Hmem.
      split; [exact Hrender |]. do 2 (split; [reflexivity |]).
      split; [apply list_lookup_insert_ne; lia |].
      intros bf i Hin. apply list_elem_of_fmap in Hin as [c [E _]].
      unfold storeOf in E. congruence.
Qed.

Lemma swap_rate_witness :
  (exists (b : list Z) (d1 d2 : Device) (f1 f2 : Main.Frame),
     Main.render (ticks 3 game8) blinkerDev = Some (ticks 3 game8, d1, f1) /\
     Main.render (ticks 4 game8) d1 = Some (ticks 4 game8, d2, f2) /\
     binding2 (Main.frameBindGroup f1) = CellState 1 /\
     binding2 (Main.frameBindGroup f2) = CellState 0 /\
     readStorage d1 (CellState 0) = Some b /\
     b = blinkerColumn8 /\
     readStorage d2 (CellState 0) = Some b) /\
  (exists dev',
     Main.run (Main.frames 3) (Main.setup (Main.constructor 8 (1 # 2) 120)
                                 (fun _ => 1%Q)).1 blinkerDev
       = Some (ticks 3 (Main.setup (Main.constructor 8 (1 # 2) 120) (fun _ => 1%Q)).1,
               dev') /\
     readStorage dev' (CellState 0) = Some blinkerRow8).
Proof.
  split.
  - destruct (swap_rate 3 1 8 game8 blinkerDev) as (Hi & _ & Hodd & _).
    + eexists. split; reflexivity.
    + reflexivity.
    + lia.
    + vm_compute. reflexivity.
    + split; [reflexivity |]. eexists _, _. repeat split; reflexivity.
    + lia.
    + reflexivity.
    + reflexivity.
    + destruct (Hodd eq_refl)
        as (p & b & b' & d1 & d2 & f1 & f2 & Hr1 & Hr2 & H21 & H31 & H22 & H32 &
            Hb & _ & _ & Hb2 & _).
      assert (Ep : p = 1%nat).
      { assert (E : (fun r => binding2 (Main.frameBindGroup r.2))
                      <$> Main.render (ticks 3 game8) blinkerDev
                    = Some (CellState 1)) by (vm_compute; reflexivity).
        rewrite Hr1 in E. cbn [fmap option_fmap option_map snd] in E.
        rewrite H21 in E. congruence. }
      subst p. rewrite H22, H31 in *. cbn [Nat.sub] in *.
      exists b, d1, d2, f1, f2.
      split; [exact Hr1 |]. split; [exact Hr2 |]. split; [exact H21 |].
      split; [exact H22 |]. split; [exact Hb |]. split; [| exact Hb2].
      assert (E : (fun r => readStorage r.1.2 (CellState 0))
                    <$> Main.render (ticks 3 game8) blinkerDev
                  = Some (Some blinkerColumn8)) by (vm_compute; reflexivity).
      rewrite Hr1 in E. cbn [fmap option_fmap option_map fst snd] in E. congruence.
  - destruct (swap_rate 3 2 8
                (Main.setup (Main.constructor 8 (1 # 2) 120) (fun _ => 1%Q)).1 blinkerDev)
      as (_ & _ & _ & Heven).
    + eexists. split; reflexivity.
    + reflexivity.
    + lia.
    + vm_compute. reflexivity.
    + split; [reflexivity |]. eexists _, _. repeat split; reflexivity.
    + lia.
    + reflexivity.
    + reflexivity.
    + destruct (Heven eq_refl) as ((dev' & Hrun & _ & HA) & _).
      exists dev'. split; [exact Hrun |]. rewrite HA. reflexivity.
Defined.
